(* ===== verification/_CoqProject ===== *)
-Q . S2P
Prelude.v
QtString.v
LogDecode.v
Cmath.v
UnitDecoder.v
AlignmentParser.v
Markers.v
LipModel.v
TableModel.v
ItemModel.v
TrackCodec.v
TextFiles.v
FrameTrack.v
Waveform.v
Window.v
Delegate.v
EditProtocol.v
Session.v
Layout.v
