(* ===== verification/Prelude.v ===== *)
(** * Verification of the Julius forced-alignment lip-sync tool

    This development models JuliusView (src/view/JuliusView), a Qt tool
    that runs the Julius recognizer on a WAV file, reads the
    forced-alignment report Julius prints, measures the loudness of each
    aligned vowel in the samples, synthesizes a 60 fps viseme track (the
    ADXLip table), lets the user edit the table, and writes and reads the
    track as ADXLip text.

    ** The program's parts and how they interact

    - The window [JuliusAnalyzeWindow] (Private/JuliusAnalyzeWindow.cpp)
      owns everything.  [onLoadWav] loads the WAV file into the waveform
      widget and sets the position slider's range
      ([updateSliderRangeFromWave]).  [onRunJulius] starts Julius, and its
      [readyReadStandardOutput] lambda shows each chunk of output in the
      status bar ([decodeJuliusLog]: UTF-8, else CP932, lines 36-58) and
      splits it into lines for [parseForcedAlignment], which decodes each
      line again with [decodeJuliusLog].  At the end of an alignment block
      [parseForcedAlignment] calls [processForcedAlignmentResult].  That
      builds the vowel markers from the pending vowels and the samples,
      hands them to the widget, and replaces the table's rows with the
      synthesized track.  [onExportADXLip] and [onImportADXLip] write and
      read the table.
    - [parseForcedAlignment] (lines 492-584) is a line-driven state
      machine over [inForcedBlock_], [sawPhonemeSection_],
      [currentAlignSection_] and [pendingVowels_].  Its data lines go
      through a regular expression and the unit decoder ("k-a+i" to a
      pending vowel with consonant [consonantCodeToRoman], lines 62-82).
    - [processForcedAlignmentResult] (lines 587-727) computes the markers
      (per-segment RMS, dBFS, sample offset, relative energies) and the
      60 fps frames with the optional silence hold.
    - [ADXLipModel] (Private/ADXLipModel.cpp) is the table model over the
      frames.  Its [exportToFile] writes the text format.
    - [WaveformWidget] (Private/WaveformWidget.cpp) holds the samples,
      draws them and the markers, and follows the media player's position.
    - [NoCommitDelegate] (Public/NoCommitDelegate.h) filters the keys of
      the cell editor.
    - [setupConnections] (lines 180-217) wires the buttons, the slider,
      the combo box and the check box to the slots, and the widget's
      signals to the slider; the widget's constructor connects its
      [QMediaPlayer] ([WaveformWidget.cpp] 10-36), which the play, pause,
      stop and seek slots drive.

    ** Files, modules and what they model (in dependency order)

    + [Prelude.v] (this file): the scope [julius_scope] with 32-bit [int]
      arithmetic ([*i], [+i], [-i]) and the option-bind notation for early
      returns, [qBound], rational rounding ([Qround_half_away] for
      [std::round], [Qtrunc] for casts to [int], [winmax] for the
      windows.h [max] macro), list folds, the hint databases [julius] and
      the shared tactics ([zbool], [zlia] for [/] and [mod], [zcases]).
    + [QtString.v], [Module QtString]: the QString operations the code
      calls (trimmed, startsWith, split with and without SkipEmptyParts,
      section, toUpper, toInt, toDouble) and the number formatting of
      QTextStream (integers, fixed notation with six decimals), with
      round-trip lemmas between printing and parsing.
    + [LogDecode.v], [Module LogDecode]: the byte level of Julius's
      output.  A [QByteArray] is a list of bytes and a [QString] its UTF-16
      code units; [QString::fromUtf8] is written out as Qt decodes;
      [decodeCp932], [decodeJuliusLog], the stdout lambda
      ([readyReadStdout]) and the first line of [parseForcedAlignment]
      ([parserLine]) are its definitions.  The Windows code pages
      ([MultiByteToWideChar] with 932, [fromLocal8Bit], [toLocal8Bit]) are
      the class [CodePages] with the laws [CodePagesLaws]; the
      single-byte instance evaluates the witnesses.  The ASCII view
      ([strUnits], [bytesString]) links the bytes to the [string] model of
      the parser.
    + [Cmath.v]: the interface [CMath]/[CMathLaws] to [std::sqrt] and
      [std::log10], and the executable instance [FixedCMath.fixedCMath].
    + [UnitDecoder.v], [Module UnitDecoder]: [PendingVowel],
      [consonantCodeToRoman] and the decoding of a unit ([decodeUnit]).
    + [AlignmentParser.v], [Module AlignmentParser]: the parser state
      record, the step [parseForcedAlignment] (returning the batch it hands
      on), the stdout chunk handler ([feedChunk]), the reachability
      relation and the parser invariant.
    + [Markers.v], [Module Markers]: [VowelMarker] and the marker builder
      ([sampleWindow], [windowSumSq], [firstPass], [relPass],
      [buildVowelMarkers]), parameterised by a [CMath] instance.
    + [LipModel.v], [Module LipModel]: the [ADXLipFrame] record.
    + [TableModel.v], [Module TableModel]: every method of [ADXLipModel]
      except [exportToFile], over stdpp lists updated by index, with Qt's
      [QModelIndex] and [QVariant].
    + [ItemModel.v], [Module ItemModel]: the interface the table view
      uses, the class [ItemModel] of the overrides [ADXLipModel.h]
      declares, with the laws [ItemModelLaws] of Qt's item-model
      contract; [ADXLipModel] is the instance [adxLipModel] and
      [adxLipModelLaws] discharges the laws.  The view's paint pass and
      committed edits are written once against the class.
    + [TrackCodec.v], [Module TrackCodec]: [exportToFile] as the text it
      writes, and the reading loops of [onImportADXLip]: [QTextStream::
      readLine] on the unread text ([readLine]), the header loop
      ([skipHeaderLines]) and the [while (!in.atEnd())] loop ([readFrames],
      by well-founded recursion with Equations), proved to read the lines
      of the reference splitting [readLines].
    + [TextFiles.v], [Module TextFiles]: the [QIODevice::Text] mode of
      the two [QFile::open] calls ([writeText] with [crlfOf] on Windows,
      [readText] with [dropCR] on every platform), and the relation [lineRel]
      between texts whose lines differ only by a final carriage return.
    + [FrameTrack.v], [Module FrameTrack]: the 60 fps synthesizer
      ([buildAdxFrames]) and a reference definition of the hold.
    + [Waveform.v], [Module Waveform]: the widget's state and operations
      ([loadFromFile] with the mono down-mix, [setViewPosition], the
      playhead) and [paintEvent] as the ordered list of its drawing calls
      ([DrawCmd]), with the index arithmetic of its min/max vector.
    + [Window.v], [Module Window]: the window's state as one record and
      each slot as a function on it.  The effects outside the state
      (message boxes, process start, stdin writes, file writes) are an
      ordered list of [Effect]s.  The label-mode combo box is the item list
      [setupUi] builds ([labelModeItems]) read by [itemData].
    + [Delegate.v], [Module Delegate]: [NoCommitDelegate::eventFilter],
      [createEditor] and [setEditorData] over the table model, and the
      view's editing session ([enterSession]: fill the line edit, Return,
      [commitData], [setModelData]).
    + [EditProtocol.v], [Module EditProtocol]: the filter's effects with
      the base [QStyledItemDelegate::eventFilter] in place of its call
      ([filterEffects]), and the view's slots for [commitData] and
      [closeEditor] on the state of an edit ([EditView]: the index the open
      editor is registered for and the rows), run in order
      ([runEffects], [editorEvent]).
    + [Session.v], [Module Session]: the media player, the slots with
      their status-bar messages, and [setupConnections] as one step
      function [step] from a [UiEvent] on the state [App] (window and
      player); [app_reachable] closes the initial state under the events
      [possible] allows.
    + [Layout.v], [Module Layout]: the constructor, [setupUi] and
      [setupConnections] as the statements they execute ([Op]) over an
      object store: the pointer members as a stdpp [gmap] from names to
      null, indeterminate or object pointers, the created objects with the
      calls made on them, and the connections; [exec] interprets them and
      returns [None] on a call through a null or indeterminate pointer.

    ** What the theorems show

    - Parser ([AlignmentParser]): an invariant of every reachable state,
      by rule induction.  A whole block hands on exactly the decoded lines
      of its last phoneme section, once.  Nothing is handed on except at a
      block end.  A line split across two output chunks is lost.
    - Unit decoder: triphones and monophones are decoded as the spec
      says.  A word-initial biphone [v+r] drops its vowel.  The centre
      frame computation does not overflow.
    - Markers: every sample read is in bounds (even when the frame
      products wrap), RMS is the root mean square of the clamped window,
      relMax is in [0,1] and equals 1 at the loudest marker, relSum sums to
      1, and the position fields are consistent.  Silence has the dBFS
      floor -240, not the spec's minus infinity.  (relVowelSum keeps the
      record's default 0: [relPass] never assigns it.)
    - Frame track: row count and indices, times within half a
      millisecond, the hold equals its reference definition, at most one
      viseme per row, no silent row after the first voiced one, and the
      first covering marker wins.
    - Table model: an edit reads back as written and touches nothing else.
      The guards of [setData] are exact.  No access through a model index
      is out of range.  The view's paint pass and any sequence of edits
      are written once against the item-model interface, whose laws
      [ADXLipModel] discharges; for [ADXLipModel] over any table the view
      reads every cell and commits any edits without undefined behaviour,
      keeping the row count.
    - Log decoding ([LogDecode]): on ASCII bytes the stdout lambda hands
      the parser exactly the lines of the [string] model (a refinement, so
      the parser's theorems are about the code's byte handling); UTF-8
      text round-trips through [decodeJuliusLog]; a chunk cut inside a
      UTF-8 character is shown through CP932.
    - Codec: import after export returns the frames rounded to six
      decimals with N = 0.  A second round trip changes nothing, and the
      first is not the identity.  The import does not depend on the
      platform that wrote the file in text mode, and Windows line endings
      change nothing.  The reading loops terminate on every
      file, once per line, and read what the reference splitting reads.
    - Window: whatever the chunking of Julius's output, the table ends
      with the track [processForcedAlignmentResult] makes of the last batch
      the parser hands on; each combo box item selects the mode it names;
      the early return on an empty wave keeps the old track; there
      is no return after a failed process start; a failed WAV load
      followed by a run divides by a zero rate; the frame shift passed to
      Julius agrees with the fixed 160 samples only near 16 kHz; for every
      sample rate the slider's range is exact up to 2147483 samples and
      falls short of the duration for every longer file.
    - Waveform: the min/max vector of [paintEvent] is accessed in range
      for a non-zero width (Qt does not paint a widget of zero size); the
      drawn columns,
      path points and marker dots stay inside the widget for samples in
      [[-1, 1]]; a column no sample falls into is drawn full height.
    - Delegate: the filter commits only on Return/Enter; opening a cell's
      editor and pressing Return without typing leaves the table as it
      was (table model and delegate together).  With the base filter and
      the view's slots ([EditProtocol]), only Return and Enter (the
      delegate) and Tab and Backtab (the base filter) write the editor's
      text: on a focus loss the base filter's [commitData] comes after the
      delegate's [closeEditor] and the view ignores it.
    - Session: every reachable state keeps the slider's range and value
      consistent and within [int], the parser's invariant and a stopped
      player without a source (rule induction over all events); a slider
      drag seeks the player within the range and the player's report
      leaves the slider there; the end of the media rewinds player,
      playhead and slider; a failed WAV load keeps the previous file in
      the player, so Play plays it while no wave is shown.
    - Construction ([Layout]): the constructor wires every event the
      step function receives from a widget, without touching a null or
      indeterminate pointer; [setupUi] builds the combo box items, the
      check box and the table view the window model assumes; the column
      loop ends by its condition and sets exactly columns 1 to 11.

    ** Modelling choices, bounds and fuel

    - C++ [int] is a [Z] kept in the signed 32-bit range.  Where the code
      multiplies or adds ints the wrap-around is written out ([imul],
      [iadd]: two's complement, what MSVC emits for the signed overflow the
      C++ standard leaves undefined).  Integer division is [Z.quot].
    - C++ [double] and [float] are exact rationals [Q].  The model computes
      what the code computes up to IEEE rounding, and six-decimal
      formatting rounds exact ties away from zero.
    - In the parser, the codec and the table, [QString] is a [string] of
      8-bit characters.  Julius prints its alignment report in ASCII, and
      [LogDecode.readyReadStdout_ascii] proves that on ASCII bytes the
      lines the code's parser matches are those of this model.  The byte
      level ([LogDecode]) uses UTF-16 code units.
    - [QVector] is a [list].  The window's members are fields of the
      record [Window.Window], so every slot reads and writes the one shared
      state.  Reading a vector out of range is undefined behaviour, and
      the model returns [None] there.
    - [FixedCMath.fixedCMath] computes [sqrt] rounded down to 10^-6 (the
      [Z.sqrt] of the argument scaled by 10^12).  Its [log10] is the
      difference of the digit counts of the reduced numerator and
      denominator, which is exact on powers of ten (the dBFS floor uses
      10^-12).  The digit count runs on fuel [log2 z + 1], more than the
      number of divisions by ten it needs.  The theorems hold for every
      lawful [CMath]; this instance only evaluates the witnesses.
    - [QtString.natDigits] recurses with one step more than its argument
      has bits, which is at least its number of decimal digits
      ([size_le_pow10]).
    - [Layout.forColumns] runs on fuel [fixedParamCount] (12), one more
      than the eleven iterations the loop makes; [forColumns_enough]
      shows any fuel from eleven on gives the same statements.
    - [TrackCodec.readFrames] is total by its measure, the length of the
      unread text, which each [readLine] shortens ([readLine_shorter]); no
      fuel is involved.  [LogDecode.utf8Body] is structural on the bytes.
    - Library behaviour the code relies on is written from Qt's
      documentation, not from Qt's sources:
      - [QAbstractItemModel::index] gives a valid index only for an
        existing cell.
      - [QAbstractSlider::setRange]/[setValue] bound the value.
      - [QTextStream::readLine] strips "\n" or "\r\n".
      - [QIODevice::Text] writes "\n" as "\r\n" on Windows (and as it
        is elsewhere), and [QIODevice::read] drops every "\r" on every
        platform.
      - [QStyledItemDelegate::eventFilter] on a line edit without a
        validator commits and closes the editor on Tab ([EditNextItem]),
        Backtab ([EditPreviousItem]) and a focus loss ([NoHint]); the
        view ignores [commitData] from an editor it has unregistered, and
        [closeEditor] unregisters it.
      - [QVariant::toInt] rounds a double.
      - [QString::fromUtf8] skips a byte order mark and replaces each byte
        that does not start a valid sequence (overlong forms, surrogates
        and values above U+10FFFF included) by U+FFFD.
      - [QChar::isSpace] is true of the Unicode separators and 9-13, 0x85.
      - The Windows code pages are assumed only to map ASCII to itself
        ([CodePagesLaws]).
      - [QMediaPlayer]: [setSource] stops at 0, [play]/[pause] need a
        source, [stop] rewinds, [setPosition] clamps at 0 and needs a
        source.  Its signals come from the environment: [possible] lets
        the position move forward only with a source (while playing, or by
        0 to report a seek) and the media end only while playing.
    - The Julius output events of [Session.step] may arrive in any state
      (also before a run), which over-approximates the process's
      lifetime; the invariants hold a fortiori.  The parser reads a
      chunk's bytes as 8-bit characters ([bytesString]).

    ** Not modelled

    - The pens, brushes and gradient of [paintEvent], and the audio
      output of the media player, are output only.
    - The geometry, sizes and painting of the widgets [setupUi] creates
      are Qt's; the model records the calls ([Layout.Call]), not their
      effect on the screen.  The member [isPlaying_] is set in the
      constructor and never read.
    - The status bar's own display (timeouts) is not modelled; its
      messages are [Session.ShowMessage] effects.  The code page tables
      of Windows are not written out.
    - The widgets [QStyledItemDelegate::createEditor] builds, and the
      shortest round-trip text of a [double] ([QVariant::toString]), which
      is the parameter [doubleText].
    - libsndfile decoding is an input record ([Waveform.SFInfo]).
    - The [onApplyThreshold*] slots are declared but never defined.
    - After Tab or Backtab the view opens an editor on the neighbouring
      cell; that new edit is not followed (it starts over from
      [setEditorData]).  The class declarations of the headers are
      modelled only through the members and methods they declare.
    - [frame60Cnt] divides by the sample rate in [Q], where a rate of 0
      gives 0 rows and C++ would compute [int(ceil(inf))]; the code never
      gets there with rate 0, since a failed load leaves no samples and
      [processForcedAlignmentResult] returns early on an empty wave.
*)

From Stdlib Require Import ZArith QArith Qround Lqa Lia List String Ascii Bool.
Import ListNotations.
Local Open Scope Z_scope.

Declare Scope julius_scope.
Delimit Scope julius_scope with jl.

(** ** Signed 32-bit integers (C++ [int]) *)

Definition INT_MIN : Z := - 2 ^ 31.
Definition INT_MAX : Z := 2 ^ 31 - 1.

(** Two's-complement wrap-around to 32 bits. *)
Definition wrap32 (z : Z) : Z := (z + 2 ^ 31) mod 2 ^ 32 - 2 ^ 31.

Definition in_int32 (z : Z) : Prop := INT_MIN <= z <= INT_MAX.

Definition in_int32b (z : Z) : bool := (INT_MIN <=? z) && (z <=? INT_MAX).

Definition imul (a b : Z) : Z := wrap32 (a * b).
Definition iadd (a b : Z) : Z := wrap32 (a + b).
Definition isub (a b : Z) : Z := wrap32 (a - b).

Notation "a *i b" := (imul a b) (at level 40, left associativity) : julius_scope.
Notation "a +i b" := (iadd a b) (at level 50, left associativity) : julius_scope.
Notation "a -i b" := (isub a b) (at level 50, left associativity) : julius_scope.

(** [qBound(min, v, max)] of Qt: [qMax(min, qMin(max, v))]. *)
Definition qBound (lo v hi : Z) : Z := Z.max lo (Z.min hi v).

(** ** Doubles as rationals *)

Local Open Scope Q_scope.

(** [std::round]: halfway cases away from zero. *)
Definition Qround_half_away (q : Q) : Z :=
  if Qle_bool 0 q then Qfloor (q + (1 # 2)) else (- Qfloor (- q + (1 # 2)))%Z.

(** The [max] macro of <windows.h>: [(((a) > (b)) ? (a) : (b))]. *)
Definition winmax (a b : Q) : Q := if Qle_bool a b then b else a.

(** [int(x)] on a double: truncation toward zero. *)
Definition Qtrunc (q : Q) : Z :=
  if Qle_bool 0 q then Qfloor q else (- Qfloor (- q))%Z.

Notation "⌊ q ⌋" := (Qfloor q) (format "⌊ q ⌋") : julius_scope.
Notation "⌈ q ⌉" := (Qceiling q) (format "⌈ q ⌉") : julius_scope.

Local Close Scope Q_scope.

(** ** Lists *)

(** [std::find_if]: the first element satisfying [p]. *)
Fixpoint find_first {A} (p : A -> bool) (l : list A) : option A :=
  match l with
  | [] => None
  | x :: l' => if p x then Some x else find_first p l'
  end.

Fixpoint filter_map {A B} (f : A -> option B) (l : list A) : list B :=
  match l with
  | [] => []
  | x :: l' => match f x with Some y => y :: filter_map f l' | None => filter_map f l' end
  end.

(** Sum of a list of rationals. *)
Definition Qsum (l : list Q) : Q := fold_right Qplus 0%Q l.

(** ** Early returns

    An operation of the code that gives up with an early [return] on a
    failed test is an [option]-valued function; these notations sequence
    such steps. *)

Notation "x <- c ;; k" := (match c with Some x => k | None => None end)
  (at level 60, c at next level, right associativity) : julius_scope.
Notation "' p <- c ;; k" := (match c with Some p => k | None => None end)
  (at level 60, p pattern, c at next level, right associativity) : julius_scope.

(** ** Tactics and hints *)

Create HintDb julius.
Create Rewrite HintDb julius.

Ltac inv H := inversion H; subst; clear H.

(** Turn the boolean tests on [Q] that the code performs into propositions. *)
Ltac qbool :=
  repeat match goal with
  | H : Qle_bool _ _ = true |- _ => apply Qle_bool_iff in H
  | H : Qle_bool _ _ = false |- _ =>
      let H' := fresh H in
      assert (H' := H); clear H;
      rewrite <- Bool.not_true_iff_false, Qle_bool_iff in H'; apply Qnot_le_lt in H'
  | H : Qeq_bool _ _ = true |- _ => apply Qeq_bool_iff in H
  | H : Qeq_bool _ _ = false |- _ =>
      let H' := fresh H in
      assert (H' := H); clear H;
      rewrite <- Bool.not_true_iff_false, Qeq_bool_iff in H'
  end.

(** Case analysis on the first [if] of the goal, keeping the test. *)
Ltac destr_if :=
  match goal with
  | |- context [if ?b then _ else _] => let E := fresh "E" in destruct b eqn:E
  end.

Ltac case_qle a b :=
  let E := fresh "E" in destruct (Qle_bool a b) eqn:E; qbool.

(** Turn the boolean tests on [Z] into propositions for [lia]. *)
Ltac zbool :=
  repeat match goal with
  | H : Z.leb _ _ = true |- _ => apply Z.leb_le in H
  | H : Z.leb _ _ = false |- _ => apply Z.leb_gt in H
  | H : Z.ltb _ _ = true |- _ => apply Z.ltb_lt in H
  | H : Z.ltb _ _ = false |- _ => apply Z.ltb_ge in H
  | H : Z.eqb _ _ = true |- _ => apply Z.eqb_eq in H
  | H : Z.eqb _ _ = false |- _ => apply Z.eqb_neq in H
  | H : (_ && _)%bool = true |- _ => apply andb_true_iff in H; destruct H
  | H : (_ || _)%bool = false |- _ => apply orb_false_iff in H; destruct H
  | |- (_ && _)%bool = true => apply andb_true_iff; split
  | |- Z.leb _ _ = true => apply Z.leb_le
  | |- Z.ltb _ _ = true => apply Z.ltb_lt
  | |- Z.eqb _ _ = true => apply Z.eqb_eq
  | |- Z.leb _ _ = false => apply Z.leb_gt
  | |- Z.ltb _ _ = false => apply Z.ltb_ge
  | |- Z.eqb _ _ = false => apply Z.eqb_neq
  end.

(** [lia] after naming the quotients and remainders of [/] and [mod]. *)
Ltac zlia := Z.to_euclidean_division_equations; lia.

(** Case analysis on every comparison of [Z]s in the goal, closing the
    impossible branches. *)
Ltac zcases :=
  repeat match goal with
  | |- context [Z.ltb ?a ?b] => destruct (Z.ltb_spec a b); try zlia
  | |- context [Z.leb ?a ?b] => destruct (Z.leb_spec a b); try zlia
  | |- context [Z.eqb ?a ?b] => destruct (Z.eqb_spec a b); try zlia
  end.

(** ** Generic lemmas *)

Section Int32.
  Open Scope Z_scope.

Lemma wrap32_range z : in_int32 (wrap32 z).
  Proof.
    unfold in_int32, wrap32, INT_MIN, INT_MAX.
    pose proof (Z.mod_pos_bound (z + 2 ^ 31) (2 ^ 32) ltac:(lia)). lia.
  Qed.

Lemma wrap32_id z : in_int32 z -> wrap32 z = z.
  Proof.
    unfold in_int32, wrap32, INT_MIN, INT_MAX. intros H.
    rewrite Z.mod_small by lia. lia.
  Qed.

(** Above [INT_MAX] the wrapped value has lost at least one [2^32]. *)
Lemma wrap32_above z : INT_MAX < z -> wrap32 z <= z - 2 ^ 32.
  Proof.
    unfold wrap32, INT_MAX. intros H.
    pose proof (Z.div_mod (z + 2 ^ 31) (2 ^ 32) ltac:(lia)).
    pose proof (Z.mod_pos_bound (z + 2 ^ 31) (2 ^ 32) ltac:(lia)).
    destruct (Z.le_gt_cases ((z + 2 ^ 31) / 2 ^ 32) 0); lia.
  Qed.

Lemma in_int32b_spec z : in_int32b z = true <-> in_int32 z.
  Proof. unfold in_int32b, in_int32. rewrite andb_true_iff, !Z.leb_le. tauto. Qed.

Lemma qBound_range lo v hi : lo <= hi -> lo <= qBound lo v hi <= hi.
  Proof. unfold qBound. lia. Qed.

Lemma qBound_id lo v hi : lo <= v <= hi -> qBound lo v hi = v.
  Proof. unfold qBound. lia. Qed.
End Int32.

#[export] Hint Resolve wrap32_range qBound_range : julius.

Section Rationals.
  Open Scope Q_scope.

  (** A ratio of a non-negative quantity to a larger positive one lies in
      [0,1]; both relative energies of the marker builder are of this form. *)
Lemma Qratio_unit (a b : Q) : 0 <= a -> a <= b -> 0 < b -> 0 <= a / b <= 1.
  Proof.
    intros Ha Hab Hb. split.
    - apply Qle_shift_div_l; [exact Hb | lra].
    - apply Qle_shift_div_r; [exact Hb | lra].
  Qed.

Lemma Qdiv_self (a : Q) : ~ a == 0 -> a / a == 1.
  Proof. intros H. field. exact H. Qed.

Lemma winmax_ge_l a b : a <= winmax a b.
  Proof. unfold winmax. case_qle a b; lra. Qed.

Lemma winmax_ge_r a b : b <= winmax a b.
  Proof. unfold winmax. case_qle a b; lra. Qed.

Lemma winmax_cases a b : winmax a b = a \/ winmax a b = b.
  Proof. unfold winmax. destruct (Qle_bool a b); auto. Qed.

Lemma Qround_half_away_nonneg q : 0 <= q -> Qround_half_away q = Qfloor (q + (1 # 2)).
  Proof. intros H. unfold Qround_half_away. apply Qle_bool_iff in H. now rewrite H. Qed.
End Rationals.

#[export] Hint Resolve winmax_ge_l winmax_ge_r : julius.

Section ListLemmas.
  Context {A B : Type}.

Lemma find_first_Some (p : A -> bool) l x :
    find_first p l = Some x -> In x l /\ p x = true.
  Proof.
    induction l as [|y l IH]; simpl; [discriminate|].
    destruct (p y) eqn:E; [intros H; inv H; auto|].
    intros H. destruct (IH H). auto.
  Qed.

Lemma find_first_None (p : A -> bool) l :
    find_first p l = None -> forall x, In x l -> p x = false.
  Proof.
    induction l as [|y l IH]; simpl; [tauto|].
    destruct (p y) eqn:E; [discriminate|].
    intros H x [<-|Hx]; auto.
  Qed.

Lemma find_first_app (p : A -> bool) l1 x l2 :
    forallb (fun y => negb (p y)) l1 = true -> p x = true ->
    find_first p (l1 ++ x :: l2) = Some x.
  Proof.
    induction l1 as [|y l1 IH]; simpl; [intros _ ->; reflexivity|].
    intros H Hx. apply andb_true_iff in H as [Hy H]. apply negb_true_iff in Hy.
    rewrite Hy. auto.
  Qed.

Lemma In_filter_map (f : A -> option B) l y :
    In y (filter_map f l) <-> exists x, In x l /\ f x = Some y.
  Proof.
    induction l as [|x l IH]; simpl; [firstorder|].
    destruct (f x) eqn:E; simpl; rewrite IH; split.
    - intros [<-|[x' [H1 H2]]]; eauto.
    - intros [x' [[<-|H1] H2]]; [left; congruence | eauto].
    - intros [x' [H1 H2]]; eauto.
    - intros [x' [[<-|H1] H2]]; [congruence | eauto].
  Qed.

Lemma filter_map_app (f : A -> option B) l1 l2 :
    filter_map f (l1 ++ l2) = filter_map f l1 ++ filter_map f l2.
  Proof.
    induction l1 as [|x l1 IH]; simpl; auto.
    destruct (f x); simpl; now rewrite IH.
  Qed.
End ListLemmas.

#[export] Hint Rewrite @filter_map_app : julius.

Section QLists.
  Local Open Scope Q_scope.

Lemma fold_left_Qplus (l : list Q) (a : Q) : fold_left Qplus l a == a + Qsum l.
  Proof.
    revert a. induction l as [|x l IH]; intros a; simpl; [ring|].
    rewrite IH. ring.
  Qed.

Lemma Qsum_nonneg (l : list Q) : Forall (Qle 0) l -> 0 <= Qsum l.
  Proof. induction 1; simpl; lra. Qed.

Lemma Qsum_ge_In (l : list Q) x : Forall (Qle 0) l -> In x l -> x <= Qsum l.
  Proof.
    induction 1 as [|y l Hy Hl IH]; simpl; [tauto|].
    pose proof (Qsum_nonneg l Hl). intros [<-|Hx]; [lra|]. specialize (IH Hx). lra.
  Qed.

Lemma Qsum_map_div (l : list Q) (s : Q) : ~ s == 0 ->
    Qsum (map (fun x => x / s) l) == Qsum l / s.
  Proof.
    intros Hs. induction l as [|x l IH]; simpl; [field; exact Hs|].
    rewrite IH. field. exact Hs.
  Qed.

  (** The running maximum of the marker builder. *)
Lemma fold_winmax_ge (l : list Q) (a : Q) :
    a <= fold_left winmax l a /\ Forall (fun x => x <= fold_left winmax l a) l.
  Proof.
    revert a. induction l as [|x l IH]; intros a; simpl; [split; [lra|constructor]|].
    destruct (IH (winmax a x)) as [H1 H2].
    pose proof (winmax_ge_l a x). pose proof (winmax_ge_r a x).
    split; [lra|]. constructor; [lra|exact H2].
  Qed.

Lemma fold_winmax_cases (l : list Q) (a : Q) :
    fold_left winmax l a = a \/ In (fold_left winmax l a) l.
  Proof.
    revert a. induction l as [|x l IH]; intros a; simpl; [auto|].
    destruct (IH (winmax a x)) as [->|H]; [|auto].
    destruct (winmax_cases a x) as [->| ->]; auto.
  Qed.
End QLists.
