(* ===== verification/QtString.v ===== *)
(** * QString operations on ASCII strings

    The [QString] and [QChar] operations that the code calls:
    - [QChar::isSpace], and the regular-expression classes [\s] and [\d];
    - [trimmed], [startsWith], [split] (with and without
      [Qt::SkipEmptyParts]), [section(sep, 0, 0)], [toUpper] and [left(1)];
    - [toInt] and [toDouble] in the C locale.
    The file also has the number formatting of [QTextStream]: decimal
    [int]s, and doubles in fixed notation with six decimals.  Its lemmas
    show that parsing a printed number gives the number back (rounded to
    six decimals for doubles).  Strings are Stdlib [string]s of ASCII
    characters. *)

From Stdlib Require Import ZArith NArith QArith Qabs Qround List String Ascii Bool Lia.
From S2P Require Import Prelude.
Import ListNotations.
Local Open Scope Z_scope.
Local Open Scope string_scope.
Local Open Scope julius_scope.

Module QtString.

(** ** Character classes *)

(** [QChar::isSpace] on the Latin-1 range: tab, line feed, vertical tab,
    form feed, carriage return, space, NEL (0x85) and NBSP (0xA0). *)
Definition qIsSpace (c : ascii) : bool :=
  let n := nat_of_ascii c in
  ((9 <=? n) && (n <=? 13))%nat || (n =? 32)%nat || (n =? 133)%nat || (n =? 160)%nat.

(** [\s] of a [QRegularExpression] without Unicode properties: the ASCII
    white space only. *)
Definition reSpace (c : ascii) : bool :=
  let n := nat_of_ascii c in ((9 <=? n) && (n <=? 13))%nat || (n =? 32)%nat.

(** [\d] without Unicode properties. *)
Definition isDigit (c : ascii) : bool :=
  let n := nat_of_ascii c in ((48 <=? n) && (n <=? 57))%nat.

Definition isUpperAscii (c : ascii) : bool :=
  let n := nat_of_ascii c in ((65 <=? n) && (n <=? 90))%nat.

Definition isLowerAscii (c : ascii) : bool :=
  let n := nat_of_ascii c in ((97 <=? n) && (n <=? 122))%nat.

(** ** Operations *)

Fixpoint dropWhile (p : ascii -> bool) (l : list ascii) : list ascii :=
  match l with
  | [] => []
  | c :: l' => if p c then dropWhile p l' else l
  end.

(** The longest prefix of characters satisfying [p], and the rest (a
    greedy character-class quantifier). *)
Fixpoint span (p : ascii -> bool) (s : string) : string * string :=
  match s with
  | EmptyString => (EmptyString, EmptyString)
  | String c s' =>
      if p c then let (a, b) := span p s' in (String c a, b) else (EmptyString, s)
  end.

(** [QString::trimmed]: white space removed at both ends. *)
Definition trimmed (s : string) : string :=
  string_of_list_ascii
    (rev (dropWhile qIsSpace (rev (dropWhile qIsSpace (list_ascii_of_string s))))).

(** [QString::startsWith]. *)
Definition startsWith (s p : string) : bool := String.prefix p s.

(** [QString::split] on every character satisfying [p] (a one-character
    separator or a character-class regular expression), keeping empty
    parts: the result has one more element than [s] has separators. *)
Fixpoint split (p : ascii -> bool) (s : string) : list string :=
  match s with
  | EmptyString => [EmptyString]
  | String c s' =>
      if p c then EmptyString :: split p s'
      else match split p s' with
           | h :: t => String c h :: t
           | [] => [String c EmptyString]
           end
  end.

(** [Qt::SkipEmptyParts]. *)
Definition skipEmpty (l : list string) : list string :=
  filter (fun x => negb (String.eqb x EmptyString)) l.

(** [QString::section(sep, 0, 0)]: the text before the first [sep]. *)
Fixpoint section0 (sep : ascii) (s : string) : string :=
  match s with
  | EmptyString => EmptyString
  | String c s' => if Ascii.eqb c sep then EmptyString else String c (section0 sep s')
  end.

Definition toUpperChar (c : ascii) : ascii :=
  if isLowerAscii c then ascii_of_nat (nat_of_ascii c - 32) else c.

(** [QString::toUpper] (ASCII letters). *)
Fixpoint toUpper (s : string) : string :=
  match s with
  | EmptyString => EmptyString
  | String c s' => String (toUpperChar c) (toUpper s')
  end.

(** [QString::left(1)]. *)
Definition left1 (s : string) : string := String.substring 0 1 s.

Definition digitOf (c : ascii) : N := N.of_nat (nat_of_ascii c - 48).

Definition digitChar (d : N) : ascii := ascii_of_nat (48 + N.to_nat d).

(** Decimal digits read from the left into an accumulator. *)
Fixpoint digitsAcc (s : string) (acc : N) : option N :=
  match s with
  | EmptyString => Some acc
  | String c s' => if isDigit c then digitsAcc s' (acc * 10 + digitOf c)%N else None
  end.

(** The value of a non-empty string of decimal digits. *)
Definition digitsValue (s : string) : option N :=
  match s with
  | EmptyString => None
  | _ => digitsAcc s 0
  end.

(** [QString::toInt(&ok)] in the C locale, base 10: optional white space
    around an optional sign and at least one digit; a value outside the
    range of [int] is a failure.  [None] is [ok == false]. *)
Definition signedDigits (t : string) : option Z :=
  match t with
  | String c r =>
      if Ascii.eqb c "-" then option_map (fun n => - Z.of_N n) (digitsValue r)
      else if Ascii.eqb c "+" then option_map Z.of_N (digitsValue r)
      else option_map Z.of_N (digitsValue t)
  | EmptyString => None
  end.

Definition toIntOpt (s : string) : option Z :=
  match signedDigits (trimmed s) with
  | Some z => if in_int32b z then Some z else None
  | None => None
  end.

(** [QString::toInt()]: 0 when the conversion fails. *)
Definition toInt (s : string) : Z :=
  match toIntOpt s with Some z => z | None => 0 end.

(** [QString::toDouble(&ok)] in the C locale: optional white space around
    an optional sign, digits with an optional decimal point (at least one
    digit in all), and an optional exponent [e]/[E] with an optional sign.
    The value is exact; the textual forms [inf] and [nan] are not
    modelled. *)
Definition exponentOf (r : string) : option Z :=
  match r with
  | EmptyString => Some 0
  | String c r' => if Ascii.eqb c "e" || Ascii.eqb c "E" then signedDigits r' else None
  end.

Definition decimalQ (neg : bool) (m : N) (nfrac : nat) (e : Z) : Q :=
  Qmake ((if neg then -1 else 1) * Z.of_N m * 10 ^ Z.max e 0)
        (Z.to_pos (10 ^ (Z.of_nat nfrac + Z.max (- e) 0))).

Definition unsignedDouble (neg : bool) (t : string) : option Q :=
  let (ip, r1) := span isDigit t in
  let (fp, r2) :=
    match r1 with
    | String c r => if Ascii.eqb c "." then span isDigit r else (EmptyString, r1)
    | EmptyString => (EmptyString, EmptyString)
    end in
  m <- digitsValue (ip ++ fp) ;;
  e <- exponentOf r2 ;;
  Some (decimalQ neg m (String.length fp) e).

Definition toDoubleOpt (s : string) : option Q :=
  match trimmed s with
  | String c r =>
      if Ascii.eqb c "-" then unsignedDouble true r
      else if Ascii.eqb c "+" then unsignedDouble false r
      else unsignedDouble false (String c r)
  | EmptyString => None
  end.

(** [QString::toDouble()]: 0 when the conversion fails. *)
Definition toDouble (s : string) : Q :=
  match toDoubleOpt s with Some q => q | None => 0%Q end.

(** ** Number formatting ([QTextStream << int], [QString::number(d,'f',6)]) *)

(** Decimal digits of a natural number, most significant first, with fuel
    (one step per digit; [natDigits] gives one more step than [n] has bits). *)
Fixpoint natDigitsF (fuel : nat) (n : N) : string :=
  match fuel with
  | Datatypes.O => EmptyString
  | S f =>
      if (n <? 10)%N then String (digitChar n) EmptyString
      else natDigitsF f (n / 10)%N ++ String (digitChar (n mod 10)%N) EmptyString
  end.

Definition natDigits (n : N) : string := natDigitsF (S (N.to_nat (N.size n))) n.

(** [QTextStream::operator<<(int)]. *)
Definition intToString (z : Z) : string :=
  if (z <? 0)%Z then String "-" (natDigits (Z.abs_N z)) else natDigits (Z.to_N z).

Fixpoint zeros (k : nat) : string :=
  match k with Datatypes.O => EmptyString | S k' => String "0" (zeros k') end.

(** Left-padding with zeros to [k] characters. *)
Definition padZeros (k : nat) (s : string) : string := zeros (k - String.length s) ++ s.

(** The value kept by six-decimal fixed formatting: [|q| * 10^6] rounded
    half away from zero, with the sign of [q]. *)
Definition scaled6 (q : Q) : N := Z.to_N (Qround_half_away (Qabs q * 1000000)).

Definition round6 (q : Q) : Q :=
  Qmake ((if Qle_bool 0 q then 1 else -1) * Z.of_N (scaled6 q)) 1000000.

(** [QString::number(q, 'f', 6)] (the sign is kept on values that round
    to zero, as [printf] does). *)
Definition fixed6 (q : Q) : string :=
  let n := scaled6 q in
  (if Qle_bool 0 q then EmptyString else "-") ++
  natDigits (n / 1000000)%N ++ "." ++ padZeros 6 (natDigits (n mod 1000000)%N).

(** [QString::number(q, 'f', k)] for [k] decimals, rounding as [fixed6]. *)
Definition fixedK (k : nat) (q : Q) : string :=
  let p := (10 ^ N.of_nat k)%N in
  let n := Z.to_N (Qround_half_away (Qabs q * inject_Z (Z.of_N p))) in
  (if Qle_bool 0 q then EmptyString else "-") ++
  natDigits (n / p)%N ++ "." ++ padZeros k (natDigits (n mod p)%N).

Definition isComma (c : ascii) : bool := Ascii.eqb c ",".

(** [QStringList::join(", ")]. *)
Fixpoint joinComma (l : list string) : string :=
  match l with
  | [] => EmptyString
  | [x] => x
  | x :: r => x ++ ", " ++ joinComma r
  end.

(** No character of [s] satisfies [p]. *)
Definition sepFree (p : ascii -> bool) (s : string) : bool :=
  forallb (fun c => negb (p c)) (list_ascii_of_string s).

(** ** Lemmas *)

Lemma split_nonempty p s : split p s <> [].
Proof.
  destruct s as [|c s']; simpl; [discriminate|].
  destruct (p c); [discriminate|]. destruct (split p s'); discriminate.
Qed.

Lemma split_sepFree p s : sepFree p s = true -> split p s = [s].
Proof.
  induction s as [|c s IH]; simpl; auto.
  intros H. apply andb_true_iff in H as [Hc Hs]. apply negb_true_iff in Hc.
  rewrite Hc, IH by exact Hs. reflexivity.
Qed.

Lemma split_app_sep p x c y : sepFree p x = true -> p c = true ->
  split p (x ++ String c y) = x :: split p y.
Proof.
  intros Hx Hc. induction x as [|d x IH]; simpl in *; [now rewrite Hc|].
  apply andb_true_iff in Hx as [Hd Hx]. apply negb_true_iff in Hd.
  rewrite Hd, IH by exact Hx. reflexivity.
Qed.

Lemma section0_no_sep sep s : (forall c, In c (list_ascii_of_string s) -> c <> sep) ->
  section0 sep s = s.
Proof.
  induction s as [|c s IH]; simpl; intros H; auto.
  destruct (Ascii.eqb_spec c sep) as [E|E]; [exfalso; eapply H; eauto|].
  rewrite IH; auto.
Qed.

Lemma toUpperChar_idem c : toUpperChar (toUpperChar c) = toUpperChar c.
Proof. destruct c as [[] [] [] [] [] [] [] []]; reflexivity. Qed.

Lemma toUpper_idem s : toUpper (toUpper s) = toUpper s.
Proof. induction s as [|c s IH]; simpl; [auto|]. now rewrite toUpperChar_idem, IH. Qed.

Lemma toIntOpt_range s z : toIntOpt s = Some z -> in_int32 z.
Proof.
  unfold toIntOpt. destruct (signedDigits (trimmed s)) as [v|]; [|discriminate].
  destruct (in_int32b v) eqn:E; [|discriminate].
  intros H; inv H. now apply in_int32b_spec.
Qed.

Lemma toInt_range s : in_int32 (toInt s).
Proof.
  unfold toInt. destruct (toIntOpt s) eqn:E.
  - eapply toIntOpt_range; eauto.
  - unfold in_int32, INT_MIN, INT_MAX. lia.
Qed.

(** *** Digits *)

Definition allDigits (s : string) : bool := forallb isDigit (list_ascii_of_string s).

Lemma str_length_app a b : String.length (a ++ b) = (String.length a + String.length b)%nat.
Proof. induction a; simpl; auto. Qed.

Lemma list_ascii_app a b : list_ascii_of_string (a ++ b) = (list_ascii_of_string a ++ list_ascii_of_string b)%list.
Proof. induction a; simpl; f_equal; auto. Qed.

Lemma digitsAcc_app a b acc :
  digitsAcc (a ++ b) acc = match digitsAcc a acc with Some v => digitsAcc b v | None => None end.
Proof.
  revert acc. induction a as [|c a IH]; intros acc; simpl; auto.
  destruct (isDigit c); auto.
Qed.

Lemma digitChar_spec d : (d < 10)%N -> isDigit (digitChar d) = true /\ digitOf (digitChar d) = d.
Proof.
  intros Hd. unfold isDigit, digitOf, digitChar.
  rewrite nat_ascii_embedding by lia. split; [apply andb_true_iff; split; apply Nat.leb_le|]; lia.
Qed.

Lemma natDigitsF_S f n : natDigitsF (S f) n =
  if (n <? 10)%N then String (digitChar n) EmptyString
  else natDigitsF f (n / 10)%N ++ String (digitChar (n mod 10)%N) EmptyString.
Proof. reflexivity. Qed.

Lemma digitsAcc_natDigitsF f n acc : (n < 10 ^ N.of_nat f)%N ->
  digitsAcc (natDigitsF (S f) n) acc
  = Some (acc * 10 ^ N.of_nat (String.length (natDigitsF (S f) n)) + n)%N
  /\ allDigits (natDigitsF (S f) n) = true
  /\ natDigitsF (S f) n <> EmptyString.
Proof.
  assert (Small : forall n, (n < 10)%N ->
    digitsAcc (String (digitChar n) EmptyString) acc = Some (acc * 10 ^ N.of_nat 1 + n)%N
    /\ allDigits (String (digitChar n) EmptyString) = true
    /\ String (digitChar n) EmptyString <> EmptyString).
  { intros m Hm. destruct (digitChar_spec m Hm) as [D1 D2].
    unfold allDigits. cbn [digitsAcc list_ascii_of_string forallb]. rewrite D1, D2.
    split; [|split; [reflexivity|discriminate]]. f_equal; cbn; lia. }
  revert n acc Small. induction f as [|f IH]; intros n acc Small Hn; rewrite natDigitsF_S.
  - assert (n < 10)%N as H10 by (simpl in Hn; lia).
    apply N.ltb_lt in H10 as H'. rewrite H'. now apply Small.
  - destruct (N.ltb_spec n 10) as [H10|H10]; [now apply Small|].
    assert (n / 10 < 10 ^ N.of_nat f)%N as Hq.
    { apply N.Div0.div_lt_upper_bound. rewrite Nat2N.inj_succ, N.pow_succ_r' in Hn. lia. }
    destruct (IH (n / 10)%N acc Small Hq) as (E & A & NE).
    destruct (digitChar_spec (n mod 10)) as [D1 D2]; [apply N.mod_lt; discriminate|].
    rewrite digitsAcc_app, E. cbn [digitsAcc]. rewrite D1, D2.
    rewrite str_length_app. cbn [String.length].
    split; [|split].
    + f_equal. rewrite Nat.add_1_r, Nat2N.inj_succ, N.pow_succ_r'.
      pose proof (N.div_mod n 10 ltac:(discriminate)). nia.
    + unfold allDigits in *. rewrite list_ascii_app, forallb_app, A.
      cbn [list_ascii_of_string forallb]. now rewrite D1.
    + destruct (natDigitsF (S f) (n / 10)); [congruence|discriminate].
Qed.

Lemma size_le_pow10 n : (n < 10 ^ N.of_nat (N.to_nat (N.size n)))%N.
Proof.
  rewrite N2Nat.id. pose proof (N.size_gt n).
  assert (2 ^ N.size n <= 10 ^ N.size n)%N by (apply N.pow_le_mono_l; lia). lia.
Qed.

Lemma natDigits_spec n acc :
  digitsAcc (natDigits n) acc = Some (acc * 10 ^ N.of_nat (String.length (natDigits n)) + n)%N
  /\ allDigits (natDigits n) = true /\ natDigits n <> EmptyString.
Proof. apply digitsAcc_natDigitsF, size_le_pow10. Qed.

Lemma digitsValue_natDigits n : digitsValue (natDigits n) = Some n.
Proof.
  destruct (natDigits_spec n 0) as (E & _ & NE). unfold digitsValue.
  destruct (natDigits n); [congruence|]. rewrite E. f_equal; lia.
Qed.

Lemma natDigitsF_length f n k : (n < 10 ^ N.of_nat k)%N -> (1 <= k)%nat ->
  (String.length (natDigitsF (S f) n) <= k)%nat.
Proof.
  revert n k. induction f as [|f IH]; intros n k Hn Hk; rewrite natDigitsF_S.
  - destruct (n <? 10)%N; simpl; lia.
  - destruct (N.ltb_spec n 10) as [H10|H10]; [simpl; lia|].
    rewrite str_length_app. cbn [String.length].
    destruct k as [|k]; [lia|]. destruct k as [|k]; [simpl in Hn; lia|].
    enough (String.length (natDigitsF (S f) (n / 10)) <= S k)%nat by lia.
    apply IH; [|lia]. apply N.Div0.div_lt_upper_bound.
    rewrite Nat2N.inj_succ, N.pow_succ_r' in Hn. lia.
Qed.

Lemma natDigits_head n : exists c r, natDigits n = String c r /\ isDigit c = true.
Proof.
  destruct (natDigits_spec n 0) as (_ & A & NE). unfold allDigits in A.
  destruct (natDigits n) as [|c r]; [congruence|]. simpl in A.
  apply andb_true_iff in A. exists c, r. tauto.
Qed.

(** Leading zeros change nothing; a six-digit field reads as its value. *)
Lemma digitsAcc_zeros k acc : digitsAcc (zeros k) acc = Some (acc * 10 ^ N.of_nat k)%N.
Proof.
  revert acc. induction k as [|k IH]; intros acc; simpl zeros; cbn [digitsAcc].
  - f_equal. simpl. lia.
  - change (isDigit "0") with true. change (digitOf "0") with 0%N. rewrite IH. f_equal.
    rewrite Nat2N.inj_succ, N.pow_succ_r'. lia.
Qed.

Lemma padZeros6_spec f acc : (f < 1000000)%N ->
  let P := padZeros 6 (natDigits f) in
  digitsAcc P acc = Some (acc * 1000000 + f)%N /\ allDigits P = true /\ String.length P = 6%nat.
Proof.
  intros Hf P. destruct (natDigits_spec f (acc * 10 ^ N.of_nat (6 - String.length (natDigits f))))
    as (E & A & _).
  assert (L : (String.length (natDigits f) <= 6)%nat) by (apply natDigitsF_length; [exact Hf|lia]).
  unfold P, padZeros. rewrite digitsAcc_app, digitsAcc_zeros, E, str_length_app.
  split; [|split].
  - f_equal. rewrite <- N.mul_assoc, <- N.pow_add_r, <- Nat2N.inj_add, Nat.sub_add by exact L. reflexivity.
  - unfold allDigits in *. rewrite list_ascii_app, forallb_app, A, andb_true_r.
    generalize (6 - String.length (natDigits f))%nat. induction n; simpl; auto.
  - assert (forall k, String.length (zeros k) = k) as Z by (induction k; simpl; auto). rewrite Z. lia.
Qed.

(** *** White space and spans *)

Lemma dropWhile_id p l : forallb (fun c => negb (p c)) l = true -> dropWhile p l = l.
Proof.
  destruct l as [|c l]; simpl; auto. intros H. apply andb_true_iff in H as [H _].
  apply negb_true_iff in H. now rewrite H.
Qed.

Lemma trimmed_id s : sepFree qIsSpace s = true -> trimmed s = s.
Proof.
  unfold sepFree, trimmed. intros H. rewrite (dropWhile_id _ _ H), dropWhile_id.
  - now rewrite rev_involutive, string_of_list_ascii_of_string.
  - apply forallb_forall. intros c Hc. apply in_rev in Hc. now apply (proj1 (forallb_forall _ _) H).
Qed.

Lemma digit_not_space c : isDigit c = true -> negb (qIsSpace c) = true.
Proof. destruct c as [[] [] [] [] [] [] [] []]; cbv; congruence. Qed.

Lemma allDigits_sepFree s : allDigits s = true -> sepFree qIsSpace s = true.
Proof.
  unfold allDigits, sepFree. rewrite !forallb_forall. intros H c Hc. now apply digit_not_space, H.
Qed.

Lemma sepFree_app p a b : sepFree p (a ++ b) = sepFree p a && sepFree p b.
Proof. unfold sepFree. now rewrite list_ascii_app, forallb_app. Qed.

(** The span of digits stops at the first non-digit. *)
Lemma span_digits a c r : allDigits a = true -> isDigit c = false ->
  span isDigit (a ++ String c r) = (a, String c r).
Proof.
  intros A Hc. induction a as [|d a IH]; simpl in *; [now rewrite Hc|].
  apply andb_true_iff in A as [Ad A]. now rewrite Ad, IH.
Qed.

Lemma span_all_digits a : allDigits a = true -> span isDigit a = (a, EmptyString).
Proof.
  induction a as [|d a IH]; simpl; auto. intros A. apply andb_true_iff in A as [Ad A].
  now rewrite Ad, IH.
Qed.

(** *** Round trips of the number formats *)

(** The characters of a formatted number. *)
Definition numChar (c : ascii) : bool := isDigit c || Ascii.eqb c "-" || Ascii.eqb c ".".

Definition numText (s : string) : bool := forallb numChar (list_ascii_of_string s).

Lemma numText_app a b : numText (a ++ b) = numText a && numText b.
Proof. unfold numText. now rewrite list_ascii_app, forallb_app. Qed.

Lemma allDigits_numText s : allDigits s = true -> numText s = true.
Proof.
  unfold allDigits, numText. rewrite !forallb_forall. intros H c Hc.
  unfold numChar. now rewrite H.
Qed.

Lemma numText_sepFree (p : ascii -> bool) s :
  (forall c, numChar c = true -> p c = false) -> numText s = true -> sepFree p s = true.
Proof.
  unfold numText, sepFree. rewrite !forallb_forall. intros Hp H c Hc.
  now rewrite Hp by auto.
Qed.

Lemma numChar_not_space c : numChar c = true -> qIsSpace c = false.
Proof. destruct c as [[] [] [] [] [] [] [] []]; cbv; congruence. Qed.

Lemma natDigits_numText n : numText (natDigits n) = true.
Proof. apply allDigits_numText, (natDigits_spec n 0). Qed.

Lemma intToString_numText z : numText (intToString z) = true.
Proof.
  unfold intToString. destruct (z <? 0)%Z; [|apply natDigits_numText].
  change (String "-" (natDigits (Z.abs_N z))) with ("-" ++ natDigits (Z.abs_N z)).
  now rewrite numText_app, natDigits_numText.
Qed.

Lemma fixed6_numText q : numText (fixed6 q) = true.
Proof.
  unfold fixed6. rewrite !numText_app, !natDigits_numText.
  rewrite (allDigits_numText _ (proj1 (proj2 (padZeros6_spec _ 0 (N.mod_lt _ 1000000 ltac:(discriminate)))))).
  destruct (Qle_bool 0 q); reflexivity.
Qed.

Lemma toIntOpt_intToString z : in_int32 z -> toIntOpt (intToString z) = Some z.
Proof.
  intros Hz. unfold toIntOpt.
  rewrite trimmed_id by (apply numText_sepFree; [apply numChar_not_space|apply intToString_numText]).
  assert (signedDigits (intToString z) = Some z) as ->.
  - unfold intToString. destruct (Z.ltb_spec z 0).
    + simpl signedDigits. rewrite digitsValue_natDigits. simpl. f_equal. lia.
    + destruct (natDigits_head (Z.to_N z)) as (c & r & E & D). rewrite E.
      unfold signedDigits. rewrite <- E, digitsValue_natDigits.
      destruct (Ascii.eqb_spec c "-"), (Ascii.eqb_spec c "+"); subst; try discriminate.
      simpl. f_equal. lia.
  - apply in_int32b_spec in Hz. now rewrite Hz.
Qed.

Lemma toDoubleOpt_fixed6 q : toDoubleOpt (fixed6 q) = Some (round6 q).
Proof.
  set (n := scaled6 q).
  destruct (natDigits_head (n / 1000000)%N) as (c & r & EI & DI).
  destruct (natDigits_spec (n / 1000000)%N 0) as (_ & AI & _).
  destruct (padZeros6_spec (n mod 1000000)%N (n / 1000000)%N) as (EP & AP & LP);
    [apply N.mod_lt; discriminate|].
  assert (U : forall neg, unsignedDouble neg (natDigits (n / 1000000)%N ++ "." ++
                 padZeros 6 (natDigits (n mod 1000000)%N))
              = Some (decimalQ neg n 6 0)).
  { intros neg. unfold unsignedDouble. cbn [append]. rewrite span_digits by auto.
    change (Ascii.eqb "." ".") with true. cbv iota beta.
    rewrite span_all_digits by exact AP.
    assert (digitsValue (natDigits (n / 1000000)%N ++ padZeros 6 (natDigits (n mod 1000000)%N))
            = digitsAcc (natDigits (n / 1000000)%N ++ padZeros 6 (natDigits (n mod 1000000)%N)) 0%N)
      as -> by (rewrite EI; reflexivity).
    rewrite digitsAcc_app. destruct (natDigits_spec (n / 1000000)%N 0) as (E0 & _).
    rewrite E0, N.mul_0_l, N.add_0_l, EP, LP. simpl exponentOf. cbv beta iota.
    f_equal. f_equal. pose proof (N.div_mod n 1000000 ltac:(discriminate)). lia. }
  unfold toDoubleOpt. rewrite trimmed_id
    by (apply numText_sepFree; [apply numChar_not_space|apply fixed6_numText]).
  unfold fixed6. fold n. destruct (Qle_bool 0 q) eqn:Hs; cbn [append].
  - rewrite EI. cbn [append].
    assert (Ascii.eqb c "-" = false /\ Ascii.eqb c "+" = false) as [-> ->]
      by (destruct (Ascii.eqb_spec c "-"), (Ascii.eqb_spec c "+"); subst; easy).
    change (String c (r ++ String "." (padZeros 6 (natDigits (n mod 1000000)%N))))
      with (String c r ++ "." ++ padZeros 6 (natDigits (n mod 1000000)%N)).
    rewrite <- EI, U. unfold decimalQ, round6. rewrite Hs. fold n.
    f_equal. f_equal; simpl; lia.
  - change (Ascii.eqb "-" "-") with true. cbv iota. rewrite U.
    unfold decimalQ, round6. rewrite Hs. fold n. f_equal. f_equal; simpl; lia.
Qed.

(** *** Joined fields *)

Lemma string_app_assoc a b c : (a ++ b) ++ c = a ++ b ++ c.
Proof. induction a; simpl; f_equal; auto. Qed.

Lemma trimmed_lead_space s : trimmed (String " " s) = trimmed s.
Proof. reflexivity. Qed.

Lemma toIntOpt_lead_space s : toIntOpt (String " " s) = toIntOpt s.
Proof. unfold toIntOpt. now rewrite trimmed_lead_space. Qed.

Lemma toDoubleOpt_lead_space s : toDoubleOpt (String " " s) = toDoubleOpt s.
Proof. unfold toDoubleOpt. now rewrite trimmed_lead_space. Qed.

(** A string that starts and ends with characters of a number is its own
    [trimmed]. *)
Lemma trimmed_numText_ends a m b :
  numText a = true -> a <> EmptyString -> numText b = true -> b <> EmptyString ->
  trimmed (a ++ m ++ b) = a ++ m ++ b.
Proof.
  intros Na Ea Nb Eb. unfold trimmed. rewrite !list_ascii_app.
  destruct a as [|c a]; [congruence|]. unfold numText in Na. simpl in Na |- *.
  apply andb_true_iff in Na as [Nc _]. rewrite numChar_not_space by exact Nc.
  destruct (exists_last (l := list_ascii_of_string b)) as (lb & d & Hb).
  { destruct b; simpl; congruence. }
  assert (numChar d = true) as Nd.
  { unfold numText in Nb. rewrite Hb, forallb_app in Nb. simpl in Nb.
    apply andb_true_iff in Nb as [_ Nb]. now rewrite andb_true_r in Nb. }
  set (L := (list_ascii_of_string a ++ list_ascii_of_string m ++ list_ascii_of_string b)%list).
  assert (EL : (c :: L = (c :: list_ascii_of_string a ++ list_ascii_of_string m ++ lb) ++ [d])%list)
    by (unfold L; rewrite Hb; simpl; now rewrite !app_assoc).
  rewrite EL, rev_unit. cbn [dropWhile]. rewrite numChar_not_space by exact Nd.
  rewrite <- rev_unit.
  rewrite <- EL, rev_involutive. unfold L.
  change (String c (string_of_list_ascii (list_ascii_of_string a ++ list_ascii_of_string m
            ++ list_ascii_of_string b)) = String c (a ++ m ++ b)).
  now rewrite <- !list_ascii_app, string_of_list_ascii_of_string.
Qed.

Lemma joinComma_ends x y r : exists m, joinComma (x :: y :: r) = x ++ m ++ last (y :: r) EmptyString.
Proof.
  revert x y. induction r as [|z r IH]; intros x y.
  - exists ", ". reflexivity.
  - destruct (IH y z) as [m E]. exists (", " ++ y ++ m).
    change (joinComma (x :: y :: z :: r)) with (x ++ ", " ++ joinComma (y :: z :: r)).
    rewrite E, !string_app_assoc. reflexivity.
Qed.

(** Splitting a join at the commas gives back the fields, each but the
    first with the blank that followed its comma. *)
Lemma split_joinComma pre x r :
  sepFree isComma pre = true -> Forall (fun y => sepFree isComma y = true) (x :: r) ->
  split isComma (pre ++ joinComma (x :: r)) = (pre ++ x) :: map (String " ") r.
Proof.
  revert pre x. induction r as [|y r IH]; intros pre x Hp Hr; inversion Hr as [|? ? Hx Hr']; subst.
  - apply split_sepFree. now rewrite sepFree_app, Hp, Hx.
  - change (joinComma (x :: y :: r)) with (x ++ String "," (String " " (joinComma (y :: r)))).
    rewrite <- string_app_assoc, split_app_sep by (rewrite ?sepFree_app, ?Hp, ?Hx; reflexivity).
    f_equal. apply (IH " "); [reflexivity|exact Hr'].
Qed.

Lemma numText_no_comma s : numText s = true -> sepFree isComma s = true.
Proof.
  apply numText_sepFree. intros c. destruct c as [[] [] [] [] [] [] [] []]; cbv; congruence.
Qed.

Lemma skipEmpty_id l : Forall (fun x => x <> EmptyString) l -> skipEmpty l = l.
Proof.
  induction 1 as [|x l Hx _ IH]; simpl; auto.
  destruct (String.eqb_spec x EmptyString); [congruence|]. simpl. now rewrite IH.
Qed.

Lemma joinComma_sepFree p l : sepFree p ", " = true ->
  Forall (fun x => sepFree p x = true) l -> sepFree p (joinComma l) = true.
Proof.
  intros Hs. induction 1 as [|x l Hx Hl IH]; [reflexivity|].
  destruct l as [|y l]; [exact Hx|].
  change (joinComma (x :: y :: l)) with (x ++ ", " ++ joinComma (y :: l)).
  now rewrite !sepFree_app, Hx, Hs, IH.
Qed.

Lemma Qfloor_half_int z : Qfloor (inject_Z z + (1 # 2)) = z.
Proof.
  assert (E : inject_Z z + (1 # 2) == (z * 2 + 1) # 2) by (unfold Qeq; simpl; lia).
  rewrite E. unfold Qfloor. rewrite Z.div_add_l by discriminate. replace (1 / 2)%Z with 0%Z by reflexivity. lia.
Qed.

(** Six-decimal rounding is idempotent: a value read back from the file
    formats to the same digits. *)
Lemma scaled6_round6 q : scaled6 (round6 q) = scaled6 q.
Proof.
  assert (E : Qabs (round6 q) * 1000000 == inject_Z (Z.of_N (scaled6 q))).
  { unfold round6. generalize (scaled6 q) as n. intros n.
    destruct (Qle_bool 0 q); unfold Qeq, Qabs, Qmult, inject_Z; cbn [Qnum Qden]; lia. }
  unfold scaled6 at 1. rewrite Qround_half_away_nonneg.
  - rewrite E, Qfloor_half_int. apply N2Z.id.
  - rewrite E. unfold Qle; simpl; lia.
Qed.

Lemma round6_idem q : round6 (round6 q) = round6 q.
Proof.
  unfold round6 at 1. rewrite scaled6_round6. unfold round6. f_equal.
  destruct (Qle_bool 0 q) eqn:Hq; destruct (Qle_bool 0 (_ # _)) eqn:E; try reflexivity.
  - exfalso. assert (0 <= (1 * Z.of_N (scaled6 q)) # 1000000)%Q as H by (unfold Qle; cbn [Qnum Qden]; lia).
    apply Qle_bool_iff in H. congruence.
  - apply Qle_bool_iff in E. unfold Qle in E. cbn [Qnum Qden] in E. lia.
Qed.

Lemma toInt_intToString z : in_int32 z -> toInt (intToString z) = z.
Proof. intros H. unfold toInt. now rewrite toIntOpt_intToString. Qed.

Lemma toDouble_fixed6 q : toDouble (fixed6 q) = round6 q.
Proof. unfold toDouble. now rewrite toDoubleOpt_fixed6. Qed.

Lemma intToString_nonempty z : intToString z <> EmptyString.
Proof.
  unfold intToString. destruct (z <? 0)%Z; [discriminate|]. apply natDigits_spec; exact 0%N.
Qed.

Lemma fixed6_nonempty q : fixed6 q <> EmptyString.
Proof.
  unfold fixed6. destruct (natDigits_head (scaled6 q / 1000000)%N) as (c & r & -> & _).
  destruct (Qle_bool 0 q); discriminate.
Qed.

End QtString.

#[export] Hint Resolve QtString.toInt_range QtString.split_nonempty : julius.
