(* ===== verification/LogDecode.v ===== *)
(** * Decoding Julius's output bytes

    The byte level of the analysis window's log handling
    (Private/JuliusAnalyzeWindow.cpp): [decodeCp932] (lines 36-46),
    [decodeJuliusLog] (lines 49-58), the [readyReadStandardOutput] lambda
    of [onRunJulius] (lines 408-426) and the first line of
    [parseForcedAlignment] (line 494).

    A [QByteArray] is a list of [Init.Byte.byte]s, read as unsigned values
    by [byteVal] (the [byte.unsigned] of coqutil).  A [QString] is its
    sequence of UTF-16 code units, as [Z]s.  [QString::fromUtf8] is
    written out as Qt decodes: a leading byte order mark is skipped, and
    an invalid or truncated sequence gives one replacement character for
    its lead byte, decoding then resuming at the next byte.  The Windows
    calls ([MultiByteToWideChar] with code page 932, and the system code
    page behind [fromLocal8Bit] and [toLocal8Bit]) are the class
    [CodePages]; the laws [CodePagesLaws] state what the theorems use of
    them: the ASCII range maps to itself.  [singleByteCodePages] is an
    executable instance, with the single-byte part of code page 932. *)

From Stdlib Require Import ZArith List String Ascii Strings.Byte Bool Lia.
From S2P Require Import Prelude QtString.
Import ListNotations.
Local Open Scope Z_scope.

Module LogDecode.

Definition QByteArray := list byte.

(** The unsigned value of a byte. *)
Definition byteVal (b : byte) : Z := Z.of_N (Byte.to_N b).

(** The byte of a value in [0, 255]. *)
Definition byteOfZ (z : Z) : byte :=
  match Byte.of_N (Z.to_N z) with Some b => b | None => x00 end.

(** A [QString] as its UTF-16 code units. *)
Definition QStr := list Z.

Definition ReplacementCharacter : Z := 65533.

(** ** [QString::fromUtf8] *)

(** [isContinuationByte]: [(b & 0xc0) == 0x80]. *)
Definition isCont (b : byte) : bool := Z.land (byteVal b) 192 =? 128.

(** The six payload bits of a continuation byte. *)
Definition payload (b : byte) : Z := Z.land (byteVal b) 63.

(** The length of the sequence a lead byte announces; 0 for a byte that
    cannot start one (a continuation byte, the overlong leads 0xC0 and
    0xC1, and 0xF5 to 0xFF). *)
Definition seqLen (v : Z) : nat :=
  if v <? 128 then 1 else if v <? 194 then 0 else if v <? 224 then 2
  else if v <? 240 then 3 else if v <? 245 then 4 else 0.

Definition isSurrogate (c : Z) : bool := (55296 <=? c) && (c <=? 57343).

(** The UTF-16 code units of a scalar value: a surrogate pair above the
    Basic Multilingual Plane. *)
Definition utf16 (c : Z) : QStr :=
  if c <? 65536 then [c]
  else [55296 + Z.shiftr (c - 65536) 10; 56320 + Z.land (c - 65536) 1023].

Definition dec2 (b0 b1 : byte) : option Z :=
  if isCont b1 then Some (Z.lor (Z.shiftl (Z.land (byteVal b0) 31) 6) (payload b1))
  else None.

(** A three-byte sequence: overlong forms and surrogates are errors. *)
Definition dec3 (b0 b1 b2 : byte) : option Z :=
  if isCont b1 && isCont b2 then
    let c := Z.lor (Z.shiftl (Z.land (byteVal b0) 15) 12)
                   (Z.lor (Z.shiftl (payload b1) 6) (payload b2)) in
    if (2048 <=? c) && negb (isSurrogate c) then Some c else None
  else None.

(** A four-byte sequence: overlong forms and values above U+10FFFF are
    errors. *)
Definition dec4 (b0 b1 b2 b3 : byte) : option Z :=
  if isCont b1 && isCont b2 && isCont b3 then
    let c := Z.lor (Z.shiftl (Z.land (byteVal b0) 7) 18)
               (Z.lor (Z.shiftl (payload b1) 12)
                  (Z.lor (Z.shiftl (payload b2) 6) (payload b3))) in
    if (65536 <=? c) && (c <=? 1114111) then Some c else None
  else None.

(** The decoding loop of [QUtf8::convertToUnicode]: on an error the lead
    byte gives [ReplacementCharacter] and decoding resumes at the byte
    after it, so a truncated sequence at the end gives one replacement
    character per byte. *)
Fixpoint utf8Body (bs : QByteArray) : QStr :=
  match bs with
  | [] => []
  | b0 :: rest =>
      match seqLen (byteVal b0), rest with
      | 1%nat, _ => byteVal b0 :: utf8Body rest
      | 2%nat, b1 :: rest1 =>
          match dec2 b0 b1 with
          | Some c => c :: utf8Body rest1
          | None => ReplacementCharacter :: utf8Body rest
          end
      | 3%nat, b1 :: b2 :: rest2 =>
          match dec3 b0 b1 b2 with
          | Some c => c :: utf8Body rest2
          | None => ReplacementCharacter :: utf8Body rest
          end
      | 4%nat, b1 :: b2 :: b3 :: rest3 =>
          match dec4 b0 b1 b2 b3 with
          | Some c => utf16 c ++ utf8Body rest3
          | None => ReplacementCharacter :: utf8Body rest
          end
      | _, _ => ReplacementCharacter :: utf8Body rest
      end
  end.

(** A leading UTF-8 byte order mark (EF BB BF) is skipped. *)
Definition stripBom (bs : QByteArray) : QByteArray :=
  match bs with
  | b0 :: b1 :: b2 :: r =>
      if (byteVal b0 =? 239) && (byteVal b1 =? 187) && (byteVal b2 =? 191) then r else bs
  | _ => bs
  end.

Definition fromUtf8 (bs : QByteArray) : QStr := utf8Body (stripBom bs).

(** ** [QString] operations on code units *)

(** [QChar::isSpace]: tab to carriage return, space, NEL, NBSP and the
    Unicode separators (categories Zs, Zl and Zp). *)
Definition isSpaceU (u : Z) : bool :=
  ((9 <=? u) && (u <=? 13)) || (u =? 32) || (u =? 133) || (u =? 160) || (u =? 5760)
  || ((8192 <=? u) && (u <=? 8202)) || (u =? 8232) || (u =? 8233) || (u =? 8239)
  || (u =? 8287) || (u =? 12288).

Fixpoint dropSpacesU (s : QStr) : QStr :=
  match s with
  | [] => []
  | u :: s' => if isSpaceU u then dropSpacesU s' else s
  end.

(** [QString::trimmed]. *)
Definition trimmedU (s : QStr) : QStr := rev (dropSpacesU (rev (dropSpacesU s))).

(** [QString::contains(QChar)]. *)
Definition containsU (s : QStr) (u : Z) : bool := existsb (Z.eqb u) s.

(** [QString::split(u'\n')], keeping empty parts. *)
Fixpoint splitU (sep : Z) (s : QStr) : list QStr :=
  match s with
  | [] => [[]]
  | u :: s' =>
      if u =? sep then [] :: splitU sep s'
      else match splitU sep s' with
           | h :: t => (u :: h) :: t
           | [] => [[u]]
           end
  end.

(** [Qt::SkipEmptyParts]. *)
Definition skipEmptyU (l : list QStr) : list QStr :=
  filter (fun x => negb (Nat.eqb (List.length x) 0)) l.

(** ** The Windows code pages *)

Class CodePages := {
  (** [MultiByteToWideChar(932, MB_ERR_INVALID_CHARS, ...)]: the UTF-16
      units, or [None] where the call fails and returns 0. *)
  mbToWide932 : QByteArray -> option QStr;
  (** [QString::fromLocal8Bit]: the system code page. *)
  fromLocal8Bit : QByteArray -> QStr;
  (** [QString::toLocal8Bit]. *)
  toLocal8Bit : QStr -> QByteArray
}.

Definition asciiBytes (bs : QByteArray) : bool := forallb (fun b => byteVal b <? 128) bs.

Class CodePagesLaws `{CodePages} := {
  mbToWide932_ascii : forall bs, asciiBytes bs = true -> mbToWide932 bs = Some (map byteVal bs);
  fromLocal8Bit_ascii : forall bs, asciiBytes bs = true -> fromLocal8Bit bs = map byteVal bs;
  toLocal8Bit_ascii : forall bs, asciiBytes bs = true -> toLocal8Bit (map byteVal bs) = bs
}.

Section Decoding.
Context {CP : CodePages}.

(** [decodeCp932]. *)
Definition decodeCp932 (raw : QByteArray) : QStr :=
  match raw with
  | [] => []
  | _ =>
      match mbToWide932 raw with
      | Some w => if (List.length w <=? 0)%nat then fromLocal8Bit raw else w
      | None => fromLocal8Bit raw
      end
  end.

(** [decodeJuliusLog]: UTF-8 first; CP932 when the result holds a
    replacement character or is blank. *)
Definition decodeJuliusLog (raw : QByteArray) : QStr :=
  let text := fromUtf8 raw in
  if containsU text ReplacementCharacter || Nat.eqb (List.length (trimmedU text)) 0
  then decodeCp932 raw else text.

(** The [readyReadStandardOutput] lambda: the status-bar message (none
    when the decoded text is empty) and the lines handed to
    [parseForcedAlignment], split from [fromLocal8Bit(raw)]. *)
Definition readyReadStdout (raw : QByteArray) : option QStr * list QStr :=
  let rawText := fromLocal8Bit raw in
  let disp := decodeJuliusLog raw in
  (if Nat.eqb (List.length disp) 0 then None else Some disp,
   skipEmptyU (splitU 10 rawText)).

(** The line [parseForcedAlignment] matches:
    [decodeJuliusLog(rawLine.toLocal8Bit()).trimmed()]. *)
Definition parserLine (rawLine : QStr) : QStr := trimmedU (decodeJuliusLog (toLocal8Bit rawLine)).

End Decoding.

(** ** An executable instance *)

(** Code page 932 on its single-byte part: ASCII and the half-width
    katakana 0xA1-0xDF (U+FF61-U+FF9F); a double-byte character makes the
    call fail.  The system code page maps other bytes to the replacement
    character, and [toLocal8Bit] writes ['?'] for what it cannot encode. *)
#[export] Instance singleByteCodePages : CodePages := {
  mbToWide932 bs :=
    if forallb (fun b => (byteVal b <? 128) || ((161 <=? byteVal b) && (byteVal b <=? 223))) bs
    then Some (map (fun b => if byteVal b <? 128 then byteVal b else byteVal b + 65216) bs)
    else None;
  fromLocal8Bit bs := map (fun b => if byteVal b <? 128 then byteVal b else ReplacementCharacter) bs;
  toLocal8Bit s := map (fun u => if (0 <=? u) && (u <? 128) then byteOfZ u else x3f) s
}.

#[export] Instance singleByteCodePagesLaws : @CodePagesLaws singleByteCodePages.
Proof.
  assert (forall bs, asciiBytes bs = true -> forall b, In b bs -> 0 <= byteVal b < 128) as Ha.
  { intros bs H b Hb. unfold asciiBytes in H. rewrite forallb_forall in H. specialize (H b Hb).
    apply Z.ltb_lt in H. unfold byteVal in *. lia. }
  constructor; cbn [mbToWide932 fromLocal8Bit toLocal8Bit singleByteCodePages]; intros bs H.
  - match goal with |- context [forallb ?f bs] => replace (forallb f bs) with true end.
    + f_equal. apply map_ext_in. intros b Hb. specialize (Ha bs H b Hb). zcases; reflexivity.
    + symmetry. apply forallb_forall. intros b Hb. specialize (Ha bs H b Hb). zcases; reflexivity.
  - apply map_ext_in. intros b Hb. specialize (Ha bs H b Hb). zcases; reflexivity.
  - rewrite map_map, <- (map_id bs) at 1. rewrite map_id. rewrite <- (map_id bs) at 2.
    apply map_ext_in. intros b Hb. specialize (Ha bs H b Hb). zcases; cbn.
    unfold byteOfZ, byteVal. now rewrite N2Z.id, Byte.of_to_N.
Qed.

(** ** The ASCII view of the parser's model *)

(** The code units of a string of the parser's model, one per character. *)
Definition strUnits (s : string) : QStr :=
  map (fun c => byteVal (byte_of_ascii c)) (list_ascii_of_string s).

(** The bytes of a chunk as the parser's model reads them. *)
Definition bytesString (bs : QByteArray) : string :=
  string_of_list_ascii (map ascii_of_byte bs).

(** ** UTF-8 encoding, the inverse the round trip is stated with *)

Definition utf8Encode1 (c : Z) : QByteArray :=
  if c <? 128 then [byteOfZ c]
  else if c <? 2048 then [byteOfZ (192 + c / 64); byteOfZ (128 + c mod 64)]
  else if c <? 65536 then
    [byteOfZ (224 + c / 4096); byteOfZ (128 + (c / 64) mod 64); byteOfZ (128 + c mod 64)]
  else [byteOfZ (240 + c / 262144); byteOfZ (128 + (c / 4096) mod 64);
        byteOfZ (128 + (c / 64) mod 64); byteOfZ (128 + c mod 64)].

Definition utf8Encode (cs : list Z) : QByteArray := flat_map utf8Encode1 cs.

(** A Unicode scalar value. *)
Definition scalar (c : Z) : bool := (0 <=? c) && (c <=? 1114111) && negb (isSurrogate c).

(** ** Bytes and bits *)

Lemma byteVal_range b : 0 <= byteVal b <= 255.
Proof. unfold byteVal. pose proof (Byte.to_N_bounded b). lia. Qed.

Lemma byteVal_byteOfZ z : 0 <= z <= 255 -> byteVal (byteOfZ z) = z.
Proof.
  intros Hz. unfold byteOfZ, byteVal. destruct (Byte.of_N (Z.to_N z)) as [b|] eqn:E.
  - apply Byte.to_of_N in E. rewrite E. lia.
  - apply Byte.of_N_None_iff in E. lia.
Qed.

Lemma byteVal_inj b1 b2 : byteVal b1 = byteVal b2 -> b1 = b2.
Proof.
  unfold byteVal. intros E. apply N2Z.inj in E.
  pose proof (Byte.of_to_N b1) as E1. rewrite E, Byte.of_to_N in E1. congruence.
Qed.

Lemma isCont_spec b : isCont b = (128 <=? byteVal b) && (byteVal b <? 192).
Proof. destruct b; reflexivity. Qed.

Lemma payload_mod b : payload b = byteVal b mod 64.
Proof. unfold payload. change 63 with (Z.ones 6). now rewrite Z.land_ones. Qed.

(** [Z.lor] of a value shifted past the bits of another is their sum. *)
Lemma lor_shiftl_add a b n : 0 <= n -> 0 <= b < 2 ^ n -> Z.lor (Z.shiftl a n) b = a * 2 ^ n + b.
Proof.
  intros Hn Hb. rewrite Z.shiftl_mul_pow2 by exact Hn.
  assert (Z.land (a * 2 ^ n) b = 0) as H0.
  { apply Z.bits_inj'. intros i Hi. rewrite Z.land_spec, Z.bits_0.
    destruct (Z.lt_ge_cases i n).
    - rewrite <- Z.shiftl_mul_pow2, Z.shiftl_spec_low by lia. reflexivity.
    - rewrite <- (Z.mod_small b (2 ^ n)) by lia. rewrite Z.mod_pow2_bits_high by lia.
      apply andb_false_r. }
  now rewrite <- Z.lxor_lor, <- Z.add_nocarry_lxor.
Qed.

(** The continuation byte [10xxxxxx] the encoder writes. *)
Lemma cont_enc x : 0 <= x -> isCont (byteOfZ (128 + x mod 64)) = true /\ payload (byteOfZ (128 + x mod 64)) = x mod 64.
Proof.
  intros Hx. rewrite isCont_spec, payload_mod, byteVal_byteOfZ by zlia. split; [zbool|]; zlia.
Qed.

Lemma lead_enc base n q :
  0 <= n -> 0 <= q < 2 ^ n -> base mod 2 ^ n = 0 -> 0 <= base -> base + 2 ^ n <= 256 ->
  Z.land (byteVal (byteOfZ (base + q))) (Z.ones n) = q.
Proof.
  intros Hn Hq Hb Hb0 Hm. rewrite byteVal_byteOfZ by lia. rewrite Z.land_ones by exact Hn.
  rewrite <- Z.add_mod_idemp_l, Hb, Z.add_0_l by lia. apply Z.mod_small. exact Hq.
Qed.

(** ** Decoding what the encoder writes *)

Lemma dec2_enc c : 128 <= c < 2048 -> dec2 (byteOfZ (192 + c / 64)) (byteOfZ (128 + c mod 64)) = Some c.
Proof.
  intros Hc. unfold dec2. destruct (cont_enc c) as [-> ->]; [lia|].
  change 31 with (Z.ones 5). rewrite lead_enc by zlia.
  rewrite lor_shiftl_add by zlia. f_equal. zlia.
Qed.

Lemma dec3_enc c : 2048 <= c < 65536 -> isSurrogate c = false ->
  dec3 (byteOfZ (224 + c / 4096)) (byteOfZ (128 + (c / 64) mod 64)) (byteOfZ (128 + c mod 64)) = Some c.
Proof.
  intros Hc Hs. unfold dec3. destruct (cont_enc (c / 64)) as [-> ->]; [zlia|].
  destruct (cont_enc c) as [-> ->]; [lia|]. cbn [andb].
  change 15 with (Z.ones 4). rewrite lead_enc by zlia.
  rewrite (lor_shiftl_add ((c / 64) mod 64)), lor_shiftl_add by zlia.
  replace (c / 4096 * 2 ^ 12 + ((c / 64) mod 64 * 2 ^ 6 + c mod 64)) with c by zlia.
  rewrite Hs. zcases; reflexivity.
Qed.

Lemma dec4_enc c : 65536 <= c <= 1114111 ->
  dec4 (byteOfZ (240 + c / 262144)) (byteOfZ (128 + (c / 4096) mod 64))
       (byteOfZ (128 + (c / 64) mod 64)) (byteOfZ (128 + c mod 64)) = Some c.
Proof.
  intros Hc. unfold dec4. destruct (cont_enc (c / 4096)) as [-> ->]; [zlia|].
  destruct (cont_enc (c / 64)) as [-> ->]; [zlia|].
  destruct (cont_enc c) as [-> ->]; [lia|]. cbn [andb].
  change 7 with (Z.ones 3). rewrite lead_enc by zlia.
  rewrite (lor_shiftl_add ((c / 64) mod 64)), (lor_shiftl_add ((c / 4096) mod 64)), lor_shiftl_add
    by zlia.
  replace (c / 262144 * 2 ^ 18 + ((c / 4096) mod 64 * 2 ^ 12 + ((c / 64) mod 64 * 2 ^ 6 + c mod 64)))
    with c by zlia.
  zcases; reflexivity.
Qed.

Lemma seqLen_lead v n : (n = 1%nat /\ 0 <= v < 128) \/ (n = 2%nat /\ 194 <= v < 224) \/
  (n = 3%nat /\ 224 <= v < 240) \/ (n = 4%nat /\ 240 <= v < 245) -> seqLen v = n.
Proof. unfold seqLen. intros [[-> ?]|[[-> ?]|[[-> ?]|[-> ?]]]]; zcases; reflexivity. Qed.

(** One scalar value: its encoding decodes to its UTF-16 units, whatever
    follows. *)
Lemma utf8Body_encode1 c rest :
  scalar c = true -> utf8Body (utf8Encode1 c ++ rest) = utf16 c ++ utf8Body rest.
Proof.
  unfold scalar. intros H. zbool. apply negb_true_iff in H0.
  unfold utf8Encode1. cbn [app].
  destruct (Z.ltb_spec c 128).
  - cbn [app utf8Body]. rewrite byteVal_byteOfZ, (seqLen_lead c 1) by lia. unfold utf16. zcases; reflexivity.
  - destruct (Z.ltb_spec c 2048).
    + cbn [app utf8Body]. rewrite (seqLen_lead _ 2) by (rewrite byteVal_byteOfZ; zlia).
      rewrite dec2_enc by lia. unfold utf16. zcases; reflexivity.
    + destruct (Z.ltb_spec c 65536).
      * cbn [app utf8Body]. rewrite (seqLen_lead _ 3) by (rewrite byteVal_byteOfZ; zlia).
        rewrite dec3_enc by (assumption || lia). unfold utf16. zcases; reflexivity.
      * cbn [app utf8Body]. rewrite (seqLen_lead _ 4) by (rewrite byteVal_byteOfZ; zlia).
        rewrite dec4_enc by lia. reflexivity.
Qed.

Lemma utf8Body_encode cs rest :
  forallb scalar cs = true -> utf8Body (utf8Encode cs ++ rest) = flat_map utf16 cs ++ utf8Body rest.
Proof.
  induction cs as [|c cs IH]; intros H; [reflexivity|].
  apply andb_true_iff in H as [Hc Hcs]. cbn [utf8Encode flat_map].
  rewrite <- app_assoc, utf8Body_encode1 by exact Hc. fold (utf8Encode cs).
  rewrite IH by exact Hcs. apply app_assoc.
Qed.

(** ** The byte order mark *)

Lemma stripBom_first b0 r : byteVal b0 <> 239 -> stripBom (b0 :: r) = b0 :: r.
Proof.
  intros H. destruct r as [|b1 [|b2 r]]; try reflexivity.
  cbn [stripBom]. apply Z.eqb_neq in H. now rewrite H.
Qed.

(** Encoded text keeps its first character unless that is U+FEFF. *)
Lemma stripBom_encode c cs t :
  scalar c = true -> c <> 65279 -> stripBom (utf8Encode (c :: cs) ++ t) = utf8Encode (c :: cs) ++ t.
Proof.
  unfold scalar. intros H Hb. zbool. cbn [utf8Encode flat_map]. rewrite <- app_assoc.
  unfold utf8Encode1. zcases; cbn [app]; try (apply stripBom_first; rewrite byteVal_byteOfZ; zlia).
  cbn [stripBom]. rewrite !byteVal_byteOfZ by zlia.
  destruct ((224 + c / 4096 =? 239) && (128 + (c / 64) mod 64 =? 187) && (128 + c mod 64 =? 191))
    eqn:E; [zbool; exfalso; zlia|reflexivity].
Qed.

(** The UTF-8 round trip: [fromUtf8] decodes the encoding of scalar
    values to their UTF-16 units, unless the text starts with U+FEFF. *)
Lemma fromUtf8_encode cs :
  forallb scalar cs = true -> hd 0 cs <> 65279 -> fromUtf8 (utf8Encode cs) = flat_map utf16 cs.
Proof.
  intros H Hb. unfold fromUtf8. destruct cs as [|c cs]; [reflexivity|].
  pose proof H as H'. apply andb_true_iff in H' as [Hc _].
  rewrite <- (app_nil_r (utf8Encode (c :: cs))), stripBom_encode by assumption.
  rewrite utf8Body_encode by exact H. apply app_nil_r.
Qed.

(** ** ASCII bytes *)

Lemma utf8Body_ascii bs : asciiBytes bs = true -> utf8Body bs = map byteVal bs.
Proof.
  induction bs as [|b bs IH]; intros H; [reflexivity|].
  apply andb_true_iff in H as [Hb Hbs]. zbool. pose proof (byteVal_range b).
  cbn [utf8Body map]. rewrite (seqLen_lead _ 1) by lia. now rewrite IH.
Qed.

Lemma fromUtf8_ascii bs : asciiBytes bs = true -> fromUtf8 bs = map byteVal bs.
Proof.
  intros H. unfold fromUtf8. destruct bs as [|b bs]; [reflexivity|].
  rewrite stripBom_first; [now apply utf8Body_ascii|].
  apply andb_true_iff in H as [Hb _]. zbool. lia.
Qed.

Lemma containsU_In s u : containsU s u = true <-> In u s.
Proof.
  unfold containsU. rewrite existsb_exists. split.
  - intros (x & Hx & E). apply Z.eqb_eq in E. now subst.
  - intros Hu. exists u. split; [exact Hu|apply Z.eqb_refl].
Qed.

Lemma asciiBytes_In bs u : asciiBytes bs = true -> In u (map byteVal bs) -> 0 <= u < 128.
Proof.
  unfold asciiBytes. rewrite forallb_forall, in_map_iff. intros H (b & <- & Hb).
  specialize (H b Hb). zbool. pose proof (byteVal_range b). lia.
Qed.

(** ** Blank text *)

Lemma dropSpacesU_nil s : dropSpacesU s = [] <-> forallb isSpaceU s = true.
Proof.
  induction s as [|u s IH]; cbn; [tauto|].
  destruct (isSpaceU u); cbn; [exact IH|split; discriminate].
Qed.

Lemma dropSpacesU_head s u r : dropSpacesU s = u :: r -> isSpaceU u = false.
Proof.
  induction s as [|x s IH]; cbn; [discriminate|].
  destruct (isSpaceU x) eqn:E; [exact IH|congruence].
Qed.

Lemma dropSpacesU_last l u : isSpaceU u = false -> dropSpacesU (l ++ [u]) <> [].
Proof.
  intros H. induction l as [|x l IH]; cbn; [rewrite H; discriminate|].
  destruct (isSpaceU x); [exact IH|discriminate].
Qed.

(** [trimmed().isEmpty()] holds exactly of the text made of spaces. *)
Lemma trimmedU_nil s : trimmedU s = [] <-> forallb isSpaceU s = true.
Proof.
  rewrite <- dropSpacesU_nil. unfold trimmedU. split.
  - intros E. destruct (dropSpacesU s) as [|u r] eqn:D; [reflexivity|exfalso].
    apply (f_equal (@rev Z)) in E. rewrite rev_involutive in E. cbn [rev] in E.
    exact (dropSpacesU_last _ _ (dropSpacesU_head _ _ _ D) E).
  - intros ->. reflexivity.
Qed.

(** ** UTF-16 units *)

Lemma utf16_units c u : scalar c = true -> In u (utf16 c) ->
  u = c \/ (55296 <= u <= 57343 /\ 65536 <= c).
Proof.
  unfold scalar, utf16. intros H. zbool. destruct (Z.ltb_spec c 65536); [intros [->|[]]; now left|].
  rewrite Z.shiftr_div_pow2 by lia. change 1023 with (Z.ones 10). rewrite Z.land_ones by lia.
  intros [<-|[<-|[]]]; right; zlia.
Qed.

Lemma isSpaceU_surrogate u : 55296 <= u <= 57343 -> isSpaceU u = false.
Proof. intros H. unfold isSpaceU. zcases; reflexivity. Qed.

Lemma utf16_nonspace c : scalar c = true -> isSpaceU c = false ->
  existsb (fun u => negb (isSpaceU u)) (utf16 c) = true.
Proof.
  intros Hs Hc. assert (In (hd 0 (utf16 c)) (utf16 c)) as Hin
    by (unfold utf16; destruct (c <? 65536); left; reflexivity).
  assert (isSpaceU (hd 0 (utf16 c)) = false) as Hu
    by (destruct (utf16_units c _ Hs Hin) as [E|[Hu _]]; [rewrite E; exact Hc|now apply isSpaceU_surrogate]).
  revert Hu. unfold utf16. destruct (c <? 65536); cbn [hd existsb]; intros ->; reflexivity.
Qed.

(** A chunk that ends inside a multi-byte sequence: the bytes it has
    decode to a replacement character first. *)
Lemma truncated_enc c k : scalar c = true -> 128 <= c -> (0 < k < List.length (utf8Encode1 c))%nat ->
  stripBom (firstn k (utf8Encode1 c)) = firstn k (utf8Encode1 c) /\
  hd 0 (utf8Body (firstn k (utf8Encode1 c))) = ReplacementCharacter.
Proof.
  unfold scalar, utf8Encode1. intros H Hc Hk. zbool.
  zcases; cbn [List.length] in Hk; destruct k as [|[|[|[|k]]]]; try lia; cbn [firstn]; split;
    try reflexivity; try (apply stripBom_first; rewrite byteVal_byteOfZ; zlia);
    cbn [utf8Body];
    first [rewrite (seqLen_lead _ 2) by (rewrite byteVal_byteOfZ; zlia)
          |rewrite (seqLen_lead _ 3) by (rewrite byteVal_byteOfZ; zlia)
          |rewrite (seqLen_lead _ 4) by (rewrite byteVal_byteOfZ; zlia)]; reflexivity.
Qed.

(** ** The parser's model as a view of the code units *)

Definition charUnit (c : ascii) : Z := byteVal (byte_of_ascii c).

Lemma charUnit_isSpace c : isSpaceU (charUnit c) = QtString.qIsSpace c.
Proof. destruct c as [[] [] [] [] [] [] [] []]; reflexivity. Qed.

Lemma charUnit_eqb c d : (charUnit c =? charUnit d) = Ascii.eqb c d.
Proof.
  destruct (Ascii.eqb_spec c d) as [->|Hne]; [apply Z.eqb_refl|].
  apply Z.eqb_neq. intros E. apply Hne. apply byteVal_inj in E.
  rewrite <- (ascii_of_byte_of_ascii c), E. apply ascii_of_byte_of_ascii.
Qed.

Lemma strUnits_bytesString bs : strUnits (bytesString bs) = map byteVal bs.
Proof.
  unfold strUnits, bytesString. rewrite list_ascii_of_string_of_list_ascii, map_map.
  apply map_ext. intros b. now rewrite byte_of_ascii_of_byte.
Qed.

Lemma splitU_strUnits s :
  splitU 10 (strUnits s) = map strUnits (QtString.split (fun c => Ascii.eqb c "010"%char) s).
Proof.
  induction s as [|c s IH]; [reflexivity|].
  change (strUnits (String c s)) with (charUnit c :: strUnits s). cbn [splitU QtString.split].
  replace (charUnit c =? 10) with (Ascii.eqb c "010"%char) by (rewrite <- charUnit_eqb; reflexivity).
  rewrite IH. destruct (Ascii.eqb c "010"%char); [reflexivity|].
  destruct (QtString.split _ s); reflexivity.
Qed.

Lemma skipEmptyU_strUnits l : skipEmptyU (map strUnits l) = map strUnits (QtString.skipEmpty l).
Proof.
  induction l as [|s l IH]; [reflexivity|]. unfold skipEmptyU, QtString.skipEmpty in *.
  cbn [map filter]. rewrite IH. destruct s; reflexivity.
Qed.

Lemma dropSpacesU_map l :
  dropSpacesU (map charUnit l) = map charUnit (QtString.dropWhile QtString.qIsSpace l).
Proof.
  induction l as [|c l IH]; [reflexivity|]. cbn [map dropSpacesU QtString.dropWhile].
  rewrite charUnit_isSpace. now destruct (QtString.qIsSpace c).
Qed.

Lemma trimmedU_strUnits s : trimmedU (strUnits s) = strUnits (QtString.trimmed s).
Proof.
  unfold trimmedU, strUnits, QtString.trimmed. rewrite list_ascii_of_string_of_list_ascii.
  fold charUnit. rewrite dropSpacesU_map, <- map_rev, dropSpacesU_map. symmetry. apply map_rev.
Qed.

Lemma splitU_Forall (P : Z -> Prop) sep s : Forall P s -> Forall (Forall P) (splitU sep s).
Proof.
  induction s as [|u s IH]; intros H; cbn; [repeat constructor|].
  inversion H as [|? ? Hu Hs]; subst. specialize (IH Hs).
  destruct (u =? sep); [now constructor|].
  destruct (splitU sep s) as [|h t]; [repeat constructor; exact Hu|].
  inversion IH; subst. repeat constructor; assumption.
Qed.

Lemma skipEmptyU_Forall (P : QStr -> Prop) l : Forall P l -> Forall P (skipEmptyU l).
Proof.
  rewrite !List.Forall_forall. intros H x Hx. apply filter_In in Hx. now apply H.
Qed.

Section Laws.
Context {CP : CodePages} {CPL : @CodePagesLaws CP}.

Lemma decodeCp932_ascii bs : asciiBytes bs = true -> decodeCp932 bs = map byteVal bs.
Proof.
  intros H. unfold decodeCp932. destruct bs as [|b r]; [reflexivity|].
  rewrite mbToWide932_ascii by exact H. reflexivity.
Qed.

(** On ASCII bytes [decodeJuliusLog] is the identity: UTF-8 decodes them
    to themselves, and where the text is blank the CP932 path does too. *)
Lemma decodeJuliusLog_ascii bs : asciiBytes bs = true -> decodeJuliusLog bs = map byteVal bs.
Proof.
  intros H. unfold decodeJuliusLog. rewrite fromUtf8_ascii by exact H.
  destruct (containsU (map byteVal bs) ReplacementCharacter) eqn:E.
  - apply containsU_In, (asciiBytes_In _ _ H) in E. unfold ReplacementCharacter in E. lia.
  - cbn [orb]. destruct (Nat.eqb _ 0); [now apply decodeCp932_ascii|reflexivity].
Qed.

Lemma parserLine_ascii u : Forall (fun z => 0 <= z < 128) u -> parserLine u = trimmedU u.
Proof.
  intros H. assert (map byteVal (map byteOfZ u) = u) as Hu.
  { rewrite map_map. rewrite <- (map_id u) at 2. apply map_ext_in. intros z Hz.
    rewrite List.Forall_forall in H. apply byteVal_byteOfZ. specialize (H z Hz). lia. }
  assert (asciiBytes (map byteOfZ u) = true) as Ha.
  { unfold asciiBytes. apply forallb_forall. intros b Hb. apply Z.ltb_lt.
    apply (in_map byteVal) in Hb. rewrite Hu, List.Forall_forall in *. apply H in Hb. lia. }
  unfold parserLine. rewrite <- Hu at 1. rewrite toLocal8Bit_ascii, decodeJuliusLog_ascii by exact Ha.
  now rewrite Hu.
Qed.

Lemma asciiBytes_Forall bs : asciiBytes bs = true -> Forall (fun z => 0 <= z < 128) (map byteVal bs).
Proof. intros H. apply List.Forall_forall. intros u Hu. exact (asciiBytes_In _ _ H Hu). Qed.

(** C5: The stdout lambda on an ASCII chunk refines the parser's model:
    the status bar shows the chunk itself, and the lines the code's
    [parseForcedAlignment] matches, [decodeJuliusLog(line.toLocal8Bit())
    .trimmed()] for each piece of [fromLocal8Bit(raw).split(u'\n',
    Qt::SkipEmptyParts)], are the model's [trimmed] pieces of the chunk
    split on line feeds with empty pieces skipped. *)
Theorem readyReadStdout_ascii raw :
  asciiBytes raw = true ->
  fst (readyReadStdout raw) = match raw with [] => None | _ => Some (map byteVal raw) end /\
  map parserLine (snd (readyReadStdout raw)) =
  map (fun s => strUnits (QtString.trimmed s))
    (QtString.skipEmpty (QtString.split (fun c => Ascii.eqb c "010"%char) (bytesString raw))).
Proof.
  intros H. unfold readyReadStdout. cbn [fst snd]. rewrite decodeJuliusLog_ascii by exact H. split.
  - destruct raw; reflexivity.
  - rewrite fromLocal8Bit_ascii by exact H.
    assert (Forall (Forall (fun z => 0 <= z < 128)) (skipEmptyU (splitU 10 (map byteVal raw)))) as HF
      by (apply skipEmptyU_Forall, splitU_Forall, asciiBytes_Forall, H).
    transitivity (map trimmedU (skipEmptyU (splitU 10 (map byteVal raw)))).
    { apply map_ext_Forall. exact (List.Forall_impl _ parserLine_ascii HF). }
    rewrite <- strUnits_bytesString, splitU_strUnits, skipEmptyU_strUnits, map_map.
    apply map_ext. apply trimmedU_strUnits.
Qed.

(** C23: [decodeJuliusLog] keeps UTF-8 text: the encoding of scalar values
    decodes to their UTF-16 units when it holds no U+FFFD, is not blank and
    does not start with U+FEFF (which [fromUtf8] drops as a byte order
    mark). *)
Theorem decodeJuliusLog_utf8 cs :
  forallb scalar cs = true -> hd 0 cs <> 65279 -> ~ In ReplacementCharacter cs ->
  existsb (fun c => negb (isSpaceU c)) cs = true ->
  decodeJuliusLog (utf8Encode cs) = flat_map utf16 cs.
Proof.
  intros Hs Hb Hr Hn. unfold decodeJuliusLog. rewrite fromUtf8_encode by assumption.
  rewrite forallb_forall in Hs.
  replace (containsU (flat_map utf16 cs) ReplacementCharacter) with false.
  - destruct (Nat.eqb_spec (List.length (trimmedU (flat_map utf16 cs))) 0) as [E|E]; [exfalso|reflexivity].
    apply length_zero_iff_nil, trimmedU_nil in E. rewrite forallb_forall in E.
    apply existsb_exists in Hn as (c & Hc & Hsp). apply negb_true_iff in Hsp.
    apply utf16_nonspace, existsb_exists in Hsp as (u & Hu & Hu'); [|exact (Hs c Hc)].
    rewrite E in Hu'; [discriminate|]. apply in_flat_map. eauto.
  - symmetry. apply not_true_iff_false. rewrite containsU_In, in_flat_map. intros (c & Hc & Hu).
    destruct (utf16_units c _ (Hs c Hc) Hu) as [<-|[Hr' _]]; [contradiction|].
    unfold ReplacementCharacter in Hr'. lia.
Qed.

(** C24: A chunk that ends inside a multi-byte UTF-8 character (Julius's
    output is read in chunks of arbitrary size) decodes with a replacement
    character, so [decodeJuliusLog] shows the whole chunk through CP932. *)
Theorem decodeJuliusLog_split_char cs c k :
  forallb scalar cs = true -> hd 0 cs <> 65279 -> scalar c = true -> 128 <= c ->
  (0 < k < List.length (utf8Encode1 c))%nat ->
  decodeJuliusLog (utf8Encode cs ++ firstn k (utf8Encode1 c)) =
  decodeCp932 (utf8Encode cs ++ firstn k (utf8Encode1 c)).
Proof.
  intros Hs Hb Hc Hc' Hk. destruct (truncated_enc c k Hc Hc' Hk) as [Hbom Hrc].
  unfold decodeJuliusLog, fromUtf8.
  replace (stripBom _) with (utf8Encode cs ++ firstn k (utf8Encode1 c)).
  - rewrite utf8Body_encode by exact Hs.
    replace (containsU _ _) with true; [reflexivity|]. symmetry. apply containsU_In, in_or_app. right.
    destruct (utf8Body (firstn k (utf8Encode1 c))) as [|u r]; [|cbn in Hrc; subst; now left].
    discriminate Hrc.
  - destruct cs as [|c0 cs]; [exact (eq_sym Hbom)|]. symmetry. apply stripBom_encode; [|exact Hb].
    now apply andb_true_iff in Hs as [? _].
Qed.

End Laws.

End LogDecode.

Section LogDecodeWitnesses.
Import LogDecode.

Lemma readyReadStdout_ascii_witness :
  let raw := [x61; x0a; x0a; x20; x62; x20; x0a] in
  asciiBytes raw = true /\
  map (parserLine (CP := singleByteCodePages)) (snd (readyReadStdout raw)) = [[97]; [98]].
Proof.
  intros raw. assert (asciiBytes raw = true) as H by reflexivity. split; [exact H|].
  exact (proj2 (readyReadStdout_ascii (CP := singleByteCodePages) raw H)).
Defined.

Lemma decodeJuliusLog_utf8_witness :
  decodeJuliusLog (CP := singleByteCodePages) (utf8Encode [12354; 12356; 128512])
  = [12354; 12356; 55357; 56832].
Proof.
  assert (~ In ReplacementCharacter [12354; 12356; 128512]) as Hr
    by (unfold ReplacementCharacter; cbn; lia).
  exact (decodeJuliusLog_utf8 (CP := singleByteCodePages) [12354; 12356; 128512]
           eq_refl ltac:(cbn; lia) Hr eq_refl).
Defined.

Lemma decodeJuliusLog_split_char_witness :
  decodeJuliusLog (CP := singleByteCodePages) (utf8Encode [65] ++ firstn 2 (utf8Encode1 12354))
  = [65; 65533; 65533].
Proof.
  exact (decodeJuliusLog_split_char (CP := singleByteCodePages) [65] 12354 2
           eq_refl ltac:(cbn; lia) eq_refl ltac:(lia) ltac:(cbn; lia)).
Defined.

End LogDecodeWitnesses.

