(* ===== verification/Cmath.v ===== *)
(** * The interface to <cmath>

    The marker builder calls [std::sqrt] and [std::log10] on doubles.  The
    class [CMath] is what the builder needs from them and [CMathLaws] the
    properties its theorems use: a square root is non-negative, is 0 at 0
    and respects the equality of rationals; the logarithm respects it too.
    The theorems of [Markers.v] hold for every lawful instance.
    [fixedCMath] is an executable instance (square root rounded down to
    10^-6, integer part of the decimal logarithm of the reduced fraction)
    with which the witnesses evaluate the builder. *)

From Stdlib Require Import ZArith QArith Qround Qreduction Morphisms Lqa Lia.
From S2P Require Import Prelude.
Local Open Scope Q_scope.

Class CMath := {
  c_sqrt : Q -> Q;
  c_log10 : Q -> Q
}.

Class CMathLaws (M : CMath) := {
  c_sqrt_nonneg : forall q, 0 <= c_sqrt q;
  c_sqrt_zero : c_sqrt 0 == 0;
  c_sqrt_proper : Proper (Qeq ==> Qeq) c_sqrt;
  c_log10_proper : Proper (Qeq ==> Qeq) c_log10
}.

#[export] Existing Instance c_sqrt_proper.
#[export] Existing Instance c_log10_proper.

Module FixedCMath.

  (** Square root with six decimals, rounded down. *)
Definition fx_sqrt (q : Q) : Q :=
    Z.sqrt (Qfloor (q * inject_Z (10 ^ 12))) # 1000000.

  (** Number of decimal digits minus one, for a positive integer; the
      fuel [log2 z + 1] exceeds the number of divisions by ten. *)
Fixpoint log10_fuel (fuel : nat) (z : Z) : Z :=
    match fuel with
    | O => 0
    | S f => if (z <? 10)%Z then 0 else (1 + log10_fuel f (z / 10))%Z
    end.

Definition zlog10 (z : Z) : Z := log10_fuel (S (Z.to_nat (Z.log2 z))) z.

  (** Integer part of the decimal logarithm of [num/den], taken on the
      reduced fraction. *)
Definition fx_log10 (q : Q) : Q :=
    let r := Qred q in inject_Z (zlog10 (Qnum r) - zlog10 (Zpos (Qden r))).

#[export] Instance fixedCMath : CMath := {| c_sqrt := fx_sqrt; c_log10 := fx_log10 |}.

#[export] Instance fixedCMathLaws : CMathLaws fixedCMath.
  Proof.
    constructor; simpl.
    - intros q. unfold fx_sqrt, Qle; simpl. rewrite Z.mul_1_r. apply Z.sqrt_nonneg.
    - reflexivity.
    - intros x y Hxy. unfold fx_sqrt.
      now rewrite (Qfloor_comp (x * inject_Z (10 ^ 12)) (y * inject_Z (10 ^ 12)))
        by (now rewrite Hxy).
    - intros x y Hxy. unfold fx_log10. now rewrite (Qred_complete x y Hxy).
  Qed.

End FixedCMath.
