(* ===== verification/UnitDecoder.v ===== *)
(** * Decoding of recognizer units into pending vowels

    Models the second half of [JuliusAnalyzeWindow::parseForcedAlignment]
    (Private/JuliusAnalyzeWindow.cpp 550-583): a matched phoneme line
    gives a frame range and a unit such as ["k-a+i"]; the unit is split on
    [-] and [+], its centre phone upper-cased and tested against the vowel
    set, and the left phone turned into a romanised consonant by
    [consonantCodeToRoman] (lines 62-82).  The record [PendingVowel] is
    the struct of Public/ADXLipModel.h. *)

From Stdlib Require Import ZArith List String Ascii Bool Lia.
From S2P Require Import Prelude QtString.
Import ListNotations.
Local Open Scope Z_scope.
Local Open Scope string_scope.
Local Open Scope julius_scope.

Module UnitDecoder.
Import QtString.

(** [struct PendingVowel] (Public/ADXLipModel.h). *)
Record PendingVowel := mkPendingVowel {
  vowel : string;
  fromFrame : Z;
  toFrame : Z;
  midFrame : Z;
  consonant : string;
  cv : string
}.

(** [consonantCodeToRoman]: the explicit table, then the first character. *)
Definition consonantCodeToRoman (ph : string) : string :=
  let P := toUpper ph in
  if P =? "SH" then "SH"
  else if P =? "CH" then "CH"
  else if P =? "TS" then "TS"
  else if P =? "J" then "J"
  else if P =? "F" then "F"
  else if P =? "TH" then "TH"
  else if P =? "KY" then "KY"
  else if P =? "BY" then "B"
  else if negb (P =? "") then left1 P
  else "".

(** [static const QSet<QString> vowels = { "A","I","U","E","O","N" }]. *)
Definition vowels : list string := ["A"; "I"; "U"; "E"; "O"; "N"].

Definition isVowel (s : string) : bool := existsb (String.eqb s) vowels.

(** The separators of [reSplit], the regular expression [[-+]]. *)
Definition isUnitSep (c : ascii) : bool := Ascii.eqb c "-" || Ascii.eqb c "+".

(** The centre frame: [fromFrame + (toFrame - fromFrame) / 2] on [int]s
    when [toFrame > fromFrame] (C++ division truncates). *)
Definition midFrameOf (fromF toF : Z) : Z :=
  if (fromF <? toF)%Z then fromF +i ((toF -i fromF) ÷ 2) else fromF.

(** [parts.size() >= 2 ? parts.at(1) : parts.at(0)]. *)
Definition centerPart (parts : list string) : string :=
  match parts with
  | _ :: c :: _ => c
  | c :: _ => c
  | [] => ""
  end.

(** The phone of a part: [part.section('_', 0, 0).toUpper()]. *)
Definition phoneOf (part : string) : string := toUpper (section0 "_" part).

(** The consonant of the left part (lines 568-575). *)
Definition consonantOf (parts : list string) (ph : string) : string :=
  match parts with
  | p0 :: _ =>
      let leftPh := phoneOf p0 in
      if negb (leftPh =? ph) && negb (leftPh =? "SP") && negb (leftPh =? "SIL")
      then consonantCodeToRoman leftPh else ""
  | [] => ""
  end.

(** The decoding of one matched line: [None] is the early [return] of a
    non-vowel centre phone (line 580). *)
Definition decodeUnit (fromF toF : Z) (unit : string) : option PendingVowel :=
  let mid := midFrameOf fromF toF in
  let parts := split isUnitSep unit in
  let ph := phoneOf (centerPart parts) in
  let consRoman := consonantOf parts ph in
  if isVowel ph
  then Some (mkPendingVowel ph fromF toF mid consRoman (consRoman ++ ph))
  else None.

(** Well-formedness of a pending vowel as [decodeUnit] builds it. *)
Definition pv_wf (p : PendingVowel) : Prop :=
  isVowel (vowel p) = true /\ cv p = consonant p ++ vowel p /\
  midFrame p = midFrameOf (fromFrame p) (toFrame p).

(** ** Lemmas *)

Lemma isVowel_In s : isVowel s = true <-> In s vowels.
Proof.
  unfold isVowel. rewrite existsb_exists. split.
  - intros [x [Hx E]]. apply String.eqb_eq in E. now subst.
  - intros H. exists s. split; [exact H | apply String.eqb_refl].
Qed.

Lemma decodeUnit_Some f t u p :
  decodeUnit f t u = Some p ->
  p = mkPendingVowel (phoneOf (centerPart (split isUnitSep u))) f t (midFrameOf f t)
        (consonantOf (split isUnitSep u) (phoneOf (centerPart (split isUnitSep u))))
        (consonantOf (split isUnitSep u) (phoneOf (centerPart (split isUnitSep u)))
         ++ phoneOf (centerPart (split isUnitSep u))) /\
  isVowel (phoneOf (centerPart (split isUnitSep u))) = true.
Proof.
  unfold decodeUnit. destruct (isVowel _) eqn:E; [|discriminate].
  intros H; inv H. auto.
Qed.

Lemma decodeUnit_wf f t u p : decodeUnit f t u = Some p -> pv_wf p.
Proof.
  intros H. apply decodeUnit_Some in H as [-> Hv]. unfold pv_wf; simpl. auto.
Qed.

#[export] Hint Resolve decodeUnit_wf : julius.

(** An upper-case one-character code is its own romanisation. *)
Lemma consonantCodeToRoman_single c :
  toUpperChar c = c -> consonantCodeToRoman (String c "") = String c "".
Proof.
  intros H. destruct c as [[] [] [] [] [] [] [] []]; simpl in H |- *;
    try discriminate; reflexivity.
Qed.

Lemma decodeUnit_parts f t u :
  decodeUnit f t u =
  let parts := split isUnitSep u in
  if isVowel (phoneOf (centerPart parts))
  then Some (mkPendingVowel (phoneOf (centerPart parts)) f t (midFrameOf f t)
               (consonantOf parts (phoneOf (centerPart parts)))
               (consonantOf parts (phoneOf (centerPart parts)) ++ phoneOf (centerPart parts)))
  else None.
Proof. reflexivity. Qed.

(** ** Properties *)

(** the romanised consonant is a prefix of the upper-cased code and
    is its own romanisation: the table maps every code to a canonical
    form ("BY" to "B", the listed digraphs to themselves, any other code
    to its first letter). *)
Theorem consonantCodeToRoman_canonical ph :
  consonantCodeToRoman (consonantCodeToRoman ph) = consonantCodeToRoman ph /\
  String.prefix (consonantCodeToRoman ph) (toUpper ph) = true.
Proof.
  unfold consonantCodeToRoman at 2 3 4.
  destruct (toUpper ph) as [|c r] eqn:EP.
  - split; reflexivity.
  - assert (Hc : toUpperChar c = c).
    { pose proof (toUpper_idem ph) as Hi. rewrite EP in Hi. simpl in Hi. congruence. }
    repeat destr_if;
      repeat match goal with H : String.eqb _ _ = true |- _ => apply String.eqb_eq in H end;
      try (match goal with H : String c r = _ |- _ => rewrite H; split; reflexivity end);
      try discriminate.
    unfold left1. simpl. replace (substring 0 0 r) with "" by (destruct r; reflexivity).
    split.
    + now apply consonantCodeToRoman_single.
    + simpl. destruct (Ascii.ascii_dec c c) as [_|]; [|congruence].
      destruct r; reflexivity.
Qed.

(** C38: On [int] frame numbers that the parser can produce (non-negative),
    the centre frame is computed without overflow: it is
    [from + (to - from) / 2] when [to > from], else [from], and lies in
    [[from, max from to]]. *)
Theorem midFrameOf_exact f t :
  0 <= f <= INT_MAX -> 0 <= t <= INT_MAX ->
  midFrameOf f t = (if (f <? t)%Z then f + (t - f) / 2 else f) /\
  f <= midFrameOf f t <= Z.max f t.
Proof.
  intros Hf Ht. unfold midFrameOf, isub, iadd.
  destruct (Z.ltb_spec f t) as [Hlt|Hge]; [|lia].
  rewrite (wrap32_id (t - f)) by (unfold in_int32, INT_MIN, INT_MAX in *; lia).
  rewrite Z.quot_div_nonneg by lia.
  assert (0 <= (t - f) / 2 <= t - f) by (split; [apply Z.div_pos | apply Z.div_le_upper_bound]; lia).
  rewrite wrap32_id by (unfold in_int32, INT_MIN, INT_MAX in *; lia). lia.
Qed.

Lemma midFrameOf_exact_witness :
  (0 <= 12 <= INT_MAX /\ 0 <= 21 <= INT_MAX) /\
  midFrameOf 12 21 = (if (12 <? 21)%Z then 12 + (21 - 12) / 2 else 12) /\
  12 <= midFrameOf 12 21 <= Z.max 12 21.
Proof.
  split; [unfold INT_MAX; lia|].
  apply midFrameOf_exact; unfold INT_MAX; lia.
Defined.

(** C21: A triphone unit [l-c+r] is decoded on its centre [c]: it gives a
    pending vowel exactly when the centre phone is one of A I U E O N,
    and the consonant is the romanised left phone unless it is the vowel
    itself, a short pause or silence. *)
Theorem decodeUnit_triphone f t l c r :
  sepFree isUnitSep l = true -> sepFree isUnitSep c = true -> sepFree isUnitSep r = true ->
  decodeUnit f t (l ++ String "-" (c ++ String "+" r)) =
  if isVowel (phoneOf c)
  then Some (mkPendingVowel (phoneOf c) f t (midFrameOf f t)
               (consonantOf [l] (phoneOf c)) (consonantOf [l] (phoneOf c) ++ phoneOf c))
  else None.
Proof.
  intros Hl Hc Hr. rewrite decodeUnit_parts. cbv zeta.
  rewrite split_app_sep, split_app_sep, split_sepFree by auto. reflexivity.
Qed.

Lemma decodeUnit_triphone_witness :
  (sepFree isUnitSep "k" = true /\ sepFree isUnitSep "a" = true /\
   sepFree isUnitSep "i" = true) /\
  decodeUnit 10 20 ("k" ++ String "-" ("a" ++ String "+" "i")) =
  if isVowel (phoneOf "a")
  then Some (mkPendingVowel (phoneOf "a") 10 20 (midFrameOf 10 20)
               (consonantOf ["k"] (phoneOf "a")) (consonantOf ["k"] (phoneOf "a") ++ phoneOf "a"))
  else None.
Proof.
  split; [repeat split; reflexivity|].
  apply decodeUnit_triphone; reflexivity.
Defined.

(** a unit without [-] or [+] (a monophone) never gets a consonant:
    its label is the vowel alone. *)
Theorem decodeUnit_monophone f t u p :
  sepFree isUnitSep u = true -> decodeUnit f t u = Some p ->
  consonant p = "" /\ cv p = vowel p.
Proof.
  intros Hu. rewrite decodeUnit_parts. cbv zeta. rewrite split_sepFree by exact Hu.
  simpl. rewrite String.eqb_refl. simpl.
  destr_if; [|discriminate]. intros H; inv H. auto.
Qed.

Lemma decodeUnit_monophone_witness :
  sepFree isUnitSep "a" = true /\ decodeUnit 3 7 "a" = Some (mkPendingVowel "A" 3 7 5 "" "A") /\
  consonant (mkPendingVowel "A" 3 7 5 "" "A") = "" /\
  cv (mkPendingVowel "A" 3 7 5 "" "A") = vowel (mkPendingVowel "A" 3 7 5 "" "A").
Proof.
  split; [reflexivity|]. split; [reflexivity|].
  apply (decodeUnit_monophone 3 7 "a"); reflexivity.
Defined.

(** C22: A biphone with only a right context, [v+r] (the first phone of
    a word in Julius's triphone output), is decoded on [r], not on [v]:
    when [v] is a vowel and [r] is not, the vowel is dropped. *)
Theorem decodeUnit_drops_initial_biphone f t v r :
  sepFree isUnitSep v = true -> sepFree isUnitSep r = true ->
  isVowel (phoneOf v) = true -> isVowel (phoneOf r) = false ->
  decodeUnit f t (v ++ String "+" r) = None.
Proof.
  intros Hv Hr _ Hnr. rewrite decodeUnit_parts. cbv zeta.
  rewrite split_app_sep, split_sepFree by auto. simpl. now rewrite Hnr.
Qed.

Lemma decodeUnit_drops_initial_biphone_witness :
  (sepFree isUnitSep "a" = true /\ sepFree isUnitSep "k" = true /\
   isVowel (phoneOf "a") = true /\ isVowel (phoneOf "k") = false) /\
  decodeUnit 0 5 ("a" ++ String "+" "k") = None.
Proof.
  split; [repeat split; reflexivity|].
  apply decodeUnit_drops_initial_biphone; reflexivity.
Defined.

End UnitDecoder.
