(* ===== verification/AlignmentParser.v ===== *)
(** * The forced-alignment parser

    Models [JuliusAnalyzeWindow::parseForcedAlignment]
    (Private/JuliusAnalyzeWindow.cpp 492-584) over the members
    [inForcedBlock_], [sawPhonemeSection_], [currentAlignSection_] and
    [pendingVowels_] (Public/JuliusAnalyzeWindow.h 73-79).  One call is
    [parseForcedAlignment]: a state and a line give the next state and,
    on the end line of a block that had a phoneme section, the batch of
    pending vowels handed to [processForcedAlignmentResult].  The regular
    expression [rePhLine] (line 544) is the greedy matcher [matchPhLine].
    [reachable] is the step relation closed from the initial state;
    [parser_inv] is its invariant.  [feedChunk] is the stdout handler of
    [onRunJulius] (lines 408-426), which splits each chunk it receives on
    line feeds. *)

From Stdlib Require Import ZArith List String Ascii Bool Lia.
From S2P Require Import Prelude QtString UnitDecoder.
Import ListNotations.
Local Open Scope Z_scope.
Local Open Scope string_scope.
Local Open Scope julius_scope.

Module AlignmentParser.
Import QtString UnitDecoder.

(** [enum class AlignSection { None, Word, Phoneme, State }]. *)
Inductive AlignSection := SecNone | SecWord | SecPhoneme | SecState.

Definition AlignSection_eqb (a b : AlignSection) : bool :=
  match a, b with
  | SecNone, SecNone | SecWord, SecWord | SecPhoneme, SecPhoneme | SecState, SecState => true
  | _, _ => false
  end.

Record ParserState := mkParserState {
  inForcedBlock : bool;
  sawPhonemeSection : bool;
  currentAlignSection : AlignSection;
  pendingVowels : list PendingVowel
}.

(** The member initialisers of the header. *)
Definition initParser : ParserState := mkParserState false false SecNone [].

(** ** The regular expression [rePhLine]

    [^\s*\[\s*(\d+)\s+(\d+)\]\s+[-\d\.]+\s+([A-Za-z0-9_+\-]+)]: every
    quantifier is followed by a character outside its class, so the greedy
    match below is the only match. *)

(** [x+]: at least one character of the class. *)
Definition spanPlus (p : ascii -> bool) (s : string) : option (string * string) :=
  match span p s with
  | (EmptyString, _) => None
  | r => Some r
  end.

Definition expectChar (c : ascii) (s : string) : option string :=
  match s with
  | String d s' => if Ascii.eqb c d then Some s' else None
  | EmptyString => None
  end.

Definition isScoreChar (c : ascii) : bool := Ascii.eqb c "-" || isDigit c || Ascii.eqb c ".".

Definition isUnitChar (c : ascii) : bool :=
  isUpperAscii c || isLowerAscii c || isDigit c || Ascii.eqb c "_" || Ascii.eqb c "+"
  || Ascii.eqb c "-".

(** The three captures of a match: from, to and unit. *)
Definition matchPhLine (line : string) : option (string * string * string) :=
  r1 <- expectChar "[" (snd (span reSpace line)) ;;
  '(d1, r3) <- spanPlus isDigit (snd (span reSpace r1)) ;;
  '(_, r4) <- spanPlus reSpace r3 ;;
  '(d2, r5) <- spanPlus isDigit r4 ;;
  r6 <- expectChar "]" r5 ;;
  '(_, r7) <- spanPlus reSpace r6 ;;
  '(_, r8) <- spanPlus isScoreChar r7 ;;
  '(_, r9) <- spanPlus reSpace r8 ;;
  '(u, _) <- spanPlus isUnitChar r9 ;;
  Some (d1, d2, u).

(** ** One call of [parseForcedAlignment] *)

Definition beginMark := "=== begin forced alignment ===".
Definition endMark := "=== end forced alignment ===".
Definition wordHeader := "-- word alignment --".
Definition phonemeHeader := "-- phoneme alignment --".
Definition stateHeader := "-- state alignment --".

Definition setSection (st : ParserState) (s : AlignSection) : ParserState :=
  mkParserState (inForcedBlock st) (sawPhonemeSection st) s (pendingVowels st).

(** A data line of the phoneme section (lines 544-583). *)
Definition dataLine (st : ParserState) (line : string) : ParserState :=
  match matchPhLine line with
  | None => st
  | Some (d1, d2, u) =>
      match decodeUnit (toInt d1) (toInt d2) u with
      | None => st
      | Some pv => mkParserState (inForcedBlock st) (sawPhonemeSection st)
                     (currentAlignSection st) (pendingVowels st ++ [pv])
      end
  end.

Definition parseForcedAlignment (st : ParserState) (rawLine : string)
  : ParserState * option (list PendingVowel) :=
  let line := trimmed rawLine in
  if line =? "" then (st, None)
  else if startsWith line beginMark then (mkParserState true false SecNone [], None)
  else if startsWith line endMark then
    (mkParserState false (sawPhonemeSection st) SecNone (pendingVowels st),
     if inForcedBlock st && sawPhonemeSection st then Some (pendingVowels st) else None)
  else if negb (inForcedBlock st) then (st, None)
  else if startsWith line wordHeader then (setSection st SecWord, None)
  else if startsWith line phonemeHeader then
    (mkParserState (inForcedBlock st) true SecPhoneme [], None)
  else if startsWith line stateHeader then (setSection st SecState, None)
  else if negb (AlignSection_eqb (currentAlignSection st) SecPhoneme) then (st, None)
  else (dataLine st line, None).

(** A sequence of calls, with the batches handed to
    [processForcedAlignmentResult] in order. *)
Fixpoint runParser (st : ParserState) (lines : list string)
  : ParserState * list (list PendingVowel) :=
  match lines with
  | [] => (st, [])
  | l :: ls =>
      let (st1, out) := parseForcedAlignment st l in
      let (st2, outs) := runParser st1 ls in
      (st2, match out with Some b => b :: outs | None => outs end)
  end.

(** The stdout handler of [onRunJulius]: a chunk of output is split on
    line feeds, empty parts skipped, and each part parsed. *)
Definition feedChunk (st : ParserState) (chunk : string)
  : ParserState * list (list PendingVowel) :=
  runParser st (skipEmpty (split (fun c => Ascii.eqb c "010"%char) chunk)).

(** Successive [readyReadStandardOutput] signals, one chunk each. *)
Fixpoint feedChunks (st : ParserState) (chunks : list string)
  : ParserState * list (list PendingVowel) :=
  match chunks with
  | [] => (st, [])
  | c :: cs =>
      let (st1, o1) := feedChunk st c in
      let (st2, o2) := feedChunks st1 cs in
      (st2, (o1 ++ o2)%list)
  end.

Definition LF : string := String "010"%char EmptyString.

(** The decoding of one line of the phoneme section. *)
Definition decodeLine (l : string) : option PendingVowel :=
  match matchPhLine (trimmed l) with
  | Some (d1, d2, u) => decodeUnit (toInt d1) (toInt d2) u
  | None => None
  end.

(** A line that opens or closes a block. *)
Definition isBlockMark (l : string) : bool :=
  startsWith (trimmed l) beginMark || startsWith (trimmed l) endMark.

(** A line that the parser handles before looking at the section. *)
Definition isControlLine (l : string) : bool :=
  isBlockMark l || startsWith (trimmed l) wordHeader
  || startsWith (trimmed l) phonemeHeader || startsWith (trimmed l) stateHeader.

(** ** Reachable states and the invariant *)

Inductive reachable : ParserState -> Prop :=
| reach_init : reachable initParser
| reach_step st l : reachable st -> reachable (fst (parseForcedAlignment st l)).

Definition parser_inv (st : ParserState) : Prop :=
  (inForcedBlock st = false -> currentAlignSection st = SecNone) /\
  (currentAlignSection st = SecPhoneme -> sawPhonemeSection st = true) /\
  (pendingVowels st <> [] -> sawPhonemeSection st = true) /\
  Forall pv_wf (pendingVowels st).

(** ** Lemmas *)

Lemma AlignSection_eqb_spec a b : AlignSection_eqb a b = true <-> a = b.
Proof. destruct a, b; simpl; split; congruence. Qed.

Lemma dataLine_cases st line :
  dataLine st line = st \/
  exists pv, pv_wf pv /\
    dataLine st line = mkParserState (inForcedBlock st) (sawPhonemeSection st)
                         (currentAlignSection st) (pendingVowels st ++ [pv]).
Proof.
  unfold dataLine. destruct (matchPhLine line) as [[[d1 d2] u]|]; auto.
  destruct (decodeUnit _ _ u) as [pv|] eqn:E; auto.
  right. exists pv. split; [eapply decodeUnit_wf; eauto | reflexivity].
Qed.

Ltac parser_cases :=
  unfold parseForcedAlignment; repeat destr_if; simpl in *;
  repeat match goal with
  | H : negb _ = false |- _ => apply negb_false_iff in H
  | H : negb _ = true |- _ => apply negb_true_iff in H
  end.

Lemma parser_inv_step st l : parser_inv st -> parser_inv (fst (parseForcedAlignment st l)).
Proof.
  intros (H1 & H2 & H3 & H4). parser_cases; unfold parser_inv, setSection; simpl;
    try solve [repeat split; simpl; auto; intros; congruence].
  match goal with
  | H : AlignSection_eqb _ _ = true |- _ => apply AlignSection_eqb_spec in H
  end.
  destruct (dataLine_cases st (trimmed l)) as [-> | [pv [Hpv ->]]];
    repeat split; simpl; intros; auto; apply Forall_app; auto.
Qed.

(** The data lines of a phoneme section, in a block. *)
Lemma run_data st data :
  inForcedBlock st = true -> currentAlignSection st = SecPhoneme ->
  forallb (fun l => negb (isControlLine l)) data = true ->
  runParser st data =
    (mkParserState true (sawPhonemeSection st) SecPhoneme
       (pendingVowels st ++ filter_map decodeLine data), []).
Proof.
  revert st. induction data as [|l data IH]; intros st Hin Hsec Hdata; simpl in *.
  - destruct st; simpl in *; subst; now rewrite app_nil_r.
  - apply andb_true_iff in Hdata as [Hl Hdata].
    unfold isControlLine, isBlockMark in Hl.
    rewrite !negb_orb in Hl. repeat rewrite andb_true_iff in Hl.
    rewrite !negb_true_iff in Hl. destruct Hl as [[[[Hb He] Hw] Hp] Hs].
    unfold parseForcedAlignment. rewrite Hb, He, Hw, Hp, Hs, Hin, Hsec. simpl.
    destruct (String.eqb_spec (trimmed l) "") as [Ht|Ht].
    + rewrite IH by auto. unfold decodeLine. rewrite Ht. reflexivity.
    + unfold dataLine, decodeLine.
      destruct (matchPhLine (trimmed l)) as [[[d1 d2] u]|];
        [destruct (decodeUnit _ _ u) as [pv|]|].
      * rewrite IH by auto. simpl. now rewrite <- app_assoc.
      * rewrite IH by auto. reflexivity.
      * rewrite IH by auto. reflexivity.
Qed.

(** Lines inside a block that neither open nor close it. *)
Lemma run_inside st pre :
  inForcedBlock st = true -> forallb (fun l => negb (isBlockMark l)) pre = true ->
  exists st', runParser st pre = (st', []) /\ inForcedBlock st' = true.
Proof.
  revert st. induction pre as [|l pre IH]; intros st Hin Hpre; simpl in *; [eauto|].
  apply andb_true_iff in Hpre as [Hl Hpre].
  unfold isBlockMark in Hl. rewrite negb_orb, andb_true_iff, !negb_true_iff in Hl.
  destruct Hl as [Hb He].
  destruct (parseForcedAlignment st l) as [st1 out] eqn:Ep.
  assert (out = None /\ inForcedBlock st1 = true) as [-> Hin1].
  { revert Ep. unfold parseForcedAlignment. rewrite Hb, He, Hin.
    repeat destr_if; intros Ep; inv Ep; auto.
    unfold dataLine. destruct (matchPhLine _) as [[[d1 d2] u]|]; [|auto].
    destruct (decodeUnit _ _ u); auto. }
  destruct (IH st1 Hin1 Hpre) as [st' [-> Hst']]. eauto.
Qed.

Lemma runParser_app st l1 l2 :
  runParser st (l1 ++ l2) =
  let (st1, o1) := runParser st l1 in
  let (st2, o2) := runParser st1 l2 in (st2, (o1 ++ o2)%list).
Proof.
  revert st. induction l1 as [|l l1 IH]; intros st; simpl.
  - destruct (runParser st l2); reflexivity.
  - destruct (parseForcedAlignment st l) as [st1 o]. rewrite IH.
    destruct (runParser st1 l1) as [st2 o1]. destruct (runParser st2 l2) as [st3 o2].
    destruct o; reflexivity.
Qed.

(** ** Properties *)

(** C1: Every state reachable from the initial one by any sequence of
    lines satisfies the invariant: outside a block the section is [None];
    the phoneme section, and any pending vowel, imply that a phoneme
    header was seen; every pending vowel is a well-formed vowel segment. *)
Theorem parser_reachable_inv st : reachable st -> parser_inv st.
Proof.
  induction 1 as [|st l _ IH].
  - repeat split; simpl; auto; congruence.
  - now apply parser_inv_step.
Qed.

Lemma parser_reachable_inv_witness :
  let st := fst (parseForcedAlignment initParser beginMark) in
  reachable st /\ parser_inv st.
Proof.
  cbv zeta. split; [apply reach_step, reach_init|].
  apply parser_reachable_inv, reach_step, reach_init.
Defined.

(** C20: A batch is handed to [processForcedAlignmentResult] only on the
    end line of a block in which a phoneme section was seen, and the
    batch is the pending-vowel list of that moment. *)
Theorem parser_emits_only_at_block_end st l b :
  snd (parseForcedAlignment st l) = Some b ->
  startsWith (trimmed l) endMark = true /\ inForcedBlock st = true /\
  sawPhonemeSection st = true /\ b = pendingVowels st.
Proof.
  parser_cases; try discriminate.
  destruct (inForcedBlock st), (sawPhonemeSection st); simpl; intros H; inv H; auto.
Qed.

Lemma parser_emits_only_at_block_end_witness :
  let st := mkParserState true true SecPhoneme [mkPendingVowel "A" 1 3 2 "" "A"] in
  snd (parseForcedAlignment st endMark) = Some [mkPendingVowel "A" 1 3 2 "" "A"] /\
  (startsWith (trimmed endMark) endMark = true /\ inForcedBlock st = true /\
   sawPhonemeSection st = true /\ [mkPendingVowel "A" 1 3 2 "" "A"] = pendingVowels st).
Proof.
  cbv zeta. split; [reflexivity|].
  apply parser_emits_only_at_block_end. reflexivity.
Defined.

(** outside a block every line other than a block mark leaves the
    parser untouched. *)
Theorem parser_outside_block st l :
  inForcedBlock st = false -> isBlockMark l = false ->
  parseForcedAlignment st l = (st, None).
Proof.
  intros Hin Hm. unfold isBlockMark in Hm. apply orb_false_iff in Hm as [Hb He].
  unfold parseForcedAlignment. rewrite Hb, He, Hin. now destr_if.
Qed.

Lemma parser_outside_block_witness :
  inForcedBlock initParser = false /\ isBlockMark "[  0  5]  -1.0  a" = false /\
  parseForcedAlignment initParser "[  0  5]  -1.0  a" = (initParser, None).
Proof.
  split; [reflexivity|]. split; [reflexivity|].
  apply parser_outside_block; reflexivity.
Defined.

(** C2: A whole block -- its begin line, any lines that do not open or
    close a block, the phoneme header, data lines, the end line -- hands
    exactly the decoded data lines to [processForcedAlignmentResult], once,
    whatever the state before it: the streaming parser implements the
    per-block decoding of the phoneme section, and an earlier phoneme
    section of the same block is discarded. *)
Theorem parser_block st pre data :
  forallb (fun l => negb (isBlockMark l)) pre = true ->
  forallb (fun l => negb (isControlLine l)) data = true ->
  runParser st ([beginMark] ++ pre ++ [phonemeHeader] ++ data ++ [endMark]) =
  (mkParserState false true SecNone (filter_map decodeLine data),
   [filter_map decodeLine data]).
Proof.
  intros Hpre Hdata. simpl.
  rewrite runParser_app.
  destruct (run_inside (mkParserState true false SecNone []) pre eq_refl Hpre)
    as [st' [-> Hin]].
  simpl. unfold parseForcedAlignment at 1. simpl. rewrite Hin. simpl.
  rewrite runParser_app, run_data by auto. simpl. reflexivity.
Qed.

Lemma parser_block_witness :
  forallb (fun l => negb (isBlockMark l))
    ["-- word alignment --"; "[   0  10]  -1.2  sil"] = true /\
  forallb (fun l => negb (isControlLine l))
    [" [  11  20]  -2.5  k-a+i"; "[  21  30]  -1.0  sh-i+t"] = true /\
  runParser initParser
    ([beginMark] ++ ["-- word alignment --"; "[   0  10]  -1.2  sil"] ++ [phonemeHeader]
       ++ [" [  11  20]  -2.5  k-a+i"; "[  21  30]  -1.0  sh-i+t"] ++ [endMark]) =
  (mkParserState false true SecNone
     (filter_map decodeLine [" [  11  20]  -2.5  k-a+i"; "[  21  30]  -1.0  sh-i+t"]),
   [filter_map decodeLine [" [  11  20]  -2.5  k-a+i"; "[  21  30]  -1.0  sh-i+t"]]).
Proof.
  split; [reflexivity|]. split; [reflexivity|].
  apply parser_block; reflexivity.
Defined.

(** the stdout handler parses each chunk's pieces as lines: a data
    line that reaches the handler in two chunks is parsed as two
    fragments and its vowel is lost, where the same text in one chunk
    gives it. *)
Theorem feedChunk_splits_line :
  let c1 := beginMark ++ LF ++ phonemeHeader ++ LF ++ "[  10  20]  -3.5  k-" in
  let c2 := "a+i" ++ LF ++ endMark ++ LF in
  snd (feedChunks initParser [c1 ++ c2]) =
    [[mkPendingVowel "A" 10 20 15 "K" "KA"]] /\
  snd (feedChunks initParser [c1; c2]) = [[]].
Proof. split; vm_compute; reflexivity. Qed.

End AlignmentParser.
