(* ===== verification/Markers.v ===== *)
(** * The acoustic marker builder

    Models the first half of [JuliusAnalyzeWindow::processForcedAlignmentResult]
    (Private/JuliusAnalyzeWindow.cpp 587-650): for each pending vowel the
    sample window [fromFrame*160 .. (toFrame+1)*160), clamped to the
    buffer, its RMS and dBFS, the clamped centre sample and its normalised
    position; then a second pass with the energies relative to the sum and
    to the maximum of all RMS values.  [VowelMarker] is the struct of
    Public/ADXLipModel.h 54-76.  The sample buffer is the [QVector<float>]
    of the waveform widget, whose size is [totalSampleCount()].

    Every [int] product is taken with its 32-bit wrap-around; the
    theorems show that the clamping keeps each read inside the buffer for
    every frame pair the parser can produce. *)

From Stdlib Require Import ZArith QArith Qround Lqa Lia List String Bool.
From S2P Require Import Prelude Cmath UnitDecoder.
Import ListNotations.
Local Open Scope Z_scope.
Local Open Scope julius_scope.

Module Markers.

(** [struct VowelMarker]. *)
Record VowelMarker := mkVowelMarker {
  fromFrame : Z;
  toFrame : Z;
  frame : Z;
  sampleOffset : Z;
  normPos : Q;
  vowel : string;
  rms : Q;
  peak : Q;
  dbfs : Q;
  relMax : Q;
  relSum : Q;
  relVowelSum : Q;
  cv : string
}.

(** [static constexpr int FRAME_SHIFT_SAMPLES = 160] (line 32). *)
Definition FRAME_SHIFT_SAMPLES : Z := 160.

(** [constexpr double REF = 1.0; constexpr double EPS = 1e-12]. *)
Definition REF : Q := 1.
Definition EPS : Q := 1e-12.

(** Lines 608-613: the window, with the [end <= start] guard and both
    bounds clamped to [[0, totalSamples]]. *)
Definition sampleWindow (totalSamples : Z) (pv : UnitDecoder.PendingVowel) : Z * Z :=
  let start := UnitDecoder.fromFrame pv *i FRAME_SHIFT_SAMPLES in
  let end_ := (UnitDecoder.toFrame pv +i 1) *i FRAME_SHIFT_SAMPLES in
  let end_ := if end_ <=? start then start +i FRAME_SHIFT_SAMPLES else end_ in
  (qBound 0 start totalSamples, qBound 0 end_ totalSamples).

(** Lines 616-620: [sumSq += v * v] over [samples[start + i]], [i < n]. *)
Definition windowSumSq (samples : list Q) (start n : Z) : Q :=
  fold_left (fun acc i => let v := nth (Z.to_nat start + i) samples 0%Q in (acc + v * v)%Q)
    (seq 0 (Z.to_nat n)) 0%Q.

Section Builder.
  Context {M : CMath}.

  (** The body of the first loop (lines 608-637) for one pending vowel. *)
Definition vowelMarkerOf (samples : list Q) (pv : UnitDecoder.PendingVowel) : VowelMarker :=
    let totalSamples := Z.of_nat (List.length samples) in
    let (start, end_) := sampleWindow totalSamples pv in
    let n := end_ - start in
    let sumSq := windowSumSq samples start n in
    let rms := if 0 <? n then c_sqrt (sumSq / inject_Z n) else 0%Q in
    let dbfs := (20 * c_log10 (winmax rms EPS / REF))%Q in
    let midSample := qBound 0 (UnitDecoder.midFrame pv *i FRAME_SHIFT_SAMPLES) (totalSamples - 1) in
    let norm := (inject_Z midSample / inject_Z totalSamples)%Q in
    mkVowelMarker (UnitDecoder.fromFrame pv) (UnitDecoder.toFrame pv) (UnitDecoder.midFrame pv)
      midSample norm (UnitDecoder.vowel pv) rms 0 dbfs 0 0 0 (UnitDecoder.cv pv).

  (** The first loop: markers in order, with the running [sumRms] and
      [maxRms] (lines 605-641). *)
Fixpoint firstPass (samples : list Q) (pvs : list UnitDecoder.PendingVowel)
      (acc : list VowelMarker) (sumRms maxRms : Q) : list VowelMarker * Q * Q :=
    match pvs with
    | [] => (acc, sumRms, maxRms)
    | pv :: rest =>
        let vm := vowelMarkerOf samples pv in
        firstPass samples rest (acc ++ [vm]) (sumRms + rms vm)%Q (winmax maxRms (rms vm))
    end.
End Builder.

(** The second loop (lines 643-646). *)
Definition relPass (sumRms maxRms : Q) (vm : VowelMarker) : VowelMarker :=
  mkVowelMarker (fromFrame vm) (toFrame vm) (frame vm) (sampleOffset vm) (normPos vm)
    (vowel vm) (rms vm) (peak vm) (dbfs vm)
    (if Qle_bool maxRms 0 then 0 else rms vm / maxRms)%Q
    (if Qle_bool sumRms 0 then 0 else rms vm / sumRms)%Q
    (relVowelSum vm) (cv vm).

(** The marker part of [processForcedAlignmentResult]: [None] is the
    early [return] on an empty buffer (lines 593-596), which leaves the
    marker list cleared and builds no frames. *)
Definition buildVowelMarkers {M : CMath} (samples : list Q) (pvs : list UnitDecoder.PendingVowel)
  : option (list VowelMarker * Q * Q) :=
  if Z.of_nat (List.length samples) <=? 0 then None
  else let '(vms, sumRms, maxRms) := firstPass samples pvs [] 0%Q 0%Q in
       Some (map (relPass sumRms maxRms) vms, sumRms, maxRms).

(** The marker list [vowelMarkers_] after the call. *)
Definition vowelMarkers {M : CMath} (samples : list Q) (pvs : list UnitDecoder.PendingVowel)
  : list VowelMarker :=
  match buildVowelMarkers samples pvs with
  | Some (vms, _, _) => vms
  | None => []
  end.

(** The elements of [samples] in [[s, e)]. *)
Definition sublistZ (samples : list Q) (s e : Z) : list Q :=
  firstn (Z.to_nat (e - s)) (skipn (Z.to_nat s) samples).

(** ** Lemmas *)

Section Lemmas.
  Context {M : CMath} {ML : CMathLaws M}.

Lemma firstPass_eq samples pvs acc s m :
    firstPass samples pvs acc s m =
      (acc ++ map (vowelMarkerOf samples) pvs,
       fold_left Qplus (map rms (map (vowelMarkerOf samples) pvs)) s,
       fold_left winmax (map rms (map (vowelMarkerOf samples) pvs)) m).
  Proof.
    revert acc s m. induction pvs as [|pv pvs IH]; intros acc s m; simpl.
    - now rewrite app_nil_r.
    - rewrite IH, <- app_assoc. reflexivity.
  Qed.

Lemma rms_nonneg samples pv : (0 <= rms (vowelMarkerOf samples pv))%Q.
  Proof.
    unfold vowelMarkerOf. destruct (sampleWindow _ _) as [s e]. simpl.
    destruct (0 <? e - s); [apply c_sqrt_nonneg | apply Qle_refl].
  Qed.

Lemma sampleWindow_bounds T pv : 0 <= T ->
    0 <= fst (sampleWindow T pv) <= T /\ 0 <= snd (sampleWindow T pv) <= T.
  Proof. intros HT. unfold sampleWindow. simpl. split; apply qBound_range; lia. Qed.
Lemma vowelMarkers_eq samples pvs : samples <> [] ->
  vowelMarkers samples pvs =
  let ms := map (vowelMarkerOf samples) pvs in
  map (relPass (fold_left Qplus (map rms ms) 0%Q) (fold_left winmax (map rms ms) 0%Q)) ms.
Proof.
  intros Hs. unfold vowelMarkers, buildVowelMarkers.
  destruct samples as [|x xs]; [congruence|]. simpl (Z.of_nat _ <=? 0).
  rewrite firstPass_eq. reflexivity.
Qed.

Lemma vowelMarkers_nil pvs : vowelMarkers [] pvs = [].
Proof. reflexivity. Qed.

(** Every marker comes from a pending vowel through both passes. *)
Lemma In_vowelMarkers samples pvs vm :
  In vm (vowelMarkers samples pvs) ->
  samples <> [] /\
  exists pv, In pv pvs /\
  vm = relPass (fold_left Qplus (map rms (map (vowelMarkerOf samples) pvs)) 0%Q)
               (fold_left winmax (map rms (map (vowelMarkerOf samples) pvs)) 0%Q)
               (vowelMarkerOf samples pv).
Proof.
  destruct samples as [|x xs]; [simpl; tauto|].
  rewrite vowelMarkers_eq by discriminate. cbv zeta.
  intros H. apply in_map_iff in H as [m [<- Hm]]. apply in_map_iff in Hm as [pv [<- Hpv]].
  split; [discriminate|]. eauto.
Qed.

Lemma relPass_rms S Mx vm : rms (relPass S Mx vm) = rms vm.
Proof. reflexivity. Qed.

Lemma relPass_relMax S Mx vm :
  relMax (relPass S Mx vm) = (if Qle_bool Mx 0 then 0 else rms vm / Mx)%Q.
Proof. reflexivity. Qed.

Lemma relPass_relSum S Mx vm :
  relSum (relPass S Mx vm) = (if Qle_bool S 0 then 0 else rms vm / S)%Q.
Proof. reflexivity. Qed.

Lemma rms_list_nonneg samples pvs : Forall (Qle 0) (map rms (map (vowelMarkerOf samples) pvs)).
Proof.
  apply Forall_forall. intros x Hx. apply in_map_iff in Hx as [m [<- Hm]].
  apply in_map_iff in Hm as [pv [<- _]]. apply rms_nonneg.
Qed.

Lemma rms_le_max samples pvs pv : In pv pvs ->
  (rms (vowelMarkerOf samples pv) <= fold_left winmax (map rms (map (vowelMarkerOf samples) pvs)) 0)%Q.
Proof.
  intros Hpv. destruct (fold_winmax_ge (map rms (map (vowelMarkerOf samples) pvs)) 0) as [_ H].
  rewrite Forall_forall in H. apply H, in_map, in_map, Hpv.
Qed.

Lemma skipn_cons_nth (l : list Q) m x rest :
  skipn m l = x :: rest -> nth m l 0%Q = x /\ skipn (S m) l = rest.
Proof.
  revert l. induction m as [|m IH]; intros [|y l] H; simpl in *; try discriminate.
  - inv H. auto.
  - apply IH, H.
Qed.

Lemma skipn_nil_nth (l : list Q) m : skipn m l = [] -> nth m l 0%Q = 0%Q /\ skipn (S m) l = [].
Proof.
  revert l. induction m as [|m IH]; intros [|y l] H; simpl in *; try discriminate; auto.
Qed.

(** The loop of lines 616-620 sums the squares of the window; an index
    past the end would contribute 0. *)
Lemma fold_left_Qplus_map_seq (l : list Q) k n :
  fold_left (fun acc i => let v := nth (k + i) l 0%Q in (acc + v * v)%Q) (seq 0 n) 0%Q ==
  Qsum (map (fun v => v * v)%Q (firstn n (skipn k l))).
Proof.
  enough (forall j a, fold_left (fun acc i => let v := nth (k + i) l 0%Q in (acc + v * v)%Q)
                        (seq j n) a == (a + Qsum (map (fun v => v * v)%Q (firstn n (skipn (k + j) l))))%Q)
    as H by (rewrite H, Nat.add_0_r; apply Qplus_0_l).
  induction n as [|n IH]; intros j a; simpl; [symmetry; apply Qplus_0_r|].
  rewrite IH. replace (k + S j)%nat with (S (k + j)) by lia.
  destruct (skipn (k + j) l) as [|x rest] eqn:E.
  - destruct (skipn_nil_nth l (k + j) E) as [-> ->]. rewrite !firstn_nil. simpl. lra.
  - destruct (skipn_cons_nth l (k + j) x rest E) as [-> ->]. simpl. lra.
Qed.

Lemma windowSumSq_sublist samples s n :
  windowSumSq samples s n == Qsum (map (fun v => v * v)%Q (sublistZ samples s (s + n))).
Proof.
  unfold windowSumSq, sublistZ. replace (s + n - s) with n by lia.
  rewrite fold_left_Qplus_map_seq. reflexivity.
Qed.
Lemma vowelMarkerOf_fields samples pv :
  let vm := vowelMarkerOf samples pv in
  fromFrame vm = UnitDecoder.fromFrame pv /\ toFrame vm = UnitDecoder.toFrame pv /\
  frame vm = UnitDecoder.midFrame pv /\ vowel vm = UnitDecoder.vowel pv /\
  cv vm = UnitDecoder.cv pv /\ relVowelSum vm = 0%Q /\ peak vm = 0%Q /\
  sampleOffset vm = qBound 0 (UnitDecoder.midFrame pv *i FRAME_SHIFT_SAMPLES)
                      (Z.of_nat (List.length samples) - 1) /\
  normPos vm = (inject_Z (sampleOffset vm) / inject_Z (Z.of_nat (List.length samples)))%Q /\
  dbfs vm = (20 * c_log10 (winmax (rms vm) EPS / REF))%Q.
Proof.
  unfold vowelMarkerOf. destruct (sampleWindow _ _). repeat split; reflexivity.
Qed.

Lemma Qdiv_Z_unit a b : 0 <= a < b -> (0 <= inject_Z a / inject_Z b < 1)%Q.
Proof.
  intros H. assert (Hb : (0 < inject_Z b)%Q) by (unfold Qlt; simpl; lia).
  split.
  - apply Qle_shift_div_l; [exact Hb|]. rewrite Qmult_0_l. unfold Qle; simpl; lia.
  - apply Qlt_shift_div_r; [exact Hb|]. rewrite Qmult_1_l. unfold Qlt; simpl; lia.
Qed.
End Lemmas.

#[export] Hint Resolve rms_nonneg rms_list_nonneg : julius.

(** ** Properties *)

(** C14: Whatever the frame numbers of a pending vowel -- including the
    ones whose products by 160 overflow an [int] -- every index that the
    RMS loop reads, [start + i] for [i < end - start], lies inside the
    sample buffer. *)
Theorem sampleWindow_reads_in_bounds T pv i :
  0 <= T ->
  (i < Z.to_nat (snd (sampleWindow T pv) - fst (sampleWindow T pv)))%nat ->
  (Z.to_nat (fst (sampleWindow T pv)) + i < Z.to_nat T)%nat.
Proof. intros HT Hi. destruct (sampleWindow_bounds T pv HT). lia. Qed.

Lemma sampleWindow_reads_in_bounds_witness :
  let pv := UnitDecoder.mkPendingVowel "A" 10 12 11 "" "A" in
  (0 <= 16000 /\
   (3 < Z.to_nat (snd (sampleWindow 16000 pv) - fst (sampleWindow 16000 pv)))%nat) /\
  (Z.to_nat (fst (sampleWindow 16000 pv)) + 3 < Z.to_nat 16000)%nat.
Proof.
  cbv zeta. split; [split; [lia | vm_compute; lia]|].
  apply sampleWindow_reads_in_bounds; [lia | vm_compute; lia].
Defined.

Section Properties.
  Context {M : CMath} {ML : CMathLaws M}.

(** C15: Every marker's [relMax] lies in [[0,1]], and a marker whose RMS
    is positive and maximal among all markers has [relMax = 1]. *)
Theorem relMax_unit_and_argmax samples pvs :
  Forall (fun vm => 0 <= relMax vm <= 1)%Q (vowelMarkers samples pvs) /\
  forall vm, In vm (vowelMarkers samples pvs) -> (0 < rms vm)%Q ->
    (forall vm', In vm' (vowelMarkers samples pvs) -> (rms vm' <= rms vm)%Q) ->
    (relMax vm == 1)%Q.
Proof.
  split.
  - apply Forall_forall. intros vm Hin.
    apply In_vowelMarkers in Hin as [_ [pv [Hpv ->]]]. rewrite relPass_relMax.
    case_qle (fold_left winmax (map rms (map (vowelMarkerOf samples) pvs)) 0%Q) 0%Q; [lra|].
    apply Qratio_unit; [apply rms_nonneg | apply rms_le_max; exact Hpv | lra].
  - intros vm Hin Hpos Hmax. pose proof Hin as Hin'.
    apply In_vowelMarkers in Hin as [Hs [pv [Hpv ->]]]. rewrite relPass_rms in Hpos.
    set (Mx := fold_left winmax (map rms (map (vowelMarkerOf samples) pvs)) 0%Q).
    assert (Hle : (rms (vowelMarkerOf samples pv) <= Mx)%Q) by (apply rms_le_max; exact Hpv).
    assert (Hge : (Mx <= rms (vowelMarkerOf samples pv))%Q).
    { destruct (fold_winmax_cases (map rms (map (vowelMarkerOf samples) pvs)) 0%Q) as [E|E];
        fold Mx in E; [rewrite E; lra|].
      apply in_map_iff in E as [m [Em Hm]]. rewrite <- Em.
      specialize (Hmax (relPass (fold_left Qplus (map rms (map (vowelMarkerOf samples) pvs)) 0%Q) Mx m)).
      rewrite !relPass_rms in Hmax. apply Hmax.
      rewrite vowelMarkers_eq by exact Hs. apply in_map, Hm. }
    rewrite relPass_relMax. case_qle Mx 0%Q; [lra|].
    setoid_replace Mx with (rms (vowelMarkerOf samples pv)) by lra.
    apply Qdiv_self. lra.
Qed.

(** C34: The [relSum] values lie in [[0,1]] and, when some marker has a
    positive RMS, they sum to 1: they are the share of each marker in the
    total energy. *)
Theorem relSum_distribution samples pvs :
  Forall (fun vm => 0 <= relSum vm <= 1)%Q (vowelMarkers samples pvs) /\
  ((exists vm, In vm (vowelMarkers samples pvs) /\ (0 < rms vm)%Q) ->
   (Qsum (map relSum (vowelMarkers samples pvs)) == 1)%Q).
Proof.
  set (rs := map rms (map (vowelMarkerOf samples) pvs)).
  assert (Hnn : Forall (Qle 0) rs) by apply rms_list_nonneg.
  assert (HS : (fold_left Qplus rs 0%Q == Qsum rs)%Q) by (rewrite fold_left_Qplus; ring).
  assert (Hrs : rs = map rms (map (vowelMarkerOf samples) pvs)) by reflexivity.
  clearbody rs.
  split.
  - apply Forall_forall. intros vm Hin.
    apply In_vowelMarkers in Hin as [_ [pv [Hpv ->]]]. rewrite relPass_relSum, <- Hrs.
    case_qle (fold_left Qplus rs 0%Q) 0%Q; [lra|].
    assert (Hin : In (rms (vowelMarkerOf samples pv)) rs) by (subst rs; apply in_map, in_map, Hpv).
    pose proof (Qsum_ge_In rs _ Hnn Hin).
    apply Qratio_unit; [apply rms_nonneg | lra | lra].
  - intros [vm [Hin Hpos]]. pose proof Hin as Hin'.
    apply In_vowelMarkers in Hin as [Hs [pv [Hpv ->]]]. rewrite relPass_rms in Hpos.
    assert (Hin2 : In (rms (vowelMarkerOf samples pv)) rs) by (subst rs; apply in_map, in_map, Hpv).
    pose proof (Qsum_ge_In rs _ Hnn Hin2).
    rewrite vowelMarkers_eq by exact Hs. cbv zeta. rewrite <- Hrs.
    rewrite map_map. setoid_rewrite relPass_relSum.
    case_qle (fold_left Qplus rs 0%Q) 0%Q; [lra|].
    rewrite <- map_map with (f := rms) (g := fun r : Q => (r / fold_left Qplus rs 0%Q)%Q).
    rewrite <- Hrs. rewrite Qsum_map_div by lra. rewrite HS. apply Qdiv_self. lra.
Qed.

(** C39: Each marker's sample offset is the centre frame's first sample
    clamped into the buffer, [0 <= sampleOffset < totalSamples], and its
    normalised position is [sampleOffset / totalSamples], in [[0,1)]. *)
Theorem marker_position samples pvs :
  Forall (fun vm =>
    0 <= sampleOffset vm < Z.of_nat (List.length samples) /\
    (normPos vm == inject_Z (sampleOffset vm) / inject_Z (Z.of_nat (List.length samples)))%Q /\
    (0 <= normPos vm < 1)%Q) (vowelMarkers samples pvs).
Proof.
  apply Forall_forall. intros vm Hin.
  apply In_vowelMarkers in Hin as [Hs [pv [_ ->]]]. cbn [relPass fromFrame toFrame frame vowel cv sampleOffset normPos relVowelSum peak dbfs rms].
  destruct (vowelMarkerOf_fields samples pv) as (_ & _ & _ & _ & _ & _ & _ & Ho & Hn & _).
  rewrite Hn, Ho.
  assert (HT : 0 < Z.of_nat (List.length samples))
    by (destruct samples; [congruence | simpl; lia]).
  assert (Hb := qBound_range 0 (UnitDecoder.midFrame pv *i FRAME_SHIFT_SAMPLES)
                  (Z.of_nat (List.length samples) - 1) ltac:(lia)).
  split; [lia|]. split; [reflexivity|]. apply Qdiv_Z_unit. lia.
Qed.

(** the markers follow the pending vowels one to one and in order,
    each keeping the vowel's frame range, centre frame, vowel and CV
    label. *)
Theorem vowelMarkers_follow_pending samples pvs : samples <> [] ->
  Forall2 (fun pv vm =>
    fromFrame vm = UnitDecoder.fromFrame pv /\ toFrame vm = UnitDecoder.toFrame pv /\
    frame vm = UnitDecoder.midFrame pv /\ vowel vm = UnitDecoder.vowel pv /\
    cv vm = UnitDecoder.cv pv) pvs (vowelMarkers samples pvs).
Proof.
  intros Hs. rewrite vowelMarkers_eq by exact Hs. cbv zeta.
  generalize (fold_left Qplus (map rms (map (vowelMarkerOf samples) pvs)) 0%Q).
  generalize (fold_left winmax (map rms (map (vowelMarkerOf samples) pvs)) 0%Q).
  intros Mx S. induction pvs as [|pv pvs IH]; simpl; constructor; [|exact IH].
  destruct (vowelMarkerOf_fields samples pv) as (H1 & H2 & H3 & H4 & H5 & _).
  cbn [relPass fromFrame toFrame frame vowel cv sampleOffset normPos relVowelSum peak dbfs rms]. auto.
Qed.

(** C32: The RMS of a marker is the square root of the mean square of the
    clamped window [samples[start..end)], and 0 when the window is empty:
    the accumulation loop computes this sum. *)
Theorem marker_rms_window samples pv :
  let (s, e) := sampleWindow (Z.of_nat (List.length samples)) pv in
  (rms (vowelMarkerOf samples pv) ==
   if 0 <? e - s
   then c_sqrt (Qsum (map (fun v => v * v)%Q (sublistZ samples s e)) / inject_Z (e - s))
   else 0)%Q.
Proof.
  unfold vowelMarkerOf. destruct (sampleWindow _ _) as [s e]. simpl.
  destr_if; [|reflexivity].
  apply c_sqrt_proper. rewrite windowSumSq_sublist. now replace (s + (e - s)) with e by lia.
Qed.

(** C40: A marker over silence gets the finite floor
    [20 * log10(EPS)] as its dBFS, not minus infinity. *)
Theorem dbfs_silent_floor samples pvs vm :
  In vm (vowelMarkers samples pvs) -> (rms vm == 0)%Q ->
  (dbfs vm == 20 * c_log10 EPS)%Q.
Proof.
  intros Hin H0. apply In_vowelMarkers in Hin as [_ [pv [_ ->]]]. cbn [relPass fromFrame toFrame frame vowel cv sampleOffset normPos relVowelSum peak dbfs rms] in *.
  destruct (vowelMarkerOf_fields samples pv) as (_ & _ & _ & _ & _ & _ & _ & _ & _ & Hd).
  rewrite Hd. unfold winmax. case_qle (rms (vowelMarkerOf samples pv)) EPS.
  - setoid_replace (EPS / REF)%Q with EPS by (unfold REF; field). reflexivity.
  - exfalso. assert (HE : (0 < EPS)%Q) by reflexivity. lra.
Qed.
End Properties.

(** ** Witnesses, with the executable implementation of <cmath> *)

Import FixedCMath.

Lemma relMax_unit_and_argmax_witness :
  let samples := repeat (1 # 2)%Q 160 ++ repeat 0%Q 160 ++ repeat (1 # 4)%Q 160 in
  let pvs := [UnitDecoder.mkPendingVowel "A" 0 0 0 "" "A";
              UnitDecoder.mkPendingVowel "I" 2 2 2 "K" "KI"] in
  let vm0 := hd (mkVowelMarker 0 0 0 0 0 "" 0 0 0 0 0 0 "") (vowelMarkers samples pvs) in
  (In vm0 (vowelMarkers samples pvs) /\ (0 < rms vm0)%Q /\
   (forall vm', In vm' (vowelMarkers samples pvs) -> (rms vm' <= rms vm0)%Q)) /\
  (relMax vm0 == 1)%Q.
Proof.
  intros samples pvs vm0.
  assert (H1 : In vm0 (vowelMarkers samples pvs)) by (vm_compute; left; reflexivity).
  assert (H2 : (0 < rms vm0)%Q) by (vm_compute; reflexivity).
  assert (H3 : forall vm', In vm' (vowelMarkers samples pvs) -> (rms vm' <= rms vm0)%Q).
  { intros vm'. vm_compute. intros [<-|[<-|[]]]; discriminate. }
  split; [auto|].
  exact (proj2 (relMax_unit_and_argmax samples pvs) vm0 H1 H2 H3).
Defined.

Lemma relSum_distribution_witness :
  let samples := repeat (1 # 2)%Q 160 ++ repeat (1 # 4)%Q 160 in
  let pvs := [UnitDecoder.mkPendingVowel "A" 0 0 0 "" "A";
              UnitDecoder.mkPendingVowel "I" 1 1 1 "" "I"] in
  (exists vm, In vm (vowelMarkers samples pvs) /\ (0 < rms vm)%Q) /\
  (Qsum (map relSum (vowelMarkers samples pvs)) == 1)%Q.
Proof.
  intros samples pvs.
  set (vm0 := hd (mkVowelMarker 0 0 0 0 0 "" 0 0 0 0 0 0 "") (vowelMarkers samples pvs)).
  assert (H1 : In vm0 (vowelMarkers samples pvs)) by (vm_compute; left; reflexivity).
  assert (H2 : (0 < rms vm0)%Q) by (vm_compute; reflexivity).
  assert (Hex : exists vm, In vm (vowelMarkers samples pvs) /\ (0 < rms vm)%Q) by eauto.
  split; [exact Hex|].
  exact (proj2 (relSum_distribution samples pvs) Hex).
Defined.

Lemma vowelMarkers_follow_pending_witness :
  let samples := repeat (1 # 2)%Q 320 in
  let pvs := [UnitDecoder.mkPendingVowel "A" 0 1 0 "K" "KA"] in
  samples <> [] /\
  Forall2 (fun pv vm =>
    fromFrame vm = UnitDecoder.fromFrame pv /\ toFrame vm = UnitDecoder.toFrame pv /\
    frame vm = UnitDecoder.midFrame pv /\ vowel vm = UnitDecoder.vowel pv /\
    cv vm = UnitDecoder.cv pv) pvs (vowelMarkers samples pvs).
Proof.
  intros samples pvs.
  assert (Hs : samples <> []) by discriminate.
  split; [exact Hs|]. exact (vowelMarkers_follow_pending samples pvs Hs).
Defined.

Lemma marker_rms_window_witness :
  let samples := repeat (1 # 2)%Q 320 in
  let pv := UnitDecoder.mkPendingVowel "A" 0 0 0 "" "A" in
  sampleWindow (Z.of_nat (List.length samples)) pv = (0, 160) /\
  let (s, e) := sampleWindow (Z.of_nat (List.length samples)) pv in
  (rms (vowelMarkerOf samples pv) ==
   if 0 <? e - s
   then c_sqrt (Qsum (map (fun v => v * v)%Q (sublistZ samples s e)) / inject_Z (e - s))
   else 0)%Q.
Proof.
  intros samples pv. split; [vm_compute; reflexivity|].
  exact (marker_rms_window samples pv).
Defined.

Lemma dbfs_silent_floor_witness :
  let samples := repeat 0%Q 320 in
  let pvs := [UnitDecoder.mkPendingVowel "A" 0 1 0 "" "A"] in
  let vm0 := hd (mkVowelMarker 0 0 0 0 0 "" 0 0 0 0 0 0 "") (vowelMarkers samples pvs) in
  (In vm0 (vowelMarkers samples pvs) /\ (rms vm0 == 0)%Q) /\
  (dbfs vm0 == 20 * c_log10 EPS)%Q /\ (20 * c_log10 EPS == -240)%Q.
Proof.
  intros samples pvs vm0.
  assert (H1 : In vm0 (vowelMarkers samples pvs)) by (vm_compute; left; reflexivity).
  assert (H2 : (rms vm0 == 0)%Q) by (vm_compute; reflexivity).
  split; [auto|]. split; [|vm_compute; reflexivity].
  exact (dbfs_silent_floor samples pvs vm0 H1 H2).
Defined.

End Markers.
