(* ===== verification/LipModel.v ===== *)
(** * The ADXLip frame

    [struct ADXLipFrame] (Public/ADXLipModel.h 23-29) is one row of the
    viseme track: the 60 fps frame index, its time in milliseconds, three
    mouth-shape parameters, the six viseme channels A I U E O N and the
    volume in dB.  The synthesizer ([FrameTrack.v]), the table model
    ([TableModel.v]) and the file format ([TrackCodec.v]) share it. *)

From Stdlib Require Import ZArith QArith List String.
From S2P Require Import Prelude.
Import ListNotations.
Local Open Scope Z_scope.

Module LipModel.

Record ADXLipFrame := mkADXLipFrame {
  frameIndex : Z;
  msec : Z;
  width : Q; height : Q; tongue : Q;
  A : Q; I : Q; U : Q; E : Q; O : Q; N : Q;
  vol_dB : Q
}.

(** The default member initialisers: every field 0. *)
Definition defaultFrame : ADXLipFrame :=
  mkADXLipFrame 0 0 0 0 0 0 0 0 0 0 0 0.

(** The six viseme channels, in column order. *)
Definition channels (f : ADXLipFrame) : list Q := [A f; I f; U f; E f; O f; N f].

End LipModel.
