(* ===== verification/TableModel.v ===== *)
(** * The table model [ADXLipModel]

    The Qt table model over the viseme track (Private/ADXLipModel.cpp):
    [flags], [setData], [rowCount], [columnCount], [data], [headerData]
    and [setFrames].  The model's state is its [frames_] vector, a list
    updated by index with stdpp's [!!] and [<[_:=_]>].  A [QModelIndex]
    is the triple Qt keeps (row, column, owning model), and
    [QAbstractItemModel::index] hands out a valid one only for a cell
    that exists.  A read of [frames_] out of range ([operator[]] and
    [at()] assert on it) is undefined behaviour: those operations return
    [None] for it.  A [QVariant] is one of the values the model and its
    editors exchange: invalid, an [int], a [double] or a [QString]. *)

From Stdlib Require Import ZArith QArith String.
From stdpp Require Import base list.
From S2P Require Import Prelude QtString LipModel.
Local Open Scope Z_scope.

Module TableModel.
Import LipModel.

(** ** Qt values *)

Inductive QVariant :=
| VInvalid
| VInt (z : Z)
| VDouble (q : Q)
| VString (s : string).

(** [QVariant::toInt()]: a [double] is rounded half away from zero
    ([qRound64]) and narrowed to [int]; a string is parsed as by
    [QString::toInt]; anything else gives 0. *)
Definition variantToInt (v : QVariant) : Z :=
  match v with
  | VInt z => z
  | VDouble q => wrap32 (Qround_half_away q)
  | VString s => QtString.toInt s
  | VInvalid => 0
  end.

(** [QVariant::toDouble()]. *)
Definition variantToDouble (v : QVariant) : Q :=
  match v with
  | VInt z => inject_Z z
  | VDouble q => q
  | VString s => QtString.toDouble s
  | VInvalid => 0%Q
  end.

(** [Qt::ItemDataRole] values used by the model. *)
Definition DisplayRole : Z := 0.
Definition EditRole : Z := 2.

Inductive Orientation := Horizontal | Vertical.

(** [Qt::ItemFlag] bits. *)
Definition NoItemFlags : Z := 0.
Definition ItemIsSelectable : Z := 1.
Definition ItemIsEditable : Z := 2.
Definition ItemIsEnabled : Z := 32.

(** A [QModelIndex]: row, column and whether it belongs to a model. *)
Record QModelIndex := mkIndex { row : Z; column : Z; hasModel : bool }.

Definition invalidIndex : QModelIndex := mkIndex (-1) (-1) false.

(** [QModelIndex::isValid]. *)
Definition isValid (ix : QModelIndex) : bool :=
  (0 <=? row ix) && (0 <=? column ix) && hasModel ix.

(** ** The model *)

Definition fixedParamCount : Z := 12.

Definition rowCount (frames : list ADXLipFrame) : Z := Z.of_nat (length frames).

Definition columnCount (frames : list ADXLipFrame) : Z := fixedParamCount.

(** [QAbstractItemModel::hasIndex] and [index] for a table model. *)
Definition hasIndex (frames : list ADXLipFrame) (r c : Z) : bool :=
  (0 <=? r) && (r <? rowCount frames) && (0 <=? c) && (c <? columnCount frames).

Definition index (frames : list ADXLipFrame) (r c : Z) : QModelIndex :=
  if hasIndex frames r c then mkIndex r c true else invalidIndex.

Definition flags (ix : QModelIndex) : Z :=
  if negb (isValid ix) then NoItemFlags
  else Z.lor (Z.lor ItemIsSelectable ItemIsEnabled) ItemIsEditable.

(** The [switch (index.column())] of [setData] on the row [f]: [None] is
    the [default: return false] branch. *)
Definition setColumn (c : Z) (value : QVariant) (f : ADXLipFrame) : option ADXLipFrame :=
  let d := variantToDouble value in
  match c with
  | 0 => Some (mkADXLipFrame (variantToInt value) (msec f) (width f) (height f) (tongue f)
                (A f) (I f) (U f) (E f) (O f) (N f) (vol_dB f))
  | 1 => Some (mkADXLipFrame (frameIndex f) (variantToInt value) (width f) (height f) (tongue f)
                (A f) (I f) (U f) (E f) (O f) (N f) (vol_dB f))
  | 2 => Some (mkADXLipFrame (frameIndex f) (msec f) d (height f) (tongue f)
                (A f) (I f) (U f) (E f) (O f) (N f) (vol_dB f))
  | 3 => Some (mkADXLipFrame (frameIndex f) (msec f) (width f) d (tongue f)
                (A f) (I f) (U f) (E f) (O f) (N f) (vol_dB f))
  | 4 => Some (mkADXLipFrame (frameIndex f) (msec f) (width f) (height f) d
                (A f) (I f) (U f) (E f) (O f) (N f) (vol_dB f))
  | 5 => Some (mkADXLipFrame (frameIndex f) (msec f) (width f) (height f) (tongue f)
                d (I f) (U f) (E f) (O f) (N f) (vol_dB f))
  | 6 => Some (mkADXLipFrame (frameIndex f) (msec f) (width f) (height f) (tongue f)
                (A f) d (U f) (E f) (O f) (N f) (vol_dB f))
  | 7 => Some (mkADXLipFrame (frameIndex f) (msec f) (width f) (height f) (tongue f)
                (A f) (I f) d (E f) (O f) (N f) (vol_dB f))
  | 8 => Some (mkADXLipFrame (frameIndex f) (msec f) (width f) (height f) (tongue f)
                (A f) (I f) (U f) d (O f) (N f) (vol_dB f))
  | 9 => Some (mkADXLipFrame (frameIndex f) (msec f) (width f) (height f) (tongue f)
                (A f) (I f) (U f) (E f) d (N f) (vol_dB f))
  | 10 => Some (mkADXLipFrame (frameIndex f) (msec f) (width f) (height f) (tongue f)
                (A f) (I f) (U f) (E f) (O f) d (vol_dB f))
  | 11 => Some (mkADXLipFrame (frameIndex f) (msec f) (width f) (height f) (tongue f)
                (A f) (I f) (U f) (E f) (O f) (N f) d)
  | _ => None
  end.

(** [ADXLipModel::setData]: the result and the new [frames_];
    [dataChanged] is emitted exactly when the result is [true]. *)
Definition setData (frames : list ADXLipFrame) (ix : QModelIndex) (value : QVariant) (role : Z)
  : option (bool * list ADXLipFrame) :=
  if negb (role =? EditRole) || negb (isValid ix) then Some (false, frames)
  else
    match frames !! Z.to_nat (row ix) with
    | None => None
    | Some f =>
        match setColumn (column ix) value f with
        | Some f' => Some (true, <[Z.to_nat (row ix) := f']> frames)
        | None => Some (false, frames)
        end
    end.

(** The [switch (index.column())] of [data] on the row [f]. *)
Definition cell (f : ADXLipFrame) (c : Z) : QVariant :=
  match c with
  | 0 => VInt (frameIndex f)
  | 1 => VInt (msec f)
  | 2 => VDouble (width f)
  | 3 => VDouble (height f)
  | 4 => VDouble (tongue f)
  | 5 => VDouble (A f)
  | 6 => VDouble (I f)
  | 7 => VDouble (U f)
  | 8 => VDouble (E f)
  | 9 => VDouble (O f)
  | 10 => VDouble (N f)
  | 11 => VDouble (vol_dB f)
  | _ => VInvalid
  end.

(** [ADXLipModel::data]. *)
Definition data (frames : list ADXLipFrame) (ix : QModelIndex) (role : Z) : option QVariant :=
  if negb (isValid ix) || negb (role =? DisplayRole) then Some VInvalid
  else
    match frames !! Z.to_nat (row ix) with
    | None => None
    | Some f => Some (cell f (column ix))
    end.

Definition headers : list string :=
  ["frameIndex"; "msec"; "width"; "height"; "tongue";
   "A"; "I"; "U"; "E"; "O"; "N"; "vol_dB"]%string.

(** [ADXLipModel::headerData]. *)
Definition headerData (section : Z) (orientation : Orientation) (role : Z) : QVariant :=
  if negb (role =? DisplayRole) then VInvalid
  else match orientation with
       | Vertical => VInvalid
       | Horizontal =>
           if (0 <=? section) && (section <? fixedParamCount)
           then match headers !! Z.to_nat section with Some h => VString h | None => VInvalid end
           else VInvalid
       end.

(** [ADXLipModel::setFrames]: the rows are replaced (between
    [beginResetModel] and [endResetModel]). *)
Definition setFrames (frames : list ADXLipFrame) (newFrames : list ADXLipFrame) : list ADXLipFrame :=
  newFrames.

(** ** Lemmas *)

Lemma cell_out f c : c < 0 \/ fixedParamCount <= c -> cell f c = VInvalid.
Proof.
  unfold fixedParamCount. intros Hc. destruct c as [|p|p]; try lia; [|reflexivity].
  do 4 (destruct p as [p|p|]; try reflexivity; try lia).
Qed.

Ltac column_cases c :=
  let H := fresh in
  assert (H : c = 0 \/ c = 1 \/ c = 2 \/ c = 3 \/ c = 4 \/ c = 5 \/ c = 6 \/ c = 7 \/
              c = 8 \/ c = 9 \/ c = 10 \/ c = 11) by (unfold fixedParamCount in *; lia);
  repeat destruct H as [H|H]; subst c.

(** The value a column holds after [setColumn] writes [value]. *)
Definition written (c : Z) (value : QVariant) : QVariant :=
  if c <? 2 then VInt (variantToInt value) else VDouble (variantToDouble value).

Lemma setColumn_spec c value f : 0 <= c < fixedParamCount ->
  exists f', setColumn c value f = Some f' /\ cell f' c = written c value /\
             forall c', c' <> c -> cell f' c' = cell f c'.
Proof.
  intros Hc. column_cases c; eexists; (split; [reflexivity|split; [reflexivity|]]);
    intros c' Hne; (destruct (decide (0 <= c' < fixedParamCount)) as [Hin|Hout];
      [column_cases c'; first [reflexivity | congruence]
      |rewrite !cell_out by lia; reflexivity]).
Qed.

Lemma setColumn_out c value f : c < 0 \/ fixedParamCount <= c -> setColumn c value f = None.
Proof.
  unfold fixedParamCount. intros Hc. destruct c as [|p|p]; try lia; [|reflexivity].
  do 4 (destruct p as [p|p|]; try reflexivity; try lia).
Qed.

Lemma hasIndex_spec frames r c :
  hasIndex frames r c = true <-> 0 <= r < rowCount frames /\ 0 <= c < fixedParamCount.
Proof.
  unfold hasIndex, columnCount. rewrite !andb_true_iff, !Z.leb_le, !Z.ltb_lt. tauto.
Qed.

Lemma index_valid frames r c : hasIndex frames r c = true ->
  index frames r c = mkIndex r c true /\ isValid (mkIndex r c true) = true.
Proof.
  unfold index. intros H. rewrite H. split; [reflexivity|].
  apply hasIndex_spec in H. unfold isValid. simpl. rewrite !andb_true_iff, !Z.leb_le. lia.
Qed.

Lemma index_invalid frames r c : hasIndex frames r c = false -> index frames r c = invalidIndex.
Proof. unfold index. now intros ->. Qed.

Lemma lookup_row frames r : 0 <= r < rowCount frames ->
  exists f, frames !! Z.to_nat r = Some f.
Proof.
  unfold rowCount. intros Hr. apply lookup_lt_is_Some_2. lia.
Qed.

Lemma rowCount_insert frames i f : rowCount (<[i := f]> frames) = rowCount frames.
Proof. unfold rowCount. now rewrite length_insert. Qed.

Lemma hasIndex_insert frames i f r c :
  hasIndex (<[i := f]> frames) r c = hasIndex frames r c.
Proof. unfold hasIndex. now rewrite rowCount_insert. Qed.

Lemma index_insert frames i f r c : index (<[i := f]> frames) r c = index frames r c.
Proof. unfold index. now rewrite hasIndex_insert. Qed.

(** What [setData] does to a cell that exists. *)
(** A row is determined by its twelve cells. *)
Lemma cell_ext f g : (forall c, 0 <= c < fixedParamCount -> cell f c = cell g c) -> f = g.
Proof.
  intros H. unfold fixedParamCount in H.
  pose proof (H 0 ltac:(lia)); pose proof (H 1 ltac:(lia)); pose proof (H 2 ltac:(lia));
  pose proof (H 3 ltac:(lia)); pose proof (H 4 ltac:(lia)); pose proof (H 5 ltac:(lia));
  pose proof (H 6 ltac:(lia)); pose proof (H 7 ltac:(lia)); pose proof (H 8 ltac:(lia));
  pose proof (H 9 ltac:(lia)); pose proof (H 10 ltac:(lia)); pose proof (H 11 ltac:(lia)).
  destruct f, g; cbn in *. congruence.
Qed.

Lemma setData_cell frames r c value : hasIndex frames r c = true ->
  exists f f', frames !! Z.to_nat r = Some f /\ setColumn c value f = Some f' /\
    setData frames (index frames r c) value EditRole
      = Some (true, <[Z.to_nat r := f']> frames) /\
    cell f' c = written c value /\ forall c', c' <> c -> cell f' c' = cell f c'.
Proof.
  intros H. destruct (index_valid _ _ _ H) as [-> V].
  apply hasIndex_spec in H as [Hr Hc]. destruct (lookup_row _ _ Hr) as [f Hf].
  destruct (setColumn_spec c value f Hc) as (f' & E & C & O).
  exists f, f'. repeat split; auto. unfold setData. rewrite V. simpl. now rewrite Hf, E.
Qed.

(** C16: Editing a cell through an index of the model and reading it back.
    For a cell that exists, [setData] with [Qt::EditRole] succeeds; [data]
    then shows the converted value ([value.toInt()] in the two integer
    columns, [value.toDouble()] in the ten others); the row count is
    unchanged, and every other cell shows what it showed before. *)
Theorem setData_then_data frames r c value :
  hasIndex frames r c = true ->
  exists frames',
    setData frames (index frames r c) value EditRole = Some (true, frames') /\
    data frames' (index frames' r c) DisplayRole = Some (written c value) /\
    rowCount frames' = rowCount frames /\
    forall r' c', (r', c') <> (r, c) ->
      data frames' (index frames' r' c') DisplayRole = data frames (index frames r' c') DisplayRole.
Proof.
  intros H. destruct (setData_cell _ _ _ value H) as (f & f' & Hf & _ & E & C & O).
  pose proof (proj1 (hasIndex_spec _ _ _) H) as [Hr _].
  exists (<[Z.to_nat r := f']> frames). split; [exact E|].
  rewrite !index_insert, rowCount_insert. split; [|split; [reflexivity|]].
  - destruct (index_valid _ _ _ H) as [-> V]. unfold data. rewrite V. simpl.
    rewrite list_lookup_insert_eq by (unfold rowCount in Hr; lia). now rewrite C.
  - intros r' c' Hne. rewrite index_insert. destruct (hasIndex frames r' c') eqn:H'.
    + destruct (index_valid _ _ _ H') as [-> V']. unfold data. rewrite V'. simpl.
      pose proof (proj1 (hasIndex_spec _ _ _) H') as [Hr' _].
      destruct (decide (r' = r)) as [->|Ner].
      * rewrite list_lookup_insert_eq, Hf by (unfold rowCount in Hr; lia).
        rewrite O; [reflexivity|]. congruence.
      * rewrite list_lookup_insert_ne by lia. reflexivity.
    + now rewrite index_invalid.
Qed.

(** The guards of [setData]: with a role other than [Qt::EditRole], or
    at an index the model does not have, it returns [false] and leaves
    [frames_] unchanged; at an existing row but a column past the last
    one it also returns [false] without a change. *)
Theorem setData_rejects frames ix value role :
  role <> EditRole \/ isValid ix = false \/
  (0 <= row ix < rowCount frames /\ fixedParamCount <= column ix) ->
  setData frames ix value role = Some (false, frames).
Proof.
  intros H. unfold setData.
  destruct (Z.eqb_spec role EditRole) as [->|Ne]; [|reflexivity].
  destruct (isValid ix) eqn:V; [|reflexivity]. simpl.
  destruct H as [H|[H|[Hr Hc]]]; [congruence|congruence|].
  destruct (lookup_row _ _ Hr) as [f ->]. now rewrite setColumn_out by lia.
Qed.

(** An index handed out by the model never makes [setData] or [data]
    read [frames_] out of range, whatever the row and column asked for. *)
Theorem model_index_access_defined frames r c value role role' :
  setData frames (index frames r c) value role <> None /\
  data frames (index frames r c) role' <> None.
Proof.
  destruct (hasIndex frames r c) eqn:H.
  - destruct (index_valid _ _ _ H) as [-> V]. apply hasIndex_spec in H as [Hr _].
    destruct (lookup_row _ _ Hr) as [f Hf].
    unfold setData, data. rewrite V. simpl. rewrite Hf.
    split; [destruct (role =? EditRole), (setColumn c value f)|destruct (role' =? DisplayRole)];
      discriminate.
  - rewrite index_invalid by exact H. unfold setData, data. simpl.
    split; [destruct (role =? EditRole)|]; discriminate.
Qed.

End TableModel.

Section TableModelWitnesses.
Import LipModel TableModel.

Lemma setData_then_data_witness :
  exists frames',
    setData [defaultFrame] (index [defaultFrame] 0 5) (VDouble (1#2)) EditRole = Some (true, frames') /\
    data frames' (index frames' 0 5) DisplayRole = Some (VDouble (1#2)).
Proof.
  destruct (setData_then_data [defaultFrame] 0 5 (VDouble (1#2)) eq_refl) as (fs & E & D & _).
  exists fs. split; [exact E|]. rewrite D. reflexivity.
Defined.

Lemma setData_rejects_witness :
  setData [defaultFrame] (index [defaultFrame] 0 3) (VInt 7) DisplayRole = Some (false, [defaultFrame]).
Proof. apply setData_rejects. left. discriminate. Defined.

End TableModelWitnesses.
