(* ===== verification/ItemModel.v ===== *)
(** * The item-model interface between the table view and [ADXLipModel]

    [ADXLipModel] (Public/ADXLipModel.h 81-101) derives from
    [QAbstractTableModel] and overrides [rowCount], [columnCount],
    [flags], [data] and [setData]; the [QTableView] of the window and the
    [NoCommitDelegate] reach the rows only through these overrides and
    the model indexes [index] hands out.  The class [ItemModel] is that
    interface, [ItemModelLaws] what the view relies on of it (Qt's
    contract for [QAbstractItemModel]): an index is valid exactly inside
    the grid, reading or writing through such an index is defined, and
    [setData] keeps the grid's shape and changes nothing when it returns
    [false].  The instance [adxLipModel] is [TableModel]'s model and
    [adxLipModelLaws] discharges the laws from its lemmas.

    The view's side is written once against the interface, in the
    section [View]: a paint pass that reads every cell ([paintGrid]) and
    a sequence of committed edits ([applyEdits]), the way [QTableView]
    calls the model (Qt's view, modelled from its documentation). *)

From Stdlib Require Import ZArith QArith List Lia.
From stdpp Require Import base list.
From S2P Require Import Prelude LipModel TableModel.
Import ListNotations.
Local Open Scope Z_scope.
Local Open Scope julius_scope.

Module ItemModel.
Import TableModel LipModel.

(** The overrides of [ADXLipModel], over the model's state [S]. *)
Class ItemModel (S : Type) := {
  im_rowCount : S -> Z;
  im_columnCount : S -> Z;
  im_index : S -> Z -> Z -> QModelIndex;
  im_flags : QModelIndex -> Z;
  im_data : S -> QModelIndex -> Z -> option QVariant;
  im_setData : S -> QModelIndex -> QVariant -> Z -> option (bool * S)
}.

(** What the view relies on. *)
Class ItemModelLaws (S : Type) `{ItemModel S} := {
  im_index_valid s r c :
    isValid (im_index s r c) = true <-> 0 <= r < im_rowCount s /\ 0 <= c < im_columnCount s;
  im_data_defined s r c role : im_data s (im_index s r c) role <> None;
  im_setData_defined s r c v role : im_setData s (im_index s r c) v role <> None;
  im_setData_shape s ix v role b s' :
    im_setData s ix v role = Some (b, s') ->
    im_rowCount s' = im_rowCount s /\ im_columnCount s' = im_columnCount s /\
    forall r c, im_index s' r c = im_index s r c;
  im_setData_false s ix v role s' : im_setData s ix v role = Some (false, s') -> s' = s;
  im_flags_editable ix : isValid ix = true -> Z.land (im_flags ix) ItemIsEditable <> 0
}.

#[export] Instance adxLipModel : ItemModel (list ADXLipFrame) := {
  im_rowCount := rowCount;
  im_columnCount := columnCount;
  im_index := index;
  im_flags := flags;
  im_data := data;
  im_setData := setData
}.

#[export] Instance adxLipModelLaws : ItemModelLaws (list ADXLipFrame).
Proof.
  split; cbn.
  - intros s r c. unfold columnCount. destruct (hasIndex s r c) eqn:H.
    + destruct (index_valid _ _ _ H) as [-> V]. rewrite V. split; [intros _|reflexivity].
      now apply hasIndex_spec.
    + rewrite index_invalid by exact H. cbn. split; [discriminate|].
      intros Hin. apply hasIndex_spec in Hin. congruence.
  - intros s r c role. exact (proj2 (model_index_access_defined s r c VInvalid EditRole role)).
  - intros s r c v role. exact (proj1 (model_index_access_defined s r c v role DisplayRole)).
  - intros s ix v role b s'. unfold setData.
    destruct (negb (role =? EditRole) || negb (isValid ix)); [intros [= _ <-]; auto|].
    destruct (s !! Z.to_nat (row ix)); [|discriminate].
    destruct (setColumn _ _ _); intros [= _ <-]; [|auto].
    split; [apply rowCount_insert|split; [reflexivity|]]. intros r c. apply index_insert.
  - intros s ix v role s'. unfold setData.
    destruct (negb (role =? EditRole) || negb (isValid ix)); [intros [= <-]; reflexivity|].
    destruct (s !! Z.to_nat (row ix)); [|discriminate].
    destruct (setColumn _ _ _); [discriminate|intros [= <-]; reflexivity].
  - intros ix V. unfold flags. rewrite V. cbn. discriminate.
Qed.

(** ** The view's side *)

Section View.
Context {S : Type} `{IM : ItemModel S}.

(** Reading every cell of the grid for [role], row by row. *)
Definition paintRow (s : S) (role : Z) (r : Z) : option (list QVariant) :=
  mapM (fun c => im_data s (im_index s r c) role) (map Z.of_nat (seq 0 (Z.to_nat (im_columnCount s)))).

Definition paintGrid (s : S) (role : Z) : option (list (list QVariant)) :=
  mapM (paintRow s role) (map Z.of_nat (seq 0 (Z.to_nat (im_rowCount s)))).

(** Committed edits, each a cell and a value written with [EditRole]
    through the index the model hands out; [None] is undefined behaviour. *)
Fixpoint applyEdits (s : S) (edits : list (Z * Z * QVariant)) : option S :=
  match edits with
  | [] => Some s
  | (r, c, v) :: es => '(_, s') <- im_setData s (im_index s r c) v EditRole ;; applyEdits s' es
  end.

End View.

(** ** Lemmas *)

Section ViewLemmas.
Context {S : Type} `{IML : ItemModelLaws S}.

Lemma mapM_defined {A B} (f : A -> option B) (P : B -> Prop) (l : list A) :
  (forall x, exists y, f x = Some y /\ P y) ->
  exists l', mapM f l = Some l' /\ length l' = length l /\ Forall P l'.
Proof.
  intros Hf. induction l as [|x l IH]; [exists []; auto|].
  destruct (Hf x) as (y & E & Py). destruct IH as (l' & Hl & Hlen & HP).
  exists (y :: l'). cbn. rewrite E, Hl. cbn. auto.
Qed.

Lemma paintRow_defined s role r :
  exists l, paintRow s role r = Some l /\ length l = Z.to_nat (im_columnCount s).
Proof.
  destruct (mapM_defined (fun c => im_data s (im_index s r c) role) (fun _ => True)
              (map Z.of_nat (seq 0 (Z.to_nat (im_columnCount s))))) as (l & E & L & _).
  - intros c. destruct (im_data s (im_index s r c) role) as [v|] eqn:D; [eauto|].
    exfalso. exact (im_data_defined s r c role D).
  - exists l. split; [exact E|]. rewrite L, length_map, length_seq. reflexivity.
Qed.

Lemma applyEdits_defined s edits :
  exists s', applyEdits s edits = Some s' /\ im_rowCount s' = im_rowCount s /\
             im_columnCount s' = im_columnCount s.
Proof.
  induction edits as [|[[r c] v] es IH] in s |- *; [exists s; auto|]. cbn.
  destruct (im_setData s (im_index s r c) v EditRole) as [[b s1]|] eqn:E;
    [|exfalso; exact (im_setData_defined s r c v EditRole E)].
  destruct (im_setData_shape _ _ _ _ _ _ E) as (R & C & _).
  destruct (IH s1) as (s' & -> & R' & C'). exists s'. split; [reflexivity|]. lia.
Qed.

(** Written against the interface: for every model that keeps the
    item-model laws, the view's paint pass reads every cell of the grid
    (one row of [columnCount] values per row) without undefined
    behaviour, and any sequence of edits committed through the indexes
    the model hands out is defined and keeps the grid's shape. *)
Lemma view_access_defined (s : S) role edits :
  (exists g, paintGrid s role = Some g /\ length g = Z.to_nat (im_rowCount s) /\
     Forall (fun row => length row = Z.to_nat (im_columnCount s)) g) /\
  exists s', applyEdits s edits = Some s' /\ im_rowCount s' = im_rowCount s /\
             im_columnCount s' = im_columnCount s.
Proof.
  split; [|apply applyEdits_defined].
  destruct (mapM_defined (paintRow s role) (fun row => length row = Z.to_nat (im_columnCount s))
              (map Z.of_nat (seq 0 (Z.to_nat (im_rowCount s))))) as (g & E & L & F);
    [intros r; apply paintRow_defined|].
  exists g. split; [exact E|]. split; [|exact F]. rewrite L, length_map, length_seq. reflexivity.
Qed.

End ViewLemmas.

(** C17: For [ADXLipModel], over any table: the view's paint pass reads
    every cell through [index] and [data] without reading [frames_] out
    of range, one row of twelve values per frame, and any sequence of
    edits committed through [index] and [setData] (whatever rows and
    columns they name, in range or not) is defined and leaves as many
    rows as before. *)
Theorem adx_view_access_defined (frames : list ADXLipFrame) role edits :
  (exists g, paintGrid frames role = Some g /\ length g = length frames /\
     Forall (fun row => length row = 12%nat) g) /\
  exists fs, applyEdits frames edits = Some fs /\ length fs = length frames.
Proof.
  destruct (view_access_defined frames role edits) as [(g & E & L & F) (fs & A & Rc & _)].
  cbn in L, F, Rc. unfold rowCount in L, Rc. rewrite Nat2Z.id in L.
  split; [exists g; auto|exists fs; split; [exact A|lia]].
Qed.

End ItemModel.
