(* ===== verification/TrackCodec.v ===== *)
(** * The ADXLip track file: export and import

    [ADXLipModel::exportToFile] (Private/ADXLipModel.cpp 130-161) writes
    three header lines and one line per frame with eleven comma-separated
    fields (the N channel is left out), integers in decimal and doubles
    in fixed notation with six decimals.  [JuliusAnalyzeWindow::
    onImportADXLip] (Private/JuliusAnalyzeWindow.cpp 260-371) skips three
    header lines, drops blank lines and lines of fewer than eleven fields,
    and reads eleven fields (N = 0) or twelve.  A file is its text and a
    [QTextStream]'s position the text not read yet: [readLine] takes one
    line, the header loop is [skipHeaderLines] and the [while
    (!in.atEnd())] loop is [readFrames], defined with Equations by
    well-founded recursion on the length of the unread text.  They read
    the lines of the reference splitting [readLines] ([importStream_eq]),
    on which the round-trip theorems are proved. *)

From Stdlib Require Import ZArith QArith List String Ascii Bool Lia.
From Equations Require Import Equations.
From S2P Require Import Prelude QtString LipModel.
Import ListNotations.
Local Open Scope Z_scope.
Local Open Scope string_scope.

Module TrackCodec.
Import QtString LipModel.

Definition LF : ascii := ascii_of_nat 10.
Definition CR : ascii := ascii_of_nat 13.

Definition isLF (c : ascii) : bool := Ascii.eqb c LF.
Definition isCR (c : ascii) : bool := Ascii.eqb c CR.

(** ** Export *)

Definition exportHeader (wavPath : string) : list string :=
  [ "// input: " ++ wavPath;
    "// framerate: 60 [fps]";
    "// frame count, msec, width(0-1 def=0.000), height(0-1 def=0.000), tongue(0-1 def=0.000), A(0-1), I(0-1), U(0-1), E(0-1), O(0-1), Vol(dB)" ].

(** One data line, as the [out << ...] chain writes it (without its
    line feed). *)
Definition exportRow (f : ADXLipFrame) : string :=
  intToString (frameIndex f) ++ ", " ++
  intToString (msec f) ++ ", " ++
  fixed6 (width f) ++ ", " ++
  fixed6 (height f) ++ ", " ++
  fixed6 (tongue f) ++ ", " ++
  fixed6 (A f) ++ ", " ++
  fixed6 (I f) ++ ", " ++
  fixed6 (U f) ++ ", " ++
  fixed6 (E f) ++ ", " ++
  fixed6 (O f) ++ ", " ++
  fixed6 (vol_dB f).

(** Lines written one after the other, each ended by a line feed. *)
Fixpoint joinLines (ls : list string) : string :=
  match ls with
  | [] => EmptyString
  | l :: ls' => l ++ String LF (joinLines ls')
  end.

(** [ADXLipModel::exportToFile]: [None] when the file cannot be opened
    for writing (the function returns [false]), else the text written. *)
Definition exportToFile (canOpen : bool) (frames : list ADXLipFrame) (wavPath : string)
  : option string :=
  if negb canOpen then None
  else Some (joinLines (exportHeader wavPath ++ map exportRow frames)).

(** ** Import *)

(** [QTextStream::readLine] until [atEnd]: the text cut at each line feed,
    a [\r] before the line feed dropped, and no empty line after a final
    line feed. *)
Definition stripCR (l : string) : string :=
  match rev (list_ascii_of_string l) with
  | c :: r => if isCR c then string_of_list_ascii (rev r) else l
  | [] => l
  end.

Fixpoint dropLastEmpty (ls : list string) : list string :=
  match ls with
  | [] => []
  | [l] => if String.eqb l EmptyString then [] else [l]
  | l :: ls' => l :: dropLastEmpty ls'
  end.

Definition readLines (text : string) : list string :=
  map stripCR (dropLastEmpty (split isLF text)).

(** The header loop: at most three lines are skipped, fewer at the end
    of the file. *)
Definition skipHeader (ls : list string) : list string := skipn 3 ls.

(** One data line: [None] for a blank line or one of fewer than eleven
    fields.  Each field is converted with [toInt]/[toDouble], a failed
    conversion giving 0. *)
Definition parseRow (line : string) : option ADXLipFrame :=
  let t := trimmed line in
  if String.eqb t EmptyString then None
  else
    let parts := skipEmpty (split isComma t) in
    if (List.length parts <? 11)%nat then None
    else
      let fld k := nth k parts EmptyString in
      let twelve := (12 <=? List.length parts)%nat in
      Some (mkADXLipFrame
              (toInt (fld 0%nat)) (toInt (fld 1%nat))
              (toDouble (fld 2%nat)) (toDouble (fld 3%nat)) (toDouble (fld 4%nat))
              (toDouble (fld 5%nat)) (toDouble (fld 6%nat)) (toDouble (fld 7%nat))
              (toDouble (fld 8%nat)) (toDouble (fld 9%nat))
              (if twelve then toDouble (fld 10%nat) else 0%Q)
              (if twelve then toDouble (fld 11%nat) else toDouble (fld 10%nat))).

Definition importLines (ls : list string) : list ADXLipFrame :=
  filter_map parseRow (skipHeader ls).

(** ** The reading loop *)

(** The stream's position is the text not read yet; [atEnd] is its being
    empty.  A carriage return right before a line feed ends the line with
    it ([QTextStream] takes "\r\n" as one delimiter). *)
Definition crlf (c : ascii) (r : string) : option string :=
  if isCR c then match r with String c' r' => if isLF c' then Some r' else None | EmptyString => None end
  else None.

(** [QTextStream::readLine]: the line up to the next line feed, without
    the delimiter, and the text after it; at the end of the text the rest
    is the line, a final carriage return kept. *)
Fixpoint readLine (rest : string) : string * string :=
  match rest with
  | EmptyString => (EmptyString, EmptyString)
  | String c r =>
      if isLF c then (EmptyString, r)
      else match crlf c r with
           | Some r' => (EmptyString, r')
           | None => let (l, r') := readLine r in (String c l, r')
           end
  end.

(** The header loop [for (i = 1; i <= 3; ++i) { if (in.atEnd()) break;
    in.readLine(); }]. *)
Fixpoint skipHeaderLines (k : nat) (rest : string) : string :=
  match k with
  | 0%nat => rest
  | S k' => match rest with
            | EmptyString => EmptyString
            | _ => skipHeaderLines k' (snd (readLine rest))
            end
  end.

(** The data loop [while (!in.atEnd()) { line = in.readLine(); ... }]:
    a parsed line is appended to [frames], the others are skipped
    ([continue]).  It terminates because each [readLine] consumes at
    least one character. *)
Equations? readFrames (rest : string) (frames : list ADXLipFrame) : list ADXLipFrame
  by wf (String.length rest) lt :=
  readFrames EmptyString frames := frames;
  readFrames (String c r) frames :=
    readFrames (snd (readLine (String c r)))
      (match parseRow (fst (readLine (String c r))) with
       | Some f => (frames ++ [f])%list
       | None => frames
       end).
Proof.
  assert (Hle : forall s, (String.length (snd (readLine s)) <= String.length s)%nat).
  { induction s as [|c0 s IH]; [cbn; lia|]. cbn [readLine]. destruct (isLF c0); [cbn; lia|].
    unfold crlf. destruct (isCR c0); [destruct s as [|c1 s']; [|destruct (isLF c1); [cbn; lia|]]|];
      destruct (readLine _) eqn:E; cbn in *; lia. }
  pose proof (Hle r) as Hr. cbn [readLine]. destruct (isLF c); [cbn; lia|]. unfold crlf.
  destruct (isCR c); [destruct r as [|c1 r']; [|destruct (isLF c1); [cbn; lia|]]|];
    destruct (readLine _) eqn:E; cbn in *; lia.
Defined.

(** The reading part of [onImportADXLip] on an opened file's text. *)
Definition importStream (text : string) : list ADXLipFrame :=
  readFrames (skipHeaderLines 3 text) [].

(** What the file dialog and [QFile::open] give the handler. *)
Inductive ImportSource :=
| Canceled
| CannotOpen
| Opened (text : string).

(** [JuliusAnalyzeWindow::onImportADXLip] on the model's rows: a canceled
    dialog or a file that does not open leaves them; otherwise they are
    replaced by the rows read ([setFrames]). *)
Definition onImportADXLip (src : ImportSource) (frames : list ADXLipFrame) : list ADXLipFrame :=
  match src with
  | Canceled | CannotOpen => frames
  | Opened text => importStream text
  end.

(** The eleven fields of a data line. *)
Definition rowFields (f : ADXLipFrame) : list string :=
  [intToString (frameIndex f); intToString (msec f);
   fixed6 (width f); fixed6 (height f); fixed6 (tongue f);
   fixed6 (A f); fixed6 (I f); fixed6 (U f); fixed6 (E f); fixed6 (O f);
   fixed6 (vol_dB f)].

(** The frame an exported row reads back as: the doubles kept to six
    decimals, N set to 0. *)
Definition roundTripFrame (f : ADXLipFrame) : ADXLipFrame :=
  mkADXLipFrame (frameIndex f) (msec f)
    (round6 (width f)) (round6 (height f)) (round6 (tongue f))
    (round6 (A f)) (round6 (I f)) (round6 (U f)) (round6 (E f)) (round6 (O f))
    0%Q (round6 (vol_dB f)).

(** ** Lemmas *)

Lemma exportToFile_true frames wavPath :
  exportToFile true frames wavPath = Some (joinLines (exportHeader wavPath ++ map exportRow frames)).
Proof. reflexivity. Qed.

Lemma exportRow_join f : exportRow f = joinComma (rowFields f).
Proof. reflexivity. Qed.

Lemma rowFields_ok f : Forall (fun x => numText x = true /\ x <> EmptyString) (rowFields f).
Proof.
  unfold rowFields.
  repeat constructor; auto using intToString_numText, fixed6_numText,
    intToString_nonempty, fixed6_nonempty.
Qed.

Lemma parseRow_exportRow f : in_int32 (frameIndex f) -> in_int32 (msec f) ->
  parseRow (exportRow f) = Some (roundTripFrame f).
Proof.
  intros Hi Hm. pose proof (rowFields_ok f) as OK.
  rewrite exportRow_join. unfold parseRow.
  assert (T : trimmed (joinComma (rowFields f)) = joinComma (rowFields f)).
  { unfold rowFields. destruct (joinComma_ends (intToString (frameIndex f)) (intToString (msec f))
      [fixed6 (width f); fixed6 (height f); fixed6 (tongue f); fixed6 (A f); fixed6 (I f);
       fixed6 (U f); fixed6 (E f); fixed6 (O f); fixed6 (vol_dB f)]) as [m ->].
    cbn [last]. apply trimmed_numText_ends; auto using intToString_numText, fixed6_numText,
      intToString_nonempty, fixed6_nonempty. }
  rewrite T.
  assert (S : split isComma (joinComma (rowFields f))
              = intToString (frameIndex f) :: map (String " ") (tl (rowFields f))).
  { apply (split_joinComma EmptyString); [reflexivity|].
    eapply Forall_impl; [|exact OK]. intros x [Nx _]. now apply numText_no_comma. }
  rewrite S, skipEmpty_id.
  2: { constructor; [apply intToString_nonempty|]. apply Forall_forall.
       intros x Hx. apply in_map_iff in Hx as (y & <- & _). discriminate. }
  destruct (String.eqb_spec (joinComma (rowFields f)) EmptyString) as [E|_].
  { exfalso. destruct (joinComma_ends (intToString (frameIndex f)) (intToString (msec f))
      (tl (tl (rowFields f)))) as [m E']. unfold rowFields in *. simpl tl in *.
    rewrite E' in E. destruct (intToString (frameIndex f)) eqn:Z0; [|discriminate].
    exact (intToString_nonempty _ Z0). }
  cbn -[toInt toDouble intToString fixed6].
  unfold toDouble, toInt. rewrite !toDoubleOpt_lead_space, !toIntOpt_lead_space,
    !toDoubleOpt_fixed6, !toIntOpt_intToString by assumption.
  reflexivity.
Qed.

Lemma split_joinLines ls : Forall (fun l => sepFree isLF l = true) ls ->
  split isLF (joinLines ls) = (ls ++ [EmptyString])%list.
Proof.
  induction 1 as [|l ls Hl _ IH]; [reflexivity|]. simpl joinLines.
  rewrite split_app_sep by (auto; reflexivity). now rewrite IH.
Qed.

Lemma dropLastEmpty_snoc ls : dropLastEmpty (ls ++ [EmptyString])%list = ls.
Proof.
  induction ls as [|l ls IH]; [reflexivity|].
  destruct ls as [|l' ls]; [reflexivity|]. simpl in *. now rewrite IH.
Qed.

Lemma stripCR_id l : sepFree isCR l = true -> stripCR l = l.
Proof.
  unfold stripCR, sepFree. intros H. destruct (rev (list_ascii_of_string l)) as [|c r] eqn:E; auto.
  destruct (isCR c) eqn:C; auto. exfalso.
  assert (In c (list_ascii_of_string l)) as Hc by (apply in_rev; rewrite E; now left).
  apply (proj1 (forallb_forall _ _) H) in Hc. now rewrite C in Hc.
Qed.

Lemma readLines_joinLines ls :
  Forall (fun l => sepFree isLF l = true /\ sepFree isCR l = true) ls ->
  readLines (joinLines ls) = ls.
Proof.
  intros H. unfold readLines. rewrite split_joinLines, dropLastEmpty_snoc.
  - induction H as [|l ls [_ Hl] _ IH]; [reflexivity|]. simpl. now rewrite stripCR_id, IH.
  - eapply Forall_impl; [|exact H]. now intros l [].
Qed.

Lemma exportRow_sepFree p f :
  (forall c, numChar c = true -> p c = false) -> sepFree p ", " = true ->
  sepFree p (exportRow f) = true.
Proof.
  intros Hp Hs. rewrite exportRow_join. apply joinComma_sepFree; [exact Hs|].
  eapply Forall_impl; [|apply rowFields_ok]. intros x [Nx _]. now apply numText_sepFree.
Qed.

Lemma numChar_not_LF_CR c : numChar c = true -> isLF c = false /\ isCR c = false.
Proof. destruct c as [[] [] [] [] [] [] [] []]; cbv; intuition congruence. Qed.

Lemma exported_lines_ok frames wavPath :
  sepFree isLF wavPath = true -> sepFree isCR wavPath = true ->
  Forall (fun l => sepFree isLF l = true /\ sepFree isCR l = true)
    (exportHeader wavPath ++ map exportRow frames)%list.
Proof.
  intros HL HC. apply Forall_app. split.
  - unfold exportHeader. repeat constructor; rewrite ?sepFree_app; rewrite ?HL, ?HC; reflexivity.
  - apply Forall_forall. intros l Hl. apply in_map_iff in Hl as (f & <- & _).
    split; apply exportRow_sepFree; try reflexivity; intros c Hc; apply numChar_not_LF_CR, Hc.
Qed.

Lemma filter_map_parseRow_export frames :
  Forall (fun f => in_int32 (frameIndex f) /\ in_int32 (msec f)) frames ->
  filter_map parseRow (map exportRow frames) = map roundTripFrame frames.
Proof.
  induction 1 as [|f fs [Hi Hm] _ IH]; [reflexivity|]. simpl.
  now rewrite parseRow_exportRow, IH.
Qed.

Lemma roundTripFrame_idem f : roundTripFrame (roundTripFrame f) = roundTripFrame f.
Proof. unfold roundTripFrame. simpl. now rewrite !round6_idem. Qed.

(** *** The reading loop reads the lines of [readLines] *)

Lemma dropLastEmpty_cons l ls : ls <> [] -> dropLastEmpty (l :: ls) = l :: dropLastEmpty ls.
Proof. destruct ls; [congruence|reflexivity]. Qed.

Lemma stripCR_cons c h : h <> EmptyString -> stripCR (String c h) = String c (stripCR h).
Proof.
  intros Hh. unfold stripCR. cbn [list_ascii_of_string rev].
  destruct (rev (list_ascii_of_string h)) as [|x y] eqn:E.
  - exfalso. apply (f_equal (@List.length ascii)) in E. rewrite length_rev in E.
    destruct h; [congruence|discriminate].
  - cbn [app]. destruct (isCR x); [|reflexivity]. rewrite rev_app_distr. reflexivity.
Qed.

Lemma split_head_empty p r t : r <> EmptyString -> split p r = EmptyString :: t ->
  exists c' r', r = String c' r' /\ p c' = true.
Proof.
  destruct r as [|c' r']; [congruence|]. intros _. cbn. destruct (p c') eqn:E; [eauto|].
  destruct (split p r'); discriminate.
Qed.

Lemma readLines_cons c r h t : isLF c = false -> split isLF r = h :: t ->
  readLines (String c r) = stripCR (String c h) :: map stripCR (dropLastEmpty t).
Proof. intros Hc Hs. unfold readLines. cbn [split]. rewrite Hc, Hs. destruct t; reflexivity. Qed.

Lemma readLines_split_cases r h t l X : split isLF r = h :: t -> readLines r = l :: X ->
  stripCR h = l /\ map stripCR (dropLastEmpty t) = X.
Proof.
  unfold readLines. intros ->. destruct t as [|h' t']; cbn.
  - destruct (String.eqb h EmptyString); [discriminate|]. intros E. injection E. auto.
  - intros E. injection E. auto.
Qed.

(** One [readLine] takes the first line [readLines] gives, up to the
    carriage return [readLines] also drops at the end of the text. *)
Lemma readLines_readLine rest : rest <> EmptyString ->
  exists l, readLines rest = l :: readLines (snd (readLine rest)) /\
            (l = fst (readLine rest) \/ l = stripCR (fst (readLine rest))).
Proof.
  induction rest as [|c r IH]; intros Hne; [congruence|]. cbn [readLine].
  destruct (isLF c) eqn:Hc.
  - exists EmptyString. split; [|now left]. unfold readLines. cbn [split]. rewrite Hc.
    now rewrite dropLastEmpty_cons by apply split_nonempty.
  - destruct (crlf c r) as [r'|] eqn:Hcr.
    + exists EmptyString. split; [|now left]. unfold crlf in Hcr. destruct (isCR c) eqn:HCR; [|discriminate].
      destruct r as [|c' r0]; [discriminate|]. destruct (isLF c') eqn:HL; [|discriminate].
      injection Hcr as <-. unfold readLines. cbn [split]. rewrite Hc, HL.
      rewrite dropLastEmpty_cons by apply split_nonempty. cbn [map]. unfold stripCR at 1. cbn. now rewrite HCR.
    + destruct (split isLF r) as [|h t] eqn:Hs; [now apply split_nonempty in Hs|].
      rewrite (readLines_cons c r h t Hc Hs).
      destruct (String.eqb_spec r EmptyString) as [->|Hr].
      * cbn in Hs. injection Hs as <- <-. exists (stripCR (String c EmptyString)). split; [reflexivity|now right].
      * destruct (IH Hr) as (l'' & El & Hl). destruct (readLines_split_cases _ _ _ _ _ Hs El) as [Eh Et].
        destruct (readLine r) as [l r2] eqn:Er. cbn [fst snd] in *. rewrite Et.
        exists (stripCR (String c h)). split; [reflexivity|].
        destruct (String.eqb_spec h EmptyString) as [->|Hh].
        -- destruct (split_head_empty _ _ _ Hr Hs) as (c' & r' & -> & HL).
           unfold crlf in Hcr. rewrite HL in Hcr. destruct (isCR c) eqn:HCR; [destruct (isCR c); discriminate|].
           cbn [readLine] in Er. rewrite HL in Er. injection Er as <- _. left. unfold stripCR. cbn. now rewrite HCR.
        -- rewrite stripCR_cons, Eh by exact Hh. destruct Hl as [->| ->]; [now left|].
           destruct (String.eqb_spec l EmptyString) as [->|Hl']; [now left|].
           right. symmetry. now apply stripCR_cons.
Qed.

Lemma dropWhile_app p M N : QtString.dropWhile p (M ++ N) =
  if forallb p M then QtString.dropWhile p N else (QtString.dropWhile p M ++ N)%list.
Proof. induction M as [|x M IH]; [reflexivity|]. cbn. destruct (p x); [exact IH|reflexivity]. Qed.

Lemma dropWhile_all p M : forallb p M = true -> QtString.dropWhile p M = [].
Proof.
  induction M as [|x M IH]; [reflexivity|]. cbn. intros H. apply andb_true_iff in H as [-> H]. exact (IH H).
Qed.

Lemma trimmed_stripCR l : trimmed (stripCR l) = trimmed l.
Proof.
  unfold stripCR. destruct (rev (list_ascii_of_string l)) as [|x y] eqn:E; [reflexivity|].
  destruct (isCR x) eqn:Hx; [|reflexivity].
  assert (list_ascii_of_string l = rev y ++ [x])%list as Hl
    by (rewrite <- (rev_involutive (list_ascii_of_string l)), E; reflexivity).
  assert (qIsSpace x = true) as Sx by (unfold isCR in Hx; apply Ascii.eqb_eq in Hx; now subst).
  unfold trimmed. rewrite list_ascii_of_string_of_list_ascii, Hl, dropWhile_app.
  cbn [QtString.dropWhile]. rewrite Sx. destruct (forallb qIsSpace (rev y)) eqn:F.
  - now rewrite (dropWhile_all _ (rev y) F).
  - rewrite rev_app_distr. cbn. now rewrite Sx.
Qed.

Lemma parseRow_stripCR l : parseRow (stripCR l) = parseRow l.
Proof. unfold parseRow. now rewrite trimmed_stripCR. Qed.

Lemma readFrames_spec rest frames :
  readFrames rest frames = (frames ++ filter_map parseRow (readLines rest))%list.
Proof.
  funelim (readFrames rest frames); [now rewrite app_nil_r|].
  rewrite H. destruct (readLines_readLine (String c r) ltac:(discriminate)) as (l & El & Hl).
  rewrite El. cbn [filter_map].
  replace (parseRow l) with (parseRow (fst (readLine (String c r))))
    by (destruct Hl as [-> | ->]; [reflexivity|symmetry; apply parseRow_stripCR]).
  destruct (parseRow _); [now rewrite <- app_assoc|reflexivity].
Qed.

Lemma skipHeaderLines_spec k rest : readLines (skipHeaderLines k rest) = skipn k (readLines rest).
Proof.
  revert rest. induction k as [|k IH]; intros rest; [reflexivity|].
  destruct rest as [|c r]; [reflexivity|]. cbn [skipHeaderLines]. rewrite IH.
  destruct (readLines_readLine (String c r) ltac:(discriminate)) as (l & -> & _). reflexivity.
Qed.

Lemma importStream_eq text : importStream text = importLines (readLines text).
Proof. unfold importStream. now rewrite readFrames_spec, skipHeaderLines_spec. Qed.

Lemma readLine_shorter c r : (String.length (snd (readLine (String c r))) < S (String.length r))%nat.
Proof.
  assert (Hle : forall s, (String.length (snd (readLine s)) <= String.length s)%nat).
  { induction s as [|c0 s IH]; [cbn; lia|]. cbn [readLine]. destruct (isLF c0); [cbn; lia|].
    unfold crlf. destruct (isCR c0); [destruct s as [|c1 s']; [|destruct (isLF c1); [cbn; lia|]]|];
      destruct (readLine _) eqn:E; cbn in *; lia. }
  pose proof (Hle r) as Hr. cbn [readLine]. destruct (isLF c); [cbn; lia|]. unfold crlf.
  destruct (isCR c); [destruct r as [|c1 r']; [|destruct (isLF c1); [cbn; lia|]]|];
    destruct (readLine _) eqn:E; cbn in *; lia.
Qed.

Lemma readLines_length rest : (List.length (readLines rest) <= String.length rest)%nat.
Proof.
  remember (String.length rest) as n eqn:En. revert rest En.
  induction n as [n IH] using lt_wf_ind. intros rest ->.
  destruct rest as [|c r]; [cbn; lia|].
  destruct (readLines_readLine (String c r) ltac:(discriminate)) as (l & -> & _).
  pose proof (readLine_shorter c r). cbn [List.length String.length] in *.
  specialize (IH _ H _ eq_refl). lia.
Qed.

Lemma import_of_export frames wavPath text old :
  Forall (fun f => in_int32 (frameIndex f) /\ in_int32 (msec f)) frames ->
  sepFree isLF wavPath = true -> sepFree isCR wavPath = true ->
  exportToFile true frames wavPath = Some text ->
  onImportADXLip (Opened text) old = map roundTripFrame frames.
Proof.
  intros Hf HL HC E. rewrite exportToFile_true in E.
  assert (text = joinLines (exportHeader wavPath ++ map exportRow frames)) as -> by congruence.
  unfold onImportADXLip. rewrite importStream_eq. unfold importLines.
  rewrite readLines_joinLines by (apply exported_lines_ok; assumption).
  exact (filter_map_parseRow_export frames Hf).
Qed.

(** C3: Export then import.  Importing the text [exportToFile] writes for
    a track (integers in the range of [int], a WAV path without line
    breaks) replaces the model's rows with the exported ones, in order,
    each double kept to six decimals and N set to 0. *)
Theorem export_import_roundtrip frames wavPath text old :
  Forall (fun f => in_int32 (frameIndex f) /\ in_int32 (msec f)) frames ->
  sepFree isLF wavPath = true -> sepFree isCR wavPath = true ->
  exportToFile true frames wavPath = Some text ->
  onImportADXLip (Opened text) old = map roundTripFrame frames.
Proof. exact (import_of_export frames wavPath text old). Qed.

(** C37: The round trip is stable: exporting the imported track and
    importing it again gives the same rows as the first import. *)
Theorem export_import_stable frames wavPath text1 text2 old old' :
  Forall (fun f => in_int32 (frameIndex f) /\ in_int32 (msec f)) frames ->
  sepFree isLF wavPath = true -> sepFree isCR wavPath = true ->
  exportToFile true frames wavPath = Some text1 ->
  exportToFile true (onImportADXLip (Opened text1) old) wavPath = Some text2 ->
  onImportADXLip (Opened text2) old' = onImportADXLip (Opened text1) old.
Proof.
  intros Hf HL HC E1 E2.
  rewrite (import_of_export _ _ _ _ Hf HL HC E1) in E2 |- *.
  assert (Hf' : Forall (fun f => in_int32 (frameIndex f) /\ in_int32 (msec f))
                  (map roundTripFrame frames))
    by (apply Forall_map; eapply Forall_impl; [|exact Hf]; now intros f []).
  rewrite (import_of_export _ _ _ _ Hf' HL HC E2), map_map. apply map_ext, roundTripFrame_idem.
Qed.

(** The round trip is not the identity: a row with A = 1/3 and
    N = 1/2 reads back with A = 0.333333 and N = 0. *)
Theorem export_import_loses_digits :
  let f := mkADXLipFrame 0 0 0 0 0 (1 # 3) 0 0 0 0 (1 # 2) 0 in
  exists text, exportToFile true [f] "voice.wav" = Some text /\
    map A (onImportADXLip (Opened text) []) = [333333 # 1000000]%Q /\
    map N (onImportADXLip (Opened text) []) = [0%Q] /\
    ~ (333333 # 1000000 == 1 # 3)%Q.
Proof.
  intros f. eexists. split; [reflexivity|]. vm_compute. split; [reflexivity|].
  split; [reflexivity|]. discriminate.
Qed.

(** C6: The reading loops of [onImportADXLip] terminate on every file:
    each [readLine] consumes at least one character of the unread text
    (the measure of [readFrames]), so the header loop and the
    [while (!in.atEnd())] loop together run once per line of [readLines],
    at most once per character, and they read exactly the rows
    [importLines] takes from those lines. *)
Theorem import_loop_terminates text old :
  onImportADXLip (Opened text) old = importLines (readLines text) /\
  (List.length (readLines text) <= String.length text)%nat.
Proof. split; [apply importStream_eq|apply readLines_length]. Qed.

End TrackCodec.

Section TrackCodecWitnesses.
Import LipModel TrackCodec.

Lemma export_import_roundtrip_witness :
  let frames := [mkADXLipFrame 0 0 0 0 0 1 0 0 0 0 0 (-6); mkADXLipFrame 1 17 0 0 0 0 (1 # 4) 0 0 0 0 (-9)] in
  onImportADXLip (Opened (joinLines (exportHeader "take1.wav" ++ map exportRow frames))) []
  = map roundTripFrame frames.
Proof.
  intros frames. apply (export_import_roundtrip frames "take1.wav");
    [repeat constructor; unfold in_int32, INT_MIN, INT_MAX; simpl; lia
    |vm_compute; reflexivity|vm_compute; reflexivity|reflexivity].
Defined.

Lemma export_import_stable_witness :
  let frames := [mkADXLipFrame 0 0 0 0 0 (2 # 3) 0 0 0 0 0 (-7)] in
  let text1 := joinLines (exportHeader "take1.wav" ++ map exportRow frames) in
  let text2 := joinLines (exportHeader "take1.wav" ++
                 map exportRow (onImportADXLip (Opened text1) [])) in
  onImportADXLip (Opened text2) [] = onImportADXLip (Opened text1) [].
Proof.
  intros frames text1 text2. apply (export_import_stable frames "take1.wav");
    [repeat constructor; unfold in_int32, INT_MIN, INT_MAX; simpl; lia
    |vm_compute; reflexivity|vm_compute; reflexivity|reflexivity|reflexivity].
Defined.

End TrackCodecWitnesses.
