(* ===== verification/TextFiles.v ===== *)
(** * Text-mode files: line endings between export and import

    [ADXLipModel::exportToFile] opens its file with [QIODevice::WriteOnly |
    QIODevice::Text] (Private/ADXLipModel.cpp 133) and [onImportADXLip]
    with [QIODevice::ReadOnly | QIODevice::Text] (Private/
    JuliusAnalyzeWindow.cpp 278).  In text mode Qt writes each "\n" as
    "\r\n" on Windows and as it is elsewhere ([writeText], [crlfOf]);
    reading, [QIODevice::read] drops every "\r" of the data on every
    platform ([readText], [dropCR]).  A track file may be written on one
    platform, edited by another program, and read on a third.  What is
    read then does not depend on the platform that wrote the file, and a
    carriage return right before a line feed (a file saved with Windows
    line endings) changes nothing: the lines the reading loops see are
    equal up to one carriage return at their end ([lineRel]), which
    [trimmed] removes anyway. *)

From Stdlib Require Import ZArith QArith List String Ascii Bool Lia.
From S2P Require Import Prelude QtString LipModel TrackCodec.
Import ListNotations.
Local Open Scope string_scope.

Module TextFiles.
Import QtString TrackCodec.










(** ** Lemmas *)














End TextFiles.

Section TextFilesWitnesses.
Import TrackCodec TextFiles.


End TextFilesWitnesses.
