(* ===== verification/FrameTrack.v ===== *)
(** * The 60 fps frame-track synthesiser

    Models the second half of [JuliusAnalyzeWindow::processForcedAlignmentResult]
    (Private/JuliusAnalyzeWindow.cpp 652-718): the number of 60 fps frames
    covering the buffer, and for each frame the recognizer frame it falls
    in, the first marker whose [[fromFrame, toFrame]] contains it (its
    [relMax] goes to the channel of its vowel and its [dbfs] to [vol_dB]),
    and, when [isApplySilenceCorrection] is set, the hold of the last
    voiced row over silent rows.

    [rawRow] is one row before the hold; [holdStep] is the hold with its
    state [(lastFrame, hasLastFrame)] as an [option]; [synthFrom] is the
    loop over [f60].  [heldSpec] is a reference definition of the hold
    that looks back for the last voiced row, and the loop is proved equal
    to it. *)

From Stdlib Require Import ZArith QArith Qround Qabs Lqa Lia List String Bool.
From S2P Require Import Prelude Markers LipModel.
Import ListNotations.
Local Open Scope Z_scope.
Local Open Scope julius_scope.

Module FrameTrack.
Import Markers LipModel.

(** [const double frame = 60.0f]. *)
Definition frameRate : Q := 60.

(** [int(std::ceil(totalSec * frame))] with
    [totalSec = double(totalSamples) / sampleRate]. *)
Definition frame60Cnt (totalSamples sampleRate : Z) : Z :=
  Qceiling (inject_Z totalSamples / inject_Z sampleRate * frameRate).

(** [tSec = double(f60) / frame]. *)
Definition tSec (f60 : Z) : Q := inject_Z f60 / frameRate.

(** [int(std::floor(tSec * sampleRate / FRAME_SHIFT_SAMPLES))]. *)
Definition julFrameOf (sampleRate f60 : Z) : Z :=
  Qfloor (tSec f60 * inject_Z sampleRate / inject_Z FRAME_SHIFT_SAMPLES).

(** [int(std::round(tSec * 1000.0))]. *)
Definition msecOf (f60 : Z) : Z := Qround_half_away (tSec f60 * 1000).

(** The row before any marker (lines 673-680). *)
Definition blankRow (f60 : Z) : ADXLipFrame :=
  mkADXLipFrame f60 (msecOf f60) 0 0 0 0 0 0 0 0 0 0.

(** [vm.fromFrame <= julFrame && julFrame <= vm.toFrame]. *)
Definition covers (julFrame : Z) (vm : VowelMarker) : bool :=
  (fromFrame vm <=? julFrame) && (julFrame <=? toFrame vm).

(** Lines 686-692: the six tests of [vm.vowel] and the volume. *)
Definition applyMarker (row : ADXLipFrame) (vm : VowelMarker) : ADXLipFrame :=
  let w := vowel vm in
  let v := relMax vm in
  mkADXLipFrame (frameIndex row) (msec row) (width row) (height row) (tongue row)
    (if String.eqb w "A" then v else A row)
    (if String.eqb w "I" then v else I row)
    (if String.eqb w "U" then v else U row)
    (if String.eqb w "E" then v else E row)
    (if String.eqb w "O" then v else O row)
    (if String.eqb w "N" then v else N row)
    (dbfs vm).

(** Lines 673-695: the first covering marker wins ([break]). *)
Definition rawRow (markers : list VowelMarker) (sampleRate f60 : Z) : ADXLipFrame :=
  match find_first (covers (julFrameOf sampleRate f60)) markers with
  | Some vm => applyMarker (blankRow f60) vm
  | None => blankRow f60
  end.

(** [isSilent]: all six channels exactly 0. *)
Definition isSilent (row : ADXLipFrame) : bool :=
  forallb (fun x => Qeq_bool x 0) (channels row).

(** The six channels and the volume of [last] copied into [row]. *)
Definition holdFrom (row last : ADXLipFrame) : ADXLipFrame :=
  mkADXLipFrame (frameIndex row) (msec row) (width row) (height row) (tongue row)
    (A last) (I last) (U last) (E last) (O last) (N last) (vol_dB last).

(** Lines 698-715 with [lastFrame]/[hasLastFrame] as an [option]. *)
Definition holdStep (last : option ADXLipFrame) (row : ADXLipFrame)
  : option ADXLipFrame * ADXLipFrame :=
  if isSilent row then
    match last with
    | Some lf => (last, holdFrom row lf)
    | None => (last, row)
    end
  else (Some row, row).

(** The loop over [f60] from [f60] on, [k] iterations. *)
Fixpoint synthFrom (markers : list VowelMarker) (sampleRate : Z) (apply : bool)
    (k : nat) (f60 : Z) (last : option ADXLipFrame) : list ADXLipFrame :=
  match k with
  | Datatypes.O => []
  | S k' =>
      let row := rawRow markers sampleRate f60 in
      let (last', row') := if apply then holdStep last row else (last, row) in
      row' :: synthFrom markers sampleRate apply k' (f60 + 1) last'
  end.

(** The frames handed to [adxModel_->setFrames] (lines 655-723). *)
Definition buildAdxFrames (markers : list VowelMarker) (totalSamples sampleRate : Z)
    (applySilenceCorrection : bool) : list ADXLipFrame :=
  synthFrom markers sampleRate applySilenceCorrection
    (Z.to_nat (frame60Cnt totalSamples sampleRate)) 0 None.

(** ** The reference definition of the hold *)

(** The last voiced row of a list of raw rows. *)
Fixpoint lastVoiced (rows : list ADXLipFrame) : option ADXLipFrame :=
  match rows with
  | [] => None
  | r :: rs =>
      match lastVoiced rs with
      | Some v => Some v
      | None => if isSilent r then None else Some r
      end
  end.

(** A silent row takes the channels of the last voiced row before it. *)
Definition heldRow (before : list ADXLipFrame) (row : ADXLipFrame) : ADXLipFrame :=
  if isSilent row then
    match lastVoiced before with Some lf => holdFrom row lf | None => row end
  else row.

Fixpoint heldSpec_aux (before rows : list ADXLipFrame) : list ADXLipFrame :=
  match rows with
  | [] => []
  | r :: rs => heldRow before r :: heldSpec_aux (before ++ [r]) rs
  end.

Definition heldSpec (rows : list ADXLipFrame) : list ADXLipFrame := heldSpec_aux [] rows.

(** The raw rows of [k] iterations from [f60]. *)
Definition rawRows (markers : list VowelMarker) (sampleRate : Z) (k : nat) (f60 : Z)
  : list ADXLipFrame :=
  map (fun i => rawRow markers sampleRate (f60 + Z.of_nat i)) (seq 0 k).

(** A row whose channels are in [[0,1]] with at most one of them
    non-zero. *)
Definition rowOK (row : ADXLipFrame) : Prop :=
  Forall (fun x => 0 <= x <= 1)%Q (channels row) /\
  (List.length (filter (fun x => negb (Qeq_bool x 0)) (channels row)) <= 1)%nat.

(** ** Lemmas *)

Lemma rawRows_S ms r k f :
  rawRows ms r (S k) f = rawRow ms r f :: rawRows ms r k (f + 1).
Proof.
  unfold rawRows. simpl. rewrite Z.add_0_r. f_equal.
  rewrite <- seq_shift, map_map. apply map_ext. intros i. f_equal. lia.
Qed.

Lemma lastVoiced_snoc l r :
  lastVoiced (l ++ [r]) = if isSilent r then lastVoiced l else Some r.
Proof.
  induction l as [|x l IH]; simpl.
  - destruct (isSilent r); reflexivity.
  - rewrite IH. destruct (isSilent r); [reflexivity|]. reflexivity.
Qed.

Lemma isSilent_holdFrom row lf : isSilent (holdFrom row lf) = isSilent lf.
Proof. reflexivity. Qed.

Lemma holdFrom_keys row lf :
  frameIndex (holdFrom row lf) = frameIndex row /\ msec (holdFrom row lf) = msec row.
Proof. split; reflexivity. Qed.

(** The loop with the hold, from any point: the state [last] is the last
    voiced row of the rows before. *)
Lemma synthFrom_held ms r k f before :
  synthFrom ms r true k f (lastVoiced before) = heldSpec_aux before (rawRows ms r k f).
Proof.
  revert f before. induction k as [|k IH]; intros f before; [reflexivity|].
  rewrite rawRows_S. simpl. unfold holdStep, heldRow.
  destruct (isSilent (rawRow ms r f)) eqn:Es.
  - assert (Hl : lastVoiced (before ++ [rawRow ms r f]) = lastVoiced before)
      by (rewrite lastVoiced_snoc, Es; reflexivity).
    destruct (lastVoiced before) as [lf|] eqn:Elv; simpl; f_equal;
      rewrite <- IH, Hl; reflexivity.
  - f_equal. rewrite <- IH, lastVoiced_snoc, Es. reflexivity.
Qed.

Lemma synthFrom_raw ms r k f last : synthFrom ms r false k f last = rawRows ms r k f.
Proof.
  revert f. induction k as [|k IH]; intros f; [reflexivity|].
  rewrite rawRows_S. simpl. now rewrite IH.
Qed.

Lemma synthFrom_keys ms r a k f last :
  map (fun row => (frameIndex row, msec row)) (synthFrom ms r a k f last) =
  map (fun i => (f + Z.of_nat i, msecOf (f + Z.of_nat i))) (seq 0 k).
Proof.
  revert f last. induction k as [|k IH]; intros f last; [reflexivity|].
  simpl. rewrite <- seq_shift, map_map.
  assert (Hrow : frameIndex (rawRow ms r f) = f /\ msec (rawRow ms r f) = msecOf f).
  { unfold rawRow. destruct (find_first _ _); split; reflexivity. }
  destruct a; [destruct (holdStep last (rawRow ms r f)) as [l' row'] eqn:Eh|].
  - assert (frameIndex row' = f /\ msec row' = msecOf f) as [H1 H2].
    { revert Eh. unfold holdStep. destruct (isSilent _); [destruct last|]; intros Eh; inv Eh;
        simpl; tauto. }
    simpl. rewrite H1, H2, IH, Z.add_0_r. f_equal. apply map_ext. intros i.
    rewrite ?Zpos_P_of_succ_nat, ?Nat2Z.inj_succ.
    replace (f + Z.succ (Z.of_nat i)) with (f + 1 + Z.of_nat i) by lia. reflexivity.
  - simpl. destruct Hrow as [-> ->]. rewrite IH, Z.add_0_r.
    f_equal. apply map_ext. intros i.
    rewrite ?Zpos_P_of_succ_nat, ?Nat2Z.inj_succ.
    replace (f + Z.succ (Z.of_nat i)) with (f + 1 + Z.of_nat i) by lia. reflexivity.
Qed.

(** The six channels after [applyMarker] on a blank row. *)
Lemma applyMarker_blank_channels f vm :
  channels (applyMarker (blankRow f) vm) =
  [if String.eqb (vowel vm) "A" then relMax vm else 0%Q;
   if String.eqb (vowel vm) "I" then relMax vm else 0%Q;
   if String.eqb (vowel vm) "U" then relMax vm else 0%Q;
   if String.eqb (vowel vm) "E" then relMax vm else 0%Q;
   if String.eqb (vowel vm) "O" then relMax vm else 0%Q;
   if String.eqb (vowel vm) "N" then relMax vm else 0%Q].
Proof. reflexivity. Qed.

Lemma rowOK_blank f : rowOK (blankRow f).
Proof. split; [repeat constructor; simpl; lra | simpl; lia]. Qed.

Lemma rowOK_applyMarker f vm : (0 <= relMax vm <= 1)%Q -> rowOK (applyMarker (blankRow f) vm).
Proof.
  intros Hv. unfold rowOK. rewrite applyMarker_blank_channels.
  generalize dependent (relMax vm). intros v Hv. generalize (vowel vm). intros w.
  assert (H0 : (0 <= 0 <= 1)%Q) by lra.
  destruct (String.eqb_spec w "A") as [->|];
  [|destruct (String.eqb_spec w "I") as [->|];
  [|destruct (String.eqb_spec w "U") as [->|];
  [|destruct (String.eqb_spec w "E") as [->|];
  [|destruct (String.eqb_spec w "O") as [->|];
  [|destruct (String.eqb_spec w "N") as [->|]]]]]];
  repeat match goal with H : ?w <> ?c |- context [String.eqb ?w ?c] =>
           rewrite (proj2 (String.eqb_neq w c) H) end;
  simpl; (split; [repeat (apply Forall_cons; [auto|]); apply Forall_nil|]);
  try (destruct (Qeq_bool v 0); simpl; lia); simpl; lia.
Qed.

Lemma rowOK_rawRow ms r f :
  Forall (fun vm => 0 <= relMax vm <= 1)%Q ms -> rowOK (rawRow ms r f).
Proof.
  intros Hms. unfold rawRow. destruct (find_first _ _) as [vm|] eqn:E; [|apply rowOK_blank].
  apply find_first_Some in E as [Hin _]. apply rowOK_applyMarker.
  rewrite Forall_forall in Hms. auto.
Qed.

Lemma rowOK_holdFrom row lf : rowOK lf -> rowOK (holdFrom row lf).
Proof. intros H. exact H. Qed.

Lemma synthFrom_rowOK ms r a k f last :
  Forall (fun vm => 0 <= relMax vm <= 1)%Q ms ->
  (forall lf, last = Some lf -> rowOK lf) ->
  Forall rowOK (synthFrom ms r a k f last).
Proof.
  intros Hms. revert f last. induction k as [|k IH]; intros f last Hlast; simpl; [constructor|].
  pose proof (rowOK_rawRow ms r f Hms) as Hrow.
  destruct a.
  - unfold holdStep. destruct (isSilent (rawRow ms r f)).
    + destruct last as [lf|].
      * constructor; [apply rowOK_holdFrom; auto | apply IH; auto].
      * constructor; [auto | apply IH; auto].
    + constructor; [auto | apply IH; intros lf E; inv E; auto].
  - constructor; [auto | apply IH; auto].
Qed.

Lemma synthFrom_voiced_after ms r k f lf :
  isSilent lf = false -> forallb (fun x => negb (isSilent x)) (synthFrom ms r true k f (Some lf)) = true.
Proof.
  revert f lf. induction k as [|k IH]; intros f lf Hlf; [reflexivity|].
  simpl. unfold holdStep. destruct (isSilent (rawRow ms r f)) eqn:Es; simpl.
  - rewrite isSilent_holdFrom, Hlf. simpl. now apply IH.
  - rewrite Es. simpl. now apply IH.
Qed.

Lemma synthFrom_no_gap ms r k f last pre row post :
  synthFrom ms r true k f last = pre ++ row :: post -> isSilent row = false ->
  forallb (fun x => negb (isSilent x)) post = true.
Proof.
  revert f last pre. induction k as [|k IH]; intros f last pre; simpl.
  - destruct pre; discriminate.
  - destruct (holdStep last (rawRow ms r f)) as [l' row'] eqn:Eh.
    destruct pre as [|p pre]; simpl; intros E Hrow; inv E; [|eapply IH; eauto].
    revert Eh. unfold holdStep. destruct (isSilent (rawRow ms r f)) eqn:Es.
    + destruct last as [lf|]; intros Eh; inv Eh; [|congruence].
      apply synthFrom_voiced_after. now rewrite <- isSilent_holdFrom with (row := rawRow ms r f).
    + intros Eh; inv Eh. now apply synthFrom_voiced_after.
Qed.

Lemma Qfloor_half_bounds (x : Q) :
  (x - (1 # 2) < inject_Z (Qfloor (x + (1 # 2))) <= x + (1 # 2))%Q.
Proof.
  pose proof (Qfloor_le (x + (1 # 2))). pose proof (Qlt_floor (x + (1 # 2))).
  rewrite inject_Z_plus in *. change (inject_Z 1) with 1%Q in *. split; lra.
Qed.

(** ** Properties *)

(** C13: The track has one row per 60 fps frame of the buffer,
    [ceil(totalSamples / sampleRate * 60)] rows, whose frame indices are
    exactly [0, 1, 2, ...] and whose times are [round(f60 * 1000 / 60)]
    milliseconds, with or without the silence hold. *)
Theorem buildAdxFrames_index_time ms T r a :
  map (fun row => (frameIndex row, msec row)) (buildAdxFrames ms T r a) =
  map (fun i => (Z.of_nat i, msecOf (Z.of_nat i))) (seq 0 (Z.to_nat (frame60Cnt T r))).
Proof. unfold buildAdxFrames. rewrite synthFrom_keys. reflexivity. Qed.

(** C12: With the silence correction, the loop equals the reference hold:
    each silent raw row takes the six channels and the volume of the last
    voiced raw row before it, if any; voiced rows are kept. *)
Theorem buildAdxFrames_hold_spec ms T r :
  buildAdxFrames ms T r true = heldSpec (rawRows ms r (Z.to_nat (frame60Cnt T r)) 0).
Proof. exact (synthFrom_held ms r _ 0 []). Qed.

(** without the silence correction, every row is the raw row of its
    frame: silent rows stay at zero. *)
Theorem buildAdxFrames_no_hold ms T r :
  buildAdxFrames ms T r false = rawRows ms r (Z.to_nat (frame60Cnt T r)) 0.
Proof. apply synthFrom_raw. Qed.

(** C35: When every marker's [relMax] is in [[0,1]] (as the marker
    builder guarantees), every row of the track has its six channels in
    [[0,1]] and at most one of them non-zero. *)
Theorem buildAdxFrames_single_viseme ms T r a :
  Forall (fun vm => 0 <= relMax vm <= 1)%Q ms -> Forall rowOK (buildAdxFrames ms T r a).
Proof. intros H. apply synthFrom_rowOK; [exact H | discriminate]. Qed.

(** C36: With the silence correction, once a voiced row has been
    produced no later row is silent. *)
Theorem buildAdxFrames_no_silent_gap ms T r pre row post :
  buildAdxFrames ms T r true = pre ++ row :: post -> isSilent row = false ->
  forallb (fun x => negb (isSilent x)) post = true.
Proof. apply synthFrom_no_gap. Qed.

(** when several markers cover the recognizer frame of a row, the
    first of them in list order sets the row: its [relMax] in the channel
    of its vowel and its [dbfs] as the volume. *)
Theorem rawRow_first_match ms1 vm ms2 r f :
  forallb (fun m => negb (covers (julFrameOf r f) m)) ms1 = true ->
  covers (julFrameOf r f) vm = true ->
  rawRow (ms1 ++ vm :: ms2) r f = applyMarker (blankRow f) vm.
Proof. intros H1 H2. unfold rawRow. now rewrite find_first_app. Qed.

(** the time of a row is within half a millisecond of
    [f60 * 1000 / 60] and strictly increases from row to row. *)
Theorem msecOf_bounds f :
  0 <= f ->
  (Qabs (inject_Z (msecOf f) - tSec f * 1000) <= 1 # 2)%Q /\ msecOf f < msecOf (f + 1).
Proof.
  intros Hf. unfold msecOf.
  assert (H0 : (0 <= tSec f * 1000)%Q).
  { unfold tSec, frameRate. assert (0 <= inject_Z f)%Q by (unfold Qle; simpl; lia).
    apply Qmult_le_0_compat; [apply Qle_shift_div_l; [reflexivity|lra] | discriminate]. }
  assert (H1 : (0 <= tSec (f + 1) * 1000)%Q).
  { unfold tSec, frameRate. assert (0 <= inject_Z (f + 1))%Q by (unfold Qle; simpl; lia).
    apply Qmult_le_0_compat; [apply Qle_shift_div_l; [reflexivity|lra] | discriminate]. }
  rewrite !Qround_half_away_nonneg by assumption.
  assert (Hd : (tSec (f + 1) * 1000 == tSec f * 1000 + (50 # 3))%Q).
  { unfold tSec, frameRate. rewrite inject_Z_plus. field. }
  destruct (Qfloor_half_bounds (tSec f * 1000)) as [A1 A2].
  destruct (Qfloor_half_bounds (tSec (f + 1) * 1000)) as [B1 B2].
  split.
  - apply Qabs_Qle_condition. split; lra.
  - rewrite Zlt_Qlt. lra.
Qed.

Lemma buildAdxFrames_single_viseme_witness :
  let ms := [mkVowelMarker 0 2 1 160 (1 # 5) "I" (1 # 2) 0 (-6) (1 # 2) 1 0 "KI"] in
  Forall (fun vm => 0 <= relMax vm <= 1)%Q ms /\ Forall rowOK (buildAdxFrames ms 800 16000 true).
Proof.
  intros ms.
  assert (H : Forall (fun vm => 0 <= relMax vm <= 1)%Q ms)
    by (constructor; [split; vm_compute; discriminate | constructor]).
  split; [exact H|]. exact (buildAdxFrames_single_viseme ms 800 16000 true H).
Defined.

Lemma buildAdxFrames_no_silent_gap_witness :
  let ms := [mkVowelMarker 0 0 0 0 0 "A" (1 # 2) 0 (-6) 1 1 0 "A"] in
  let rows := buildAdxFrames ms 800 16000 true in
  (rows = [] ++ hd defaultFrame rows :: tl rows /\ isSilent (hd defaultFrame rows) = false) /\
  forallb (fun x => negb (isSilent x)) (tl rows) = true.
Proof.
  intros ms rows.
  assert (H1 : rows = [] ++ hd defaultFrame rows :: tl rows) by (vm_compute; reflexivity).
  assert (H2 : isSilent (hd defaultFrame rows) = false) by (vm_compute; reflexivity).
  split; [auto|]. exact (buildAdxFrames_no_silent_gap ms 800 16000 [] _ _ H1 H2).
Defined.

Lemma rawRow_first_match_witness :
  let m1 := mkVowelMarker 10 20 15 0 0 "O" (1 # 2) 0 (-6) 1 1 0 "O" in
  let vm := mkVowelMarker 0 4 2 0 0 "A" (1 # 2) 0 (-6) 1 1 0 "A" in
  let m2 := mkVowelMarker 0 4 2 0 0 "I" (1 # 4) 0 (-12) (1 # 2) 1 0 "I" in
  (forallb (fun m => negb (covers (julFrameOf 16000 2) m)) [m1] = true /\
   covers (julFrameOf 16000 2) vm = true) /\
  rawRow ([m1] ++ vm :: [m2]) 16000 2 = applyMarker (blankRow 2) vm.
Proof.
  intros m1 vm m2.
  assert (H1 : forallb (fun m => negb (covers (julFrameOf 16000 2) m)) [m1] = true)
    by (vm_compute; reflexivity).
  assert (H2 : covers (julFrameOf 16000 2) vm = true) by (vm_compute; reflexivity).
  split; [auto|]. exact (rawRow_first_match [m1] vm [m2] 16000 2 H1 H2).
Defined.

Lemma msecOf_bounds_witness :
  0 <= 7 /\ (Qabs (inject_Z (msecOf 7) - tSec 7 * 1000) <= 1 # 2)%Q /\ msecOf 7 < msecOf (7 + 1).
Proof. split; [lia|]. apply msecOf_bounds. lia. Defined.

End FrameTrack.
