(* ===== verification/Waveform.v ===== *)
(** * The waveform widget

    [WaveformWidget] (Private/WaveformWidget.cpp, Public/WaveformWidget.h)
    holds the mono samples of the loaded WAV file, its sample rate, the
    first sample shown, the playhead and the markers drawn over the wave.
    Modelled here: [loadFromFile] (the libsndfile read as a record of what
    [sf_open]/[sf_readf_float] return, and the down-mix to mono),
    [setViewPosition], the playhead updates of the two media-player
    lambdas, [setVowelMarkers], [setMarkerLabelMode], and the index
    arithmetic of [paintEvent]: the per-column min/max vector [agg], read
    and written by index (stdpp's [!!] and [<[_:=_]>], an access out of
    range being undefined behaviour, [None]), and the x coordinates of
    the markers and of the playhead.  [paintEvent] returns its drawing
    calls in order ([DrawCmd]): the background, the zero line, the filled
    min/max path, one line per pixel column, a dot and a label per marker
    in view (the label formatted as the [labelMode_] switch does) and the
    playhead; pens, brushes and the gradient are left out. *)

From Stdlib Require Import ZArith QArith Qround Lqa String.
From stdpp Require Import base list.
From S2P Require Import Prelude QtString Markers.
Local Open Scope Z_scope.
Local Open Scope julius_scope.

Module Waveform.
Import QtString Markers.

Inductive MarkerLabelMode :=
| AIUEON | CV | dBFS | RelSum | RelMax | RelVowelSum | NormPos | LabelNone.

Record Widget := mkWidget {
  samples : list Q;
  sampleRate : Z;
  viewOffset : Z;
  playheadSample : Z;
  markers : list VowelMarker;
  labelMode : MarkerLabelMode
}.

(** The member initialisers of the header. *)
Definition initWidget : Widget := mkWidget [] 0 0 (-1) [] AIUEON.

Definition totalSampleCount (w : Widget) : Z := Z.of_nat (length (samples w)).

(** ** Loading *)

(** What libsndfile reports for an opened file: [sfinfo.samplerate],
    [sfinfo.channels], [sfinfo.frames], the interleaved buffer of
    [frames * channels] floats (zero where nothing was read) and the
    frame count [sf_readf_float] returned. *)
Record SFInfo := mkSFInfo {
  sfSamplerate : Z;
  sfChannels : Z;
  sfFrames : Z;
  sfBuffer : list Q;
  sfReadcount : Z
}.

(** [samples_[i] = sum / channels], the sum over the channels of frame [i]. *)
Definition downmix (channels frames : Z) (buffer : list Q) : list Q :=
  map (fun i => Qsum (map (fun ch => nth (Z.to_nat (i * channels + ch)) buffer 0%Q)
                          (map Z.of_nat (seq 0 (Z.to_nat channels)))) / inject_Z channels)%Q
      (map Z.of_nat (seq 0 (Z.to_nat frames))).

(** [WaveformWidget::loadFromFile]: [None] is a file [sf_open] cannot
    open.  The samples, view offset and rate are reset first, so a failed
    load leaves an empty widget. *)
Definition loadFromFile (w : Widget) (file : option SFInfo) : bool * Widget :=
  let w0 := mkWidget [] 0 0 (playheadSample w) (markers w) (labelMode w) in
  match file with
  | None => (false, w0)
  | Some sf =>
      let w1 := mkWidget [] (sfSamplerate sf) 0 (playheadSample w) (markers w) (labelMode w) in
      if sfReadcount sf <=? 0 then (false, w1)
      else (true, mkWidget (downmix (sfChannels sf) (sfFrames sf) (sfBuffer sf))
                           (sfSamplerate sf) 0 (playheadSample w) (markers w) (labelMode w))
  end.

(** [setViewPosition]: [qBound(0, sampleIndex, samples_.size())]. *)
Definition setViewPosition (w : Widget) (sampleIndex : Z) : Widget :=
  mkWidget (samples w) (sampleRate w) (qBound 0 sampleIndex (totalSampleCount w))
           (playheadSample w) (markers w) (labelMode w).

(** The [positionChanged] lambda: [int(ms * sampleRate_ / 1000)] in
    64-bit arithmetic, narrowed to [int]. *)
Definition onPositionChanged (w : Widget) (ms : Z) : Widget :=
  mkWidget (samples w) (sampleRate w) (viewOffset w)
           (wrap32 (Z.quot (ms * sampleRate w) 1000)) (markers w) (labelMode w).

(** The [EndOfMedia] branch of the [mediaStatusChanged] lambda. *)
Definition onEndOfMedia (w : Widget) : Widget :=
  mkWidget (samples w) (sampleRate w) (viewOffset w) 0 (markers w) (labelMode w).

Definition setVowelMarkers (w : Widget) (ms : list VowelMarker) : Widget :=
  mkWidget (samples w) (sampleRate w) (viewOffset w) (playheadSample w) ms (labelMode w).

Definition setMarkerLabelMode (w : Widget) (m : MarkerLabelMode) : Widget :=
  mkWidget (samples w) (sampleRate w) (viewOffset w) (playheadSample w) (markers w) m.

(** ** Paint geometry *)

(** [qMin] and [qMax] on floats. *)
Definition qMinQ (a b : Q) : Q := if negb (Qle_bool b a) then a else b.
Definition qMaxQ (a b : Q) : Q := if negb (Qle_bool b a) then b else a.

(** [int(double(i) / window * W)]: the column of the [i]-th shown sample. *)
Definition aggIndex (i window W : Z) : Z :=
  Qtrunc (inject_Z i / inject_Z window * inject_Z W).

(** One turn of the [agg] loop: [agg[x].mi = qMin(...)],
    [agg[x].ma = qMax(...)]. *)
Definition aggStep (window W : Z) (acc : option (list (Q * Q))) (iv : Z * Q)
  : option (list (Q * Q)) :=
  agg <- acc ;;
  let x := aggIndex (fst iv) window W in
  if x <? 0 then None
  else match agg !! Z.to_nat x with
       | None => None
       | Some (mi, ma) => Some (<[Z.to_nat x := (qMinQ mi (snd iv), qMaxQ ma (snd iv))]> agg)
       end.

(** The shown samples [samples_[offset + i]] for [i < window], with [i]. *)
Definition shown (w : Widget) (window : Z) : list (Z * Q) :=
  map (fun i => (i, nth (Z.to_nat (viewOffset w + i)) (samples w) 0%Q))
      (map Z.of_nat (seq 0 (Z.to_nat window))).

(** The [agg] vector [paintEvent] builds for a widget [W] pixels wide
    ([None]: an out-of-range [agg[x]]), or [Some []] on the early
    returns of an empty widget or an empty window. *)
Definition aggregate (w : Widget) (W : Z) : option (list (Q * Q)) :=
  let total := totalSampleCount w in
  let window := total - viewOffset w in
  if (total =? 0) || (window <=? 0) then Some []
  else fold_left (aggStep window W) (shown w window) (Some (replicate (Z.to_nat W) (1%Q, (-1)%Q))).

(** [samplePos = int(vm.normPos * total)]. *)
Definition markerSamplePos (total : Z) (vm : VowelMarker) : Z :=
  Qtrunc (normPos vm * inject_Z total).

(** The marker loop: [None] for a marker skipped by the range check, else
    its x coordinate [int(relNorm * W)]. *)
Definition markerX (w : Widget) (W : Z) (vm : VowelMarker) : option Z :=
  let total := totalSampleCount w in
  let samplePos := markerSamplePos total vm in
  if (samplePos <? viewOffset w) || (total <=? samplePos) then None
  else Some (Qtrunc (inject_Z (samplePos - viewOffset w) / inject_Z (total - viewOffset w)
                     * inject_Z W)).

(** The playhead line: drawn when [playheadSample_ >= viewOffset_]. *)
Definition playheadX (w : Widget) (W : Z) : option Z :=
  if viewOffset w <=? playheadSample w then
    Some (Qtrunc (inject_Z (playheadSample w - viewOffset w)
                  / inject_Z (totalSampleCount w - viewOffset w) * inject_Z W))
  else None.

(** ** The drawing *)

(** The marker colours ([Qt::red] ... [Qt::cyan]). *)
Inductive QtColor := Red | Green | Blue | Yellow | Magenta | Cyan.

(** The drawing calls of [paintEvent], in order. *)
Inductive DrawCmd :=
| DrawBackground                                (** [p.fillRect(rect(), grad)] *)
| DrawNoWave                                    (** [drawText(..., "(No Wave)")] *)
| DrawZeroLine (y W : Z)                        (** [drawLine(0, H / 2, W, H / 2)] *)
| DrawFill (path : list (Z * Z))                (** [drawPath(fillPath)] *)
| DrawColumn (x y1 y2 : Z)                      (** [drawLine(x, y1, x, y2)] *)
| DrawMarker (x : Z) (c : QtColor)              (** [drawEllipse(QPointF(mx, H / 2.0), 5, 5)] *)
| DrawLabel (x : Z) (y : Q) (text : string)     (** [drawText(mx + 6, H / 2.0 - 6, label)] *)
| DrawPlayhead (x H : Z).                       (** [drawLine(x, 0, x, H)] *)

(** [H / 2 - int(v * (H / 2))]: the y coordinate of a sample value. *)
Definition colY (H : Z) (v : Q) : Z := Z.quot H 2 - Qtrunc (v * inject_Z (Z.quot H 2)).

(** The columns [x = 0 .. W - 1] with their [agg[x]]. *)
Definition columns (agg : list (Q * Q)) : list (Z * (Q * Q)) :=
  combine (map Z.of_nat (seq 0 (length agg))) agg.

(** [fillPath]: from the zero line along the maxima to the right, back
    along the minima to the left. *)
Definition fillPath (H W : Z) (cols : list (Z * (Q * Q))) : list (Z * Z) :=
  ((0, Z.quot H 2) :: map (fun c => (fst c, colY H (snd (snd c)))) cols ++
   (W - 1, Z.quot H 2) :: map (fun c => (fst c, colY H (fst (snd c)))) (rev cols))%list.

(** The upper and lower edge of a column. *)
Definition drawColumn (H : Z) (c : Z * (Q * Q)) : DrawCmd :=
  DrawColumn (fst c) (colY H (snd (snd c))) (colY H (fst (snd c))).

Definition markerColor (v : string) : QtColor :=
  if String.eqb v "A" then Red else if String.eqb v "I" then Green
  else if String.eqb v "U" then Blue else if String.eqb v "E" then Yellow
  else if String.eqb v "O" then Magenta else Cyan.

(** The label of the [switch (labelMode_)]. *)
Definition markerLabel (m : MarkerLabelMode) (vm : VowelMarker) : string :=
  match m with
  | AIUEON => vowel vm
  | CV => cv vm
  | dBFS => fixedK 1 (dbfs vm)
  | RelSum => fixedK 2 (relSum vm)
  | RelMax => fixedK 2 (relMax vm)
  | RelVowelSum => fixedK 2 (relVowelSum vm)
  | NormPos => fixedK 2 (normPos vm)
  | LabelNone => EmptyString
  end.

(** One turn of the marker loop: nothing for a marker out of view, else
    its dot and, unless empty, its label. *)
Definition drawMarker (w : Widget) (W H : Z) (vm : VowelMarker) : list DrawCmd :=
  match markerX w W vm with
  | None => []
  | Some mx =>
      DrawMarker mx (markerColor (vowel vm)) ::
      (let label := markerLabel (labelMode w) vm in
       if String.eqb label EmptyString then [] else [DrawLabel (mx + 6) (inject_Z H / 2 - 6)%Q label])
  end.

(** [paintEvent] for a widget [W] by [H] pixels: the drawing calls, or
    [None] where [agg[x]] is out of range (undefined behaviour). *)
Definition paintEvent (w : Widget) (W H : Z) : option (list DrawCmd) :=
  let total := totalSampleCount w in
  let window := total - viewOffset w in
  if total =? 0 then Some [DrawBackground; DrawNoWave]
  else if window <=? 0 then Some [DrawBackground]
  else
    agg <- aggregate w W ;;
    let cols := columns agg in
    Some ([DrawBackground; DrawZeroLine (Z.quot H 2) W; DrawFill (fillPath H W cols)] ++
          map (drawColumn H) cols ++ flat_map (drawMarker w W H) (markers w) ++
          match playheadX w W with Some x => [DrawPlayhead x H] | None => [] end)%list.

(** ** Lemmas *)

Lemma Qtrunc_nonneg q : (0 <= q)%Q -> Qtrunc q = Qfloor q.
Proof. intros H. unfold Qtrunc. apply Qle_bool_iff in H. now rewrite H. Qed.

(** The column of a ratio [d / n] of a width [W] lies in [[0, W)]. *)
Lemma trunc_ratio_bounds d n W : 0 <= d < n -> 0 < W ->
  0 <= Qtrunc (inject_Z d / inject_Z n * inject_Z W) < W.
Proof.
  intros [Hd Hn] HW.
  assert (Hn' : (0 < inject_Z n)%Q) by (unfold Qlt; simpl; lia).
  assert (Hq0 : (0 <= inject_Z d / inject_Z n * inject_Z W)%Q).
  { apply Qmult_le_0_compat; [apply Qle_shift_div_l; [exact Hn'|]|];
      rewrite ?Qmult_0_l; unfold Qle; simpl; lia. }
  assert (HqW : (inject_Z d / inject_Z n * inject_Z W < inject_Z W)%Q).
  { rewrite <- (Qmult_1_l (inject_Z W)) at 2. apply Qmult_lt_r; [unfold Qlt; simpl; lia|].
    apply Qlt_shift_div_r; [exact Hn'|]. rewrite Qmult_1_l. unfold Qlt; simpl; lia. }
  rewrite Qtrunc_nonneg by exact Hq0. split.
  - pose proof (Qfloor_resp_le 0 _ Hq0) as H. simpl in H. exact H.
  - pose proof (Qfloor_le (inject_Z d / inject_Z n * inject_Z W)) as H.
    rewrite Zlt_Qlt. eapply Qle_lt_trans; eassumption.
Qed.

Lemma aggIndex_bounds i window W : 0 <= i < window -> 0 < W -> 0 <= aggIndex i window W < W.
Proof. apply trunc_ratio_bounds. Qed.

Lemma qMinQ_le a b : (qMinQ a b <= a)%Q /\ (qMinQ a b <= b)%Q.
Proof.
  unfold qMinQ. destruct (Qle_bool b a) eqn:E; simpl.
  - apply Qle_bool_iff in E. split; [exact E|apply Qle_refl].
  - assert (~ (b <= a)%Q) as H by (intros H; apply Qle_bool_iff in H; congruence).
    apply Qnot_le_lt in H. split; [apply Qle_refl|now apply Qlt_le_weak].
Qed.

Lemma qMaxQ_ge a b : (a <= qMaxQ a b)%Q /\ (b <= qMaxQ a b)%Q.
Proof.
  unfold qMaxQ. destruct (Qle_bool b a) eqn:E; simpl.
  - apply Qle_bool_iff in E. split; [apply Qle_refl|exact E].
  - assert (~ (b <= a)%Q) as H by (intros H; apply Qle_bool_iff in H; congruence).
    apply Qnot_le_lt in H. split; [now apply Qlt_le_weak|apply Qle_refl].
Qed.

Lemma fold_aggStep_None window W l : fold_left (aggStep window W) l None = None.
Proof. induction l; simpl; auto. Qed.

(** The invariant of the [agg] loop: the vector keeps its width, and each
    sample already visited lies between the min and max of its column. *)
Definition envelope (window : Z) (W : Z) (agg : list (Q * Q)) (seen : list (Z * Q)) : Prop :=
  length agg = Z.to_nat W /\
  Forall (fun iv => exists mi ma, agg !! Z.to_nat (aggIndex (fst iv) window W) = Some (mi, ma) /\
                                  (mi <= snd iv <= ma)%Q) seen.

Lemma aggStep_envelope window W agg seen i v :
  0 <= i < window -> 0 < W -> envelope window W agg seen ->
  exists agg', aggStep window W (Some agg) (i, v) = Some agg' /\
               envelope window W agg' ((i, v) :: seen).
Proof.
  intros Hi HW [Hlen Hseen].
  destruct (aggIndex_bounds i window W Hi HW) as [Hx0 HxW].
  destruct (lookup_lt_is_Some_2 agg (Z.to_nat (aggIndex i window W))) as [[mi ma] Hl]; [lia|].
  unfold aggStep. simpl. destruct (Z.ltb_spec (aggIndex i window W) 0); [lia|]. rewrite Hl.
  eexists; split; [reflexivity|]. split; [now rewrite length_insert|].
  destruct (qMinQ_le mi v), (qMaxQ_ge ma v).
  constructor.
  - exists (qMinQ mi v), (qMaxQ ma v). simpl. rewrite list_lookup_insert_eq by lia. auto.
  - eapply Forall_impl; [exact Hseen|]. intros [j u] (mj & mk & Hj & Hb). simpl in *.
    destruct (decide (Z.to_nat (aggIndex j window W) = Z.to_nat (aggIndex i window W))) as [E|E].
    + rewrite E in Hj |- *. rewrite Hl in Hj. inv Hj.
      exists (qMinQ mj v), (qMaxQ mk v). rewrite list_lookup_insert_eq by lia.
      split; [reflexivity|]. split; eapply Qle_trans; eauto; apply Hb.
    + exists mj, mk. rewrite list_lookup_insert_ne by congruence. auto.
Qed.

Lemma fold_aggStep_envelope window W l agg seen :
  Forall (fun iv => 0 <= fst iv < window) l -> 0 < W -> envelope window W agg seen ->
  exists agg', fold_left (aggStep window W) l (Some agg) = Some agg' /\
               envelope window W agg' (rev l ++ seen).
Proof.
  intros Hl HW. revert agg seen. induction Hl as [|[i v] l Hi _ IH]; intros agg seen He.
  - exists agg. auto.
  - destruct (aggStep_envelope window W agg seen i v Hi HW He) as (agg1 & E1 & He1).
    cbn [fold_left]. rewrite E1. destruct (IH agg1 _ He1) as (agg' & E & He').
    exists agg'. split; [exact E|]. simpl. now rewrite <- app_assoc.
Qed.

Lemma shown_indices w window : Forall (fun iv => 0 <= fst iv < window) (shown w window).
Proof.
  unfold shown. apply List.Forall_forall. intros [i v] H.
  apply in_map_iff in H as (j & E & Hj). inv E. apply in_map_iff in Hj as (k & <- & Hk).
  apply in_seq in Hk. simpl. lia.
Qed.

(** *** The drawn geometry *)

Lemma qMinQ_cases a b : qMinQ a b = a \/ qMinQ a b = b.
Proof. unfold qMinQ. destruct (negb (Qle_bool b a)); auto. Qed.

Lemma qMaxQ_cases a b : qMaxQ a b = a \/ qMaxQ a b = b.
Proof. unfold qMaxQ. destruct (negb (Qle_bool b a)); auto. Qed.

Lemma aggStep_shape window W agg iv agg' :
  aggStep window W (Some agg) iv = Some agg' ->
  exists mi ma, agg !! Z.to_nat (aggIndex (fst iv) window W) = Some (mi, ma) /\
    agg' = <[Z.to_nat (aggIndex (fst iv) window W) := (qMinQ mi (snd iv), qMaxQ ma (snd iv))]> agg.
Proof.
  destruct iv as [i v]. unfold aggStep. cbn [fst snd].
  destruct (aggIndex i window W <? 0); [discriminate|].
  destruct (agg !! _) as [[mi ma]|]; [|discriminate]. intros H. inv H. eauto.
Qed.

(** What the [agg] loop keeps: the width, values in [[-1, 1]] when the
    samples are, and the initial [{+1, -1}] of every column no sample
    falls into. *)
Lemma fold_aggStep_shape window W l agg agg' :
  fold_left (aggStep window W) l (Some agg) = Some agg' ->
  length agg' = length agg /\
  (Forall (fun e => (-1 <= fst e <= 1)%Q /\ (-1 <= snd e <= 1)%Q) agg ->
   Forall (fun iv => (-1 <= snd iv <= 1)%Q) l ->
   Forall (fun e => (-1 <= fst e <= 1)%Q /\ (-1 <= snd e <= 1)%Q) agg') /\
  (forall k, Forall (fun iv => Z.to_nat (aggIndex (fst iv) window W) <> k) l -> agg' !! k = agg !! k).
Proof.
  revert agg. induction l as [|iv l IH]; intros agg H; [inv H; auto|].
  cbn [fold_left] in H. destruct (aggStep window W (Some agg) iv) as [a1|] eqn:E1;
    [|rewrite fold_aggStep_None in H; discriminate].
  destruct (IH a1 H) as (IHl & IHr & IHk). destruct (aggStep_shape _ _ _ _ _ E1) as (mi & ma & Hk & ->).
  split; [now rewrite IHl, length_insert|]. split.
  - intros Ha Hl. inversion Hl as [|? ? Hv Hl']; subst. apply IHr; [|exact Hl'].
    apply Forall_insert; [exact Ha|]. destruct (Forall_lookup_1 _ _ _ _ Ha Hk) as [Hmi Hma]. cbn in *.
    destruct (qMinQ_cases mi (snd iv)) as [->| ->], (qMaxQ_cases ma (snd iv)) as [->| ->]; cbn; tauto.
  - intros k Hl. inversion Hl as [|? ? Hv Hl']; subst. rewrite IHk by exact Hl'.
    apply list_lookup_insert_ne. congruence.
Qed.

Lemma shown_values w window :
  (forall v, In v (samples w) -> (-1 <= v <= 1)%Q) -> Forall (fun iv => (-1 <= snd iv <= 1)%Q) (shown w window).
Proof.
  intros Hs. unfold shown. apply List.Forall_forall. intros [i v] H.
  apply in_map_iff in H as (j & E & _). injection E as <- <-.
  destruct (nth_in_or_default (Z.to_nat (viewOffset w + j)) (samples w) 0%Q) as [Hin| ->]; [now apply Hs|].
  split; discriminate.
Qed.

Lemma Qtrunc_inject z : Qtrunc (inject_Z z) = z.
Proof.
  unfold Qtrunc. destruct (Qle_bool 0 (inject_Z z)); [apply Qfloor_Z|].
  change (- inject_Z z)%Q with (inject_Z (- z)). rewrite Qfloor_Z. lia.
Qed.

Lemma Qtrunc_bounds h q : 0 <= h -> (- inject_Z h <= q <= inject_Z h)%Q -> - h <= Qtrunc q <= h.
Proof.
  intros Hh [H1 H2]. unfold Qtrunc. destruct (Qle_bool 0 q) eqn:E.
  - apply Qle_bool_iff in E. pose proof (Qfloor_resp_le _ _ E). pose proof (Qfloor_resp_le _ _ H2).
    rewrite Qfloor_Z in *. change (Qfloor 0) with 0 in *. lia.
  - assert (0 <= - q)%Q as E'.
    { apply Qopp_le_compat in H1. destruct (Qlt_le_dec q 0) as [Hq|Hq]; [lra|].
      apply Qle_bool_iff in Hq. congruence. }
    assert (- q <= inject_Z h)%Q as H1' by (apply Qopp_le_compat in H1; rewrite Qopp_involutive in H1; exact H1).
    pose proof (Qfloor_resp_le _ _ E'). pose proof (Qfloor_resp_le _ _ H1').
    rewrite Qfloor_Z in *. change (Qfloor 0) with 0 in *. lia.
Qed.

(** A value in [[-1, 1]] is drawn between the top and the bottom. *)
Lemma colY_bounds H v : 0 <= H -> (-1 <= v <= 1)%Q -> 0 <= colY H v <= H.
Proof.
  intros HH Hv. unfold colY. assert (0 <= Z.quot H 2) as Hh by (apply Z.quot_pos; lia).
  assert (2 * Z.quot H 2 <= H) by (pose proof (Z.mul_quot_le H 2); lia).
  assert (0 <= inject_Z (Z.quot H 2))%Q as Hq by (unfold Qle; cbn; lia).
  pose proof (Qtrunc_bounds (Z.quot H 2) (v * inject_Z (Z.quot H 2)) Hh) as B.
  destruct B; [split; nra|]. lia.
Qed.

(** The initial [{+1, -1}] of a column is drawn from the bottom line to
    the top one. *)
Lemma colY_sentinel H : colY H (-1) = 2 * Z.quot H 2 /\ colY H 1 = 0.
Proof.
  unfold colY. replace (-1 * inject_Z (Z.quot H 2))%Q with (inject_Z (- Z.quot H 2))
    by (unfold Qmult, inject_Z; cbn; f_equal; lia).
  replace (1 * inject_Z (Z.quot H 2))%Q with (inject_Z (Z.quot H 2))
    by (unfold Qmult, inject_Z; cbn; f_equal; lia).
  rewrite !Qtrunc_inject. lia.
Qed.

Lemma combine_seq_In {A} (l : list A) s k e :
  l !! k = Some e -> In (Z.of_nat (s + k), e) (combine (map Z.of_nat (seq s (length l))) l).
Proof.
  revert s k. induction l as [|a l IH]; intros s k H; [discriminate|].
  destruct k as [|k]; cbn in H |- *; [inv H; left; f_equal; lia|].
  right. replace (s + S k)%nat with (S s + k)%nat by lia. now apply IH.
Qed.

Lemma columns_In agg k e : agg !! k = Some e -> In (Z.of_nat k, e) (columns agg).
Proof. exact (combine_seq_In agg 0 k e). Qed.

Lemma columns_Forall agg :
  Forall (fun c => 0 <= fst c < Z.of_nat (length agg) /\ In (snd c) agg) (columns agg).
Proof.
  apply List.Forall_forall. intros [x e] H. cbn [fst snd]. split; [|exact (in_combine_r _ _ _ _ H)].
  apply in_combine_l, in_map_iff in H as (n & <- & Hn). apply in_seq in Hn. lia.
Qed.

(** The [agg] of a widget whose view offset is in the samples. *)
Lemma aggregate_eq w W :
  0 <= viewOffset w < totalSampleCount w ->
  aggregate w W = fold_left (aggStep (totalSampleCount w - viewOffset w) W)
                    (shown w (totalSampleCount w - viewOffset w)) (Some (replicate (Z.to_nat W) (1%Q, (-1)%Q))).
Proof.
  intros Ho. unfold aggregate. destruct (Z.eqb_spec (totalSampleCount w) 0); [lia|].
  destruct (Z.leb_spec (totalSampleCount w - viewOffset w) 0); [lia|]. reflexivity.
Qed.

Lemma paintEvent_eq w W H :
  0 <= viewOffset w < totalSampleCount w ->
  paintEvent w W H =
    (agg <- aggregate w W ;;
     Some ([DrawBackground; DrawZeroLine (Z.quot H 2) W; DrawFill (fillPath H W (columns agg))] ++
           map (drawColumn H) (columns agg) ++ flat_map (drawMarker w W H) (markers w) ++
           match playheadX w W with Some x => [DrawPlayhead x H] | None => [] end)%list).
Proof.
  intros Ho. unfold paintEvent. destruct (Z.eqb_spec (totalSampleCount w) 0); [lia|].
  destruct (Z.leb_spec (totalSampleCount w - viewOffset w) 0); [lia|]. reflexivity.
Qed.

Lemma column_ok agg W H c :
  Forall (fun e => (-1 <= fst e <= 1)%Q /\ (-1 <= snd e <= 1)%Q) agg -> length agg = Z.to_nat W ->
  0 <= W -> 0 <= H -> In c (columns agg) ->
  0 <= fst c < W /\ 0 <= colY H (fst (snd c)) <= H /\ 0 <= colY H (snd (snd c)) <= H.
Proof.
  intros Ha Hl HW HH Hc.
  destruct (proj1 (List.Forall_forall _ _) (columns_Forall agg) c Hc) as [Hx Hin].
  destruct (proj1 (List.Forall_forall _ _) Ha _ Hin) as [Hmi Hma].
  rewrite Hl, Z2Nat.id in Hx by exact HW. auto using colY_bounds.
Qed.

(** The min/max columns of [paintEvent].  For a widget at least one
    pixel wide whose view offset lies inside the samples, every [agg[x]]
    the loop reads or writes is inside the vector: [agg] keeps its [W]
    entries, and each shown sample lies between the minimum and the
    maximum recorded for its column. *)
Theorem paint_agg_envelope w W :
  0 < W -> 0 <= viewOffset w < totalSampleCount w ->
  exists agg, aggregate w W = Some agg /\ length agg = Z.to_nat W /\
    Forall (fun iv => exists mi ma,
              agg !! Z.to_nat (aggIndex (fst iv) (totalSampleCount w - viewOffset w) W) = Some (mi, ma) /\
              (mi <= snd iv <= ma)%Q)
      (shown w (totalSampleCount w - viewOffset w)).
Proof.
  intros HW Ho. unfold aggregate.
  destruct (Z.eqb_spec (totalSampleCount w) 0); [lia|].
  destruct (Z.leb_spec (totalSampleCount w - viewOffset w) 0); [lia|]. simpl.
  destruct (fold_aggStep_envelope (totalSampleCount w - viewOffset w) W
              (shown w (totalSampleCount w - viewOffset w)) (replicate (Z.to_nat W) (1%Q, (-1)%Q)) [])
    as (agg & E & Hlen & Hf); [apply shown_indices|exact HW|split; [apply length_replicate|constructor]|].
  exists agg. split; [exact E|]. split; [exact Hlen|].
  rewrite app_nil_r in Hf. rewrite <- (rev_involutive (shown _ _)). now apply List.Forall_rev.
Qed.

(** A marker that passes the range check of the marker loop is drawn
    at an x coordinate inside the widget. *)
Theorem markerX_in_widget w W vm x :
  0 < W -> markerX w W vm = Some x -> 0 <= x < W.
Proof.
  intros HW. unfold markerX.
  destruct (markerSamplePos (totalSampleCount w) vm <? viewOffset w) eqn:E1; [discriminate|].
  destruct (totalSampleCount w <=? markerSamplePos (totalSampleCount w) vm) eqn:E2; [discriminate|].
  simpl. intros H. inv H. apply Z.ltb_ge in E1. apply Z.leb_gt in E2.
  apply trunc_ratio_bounds; lia.
Qed.

(** C30: A pixel column that no shown sample falls into (there are
    such columns whenever fewer samples are shown than the widget has
    pixels) keeps the initial [{+1, -1}] of [agg] and is drawn as a line
    from the bottom ([2 * (H / 2)]) to the top (0) of the widget: short
    clips and views near the end of the file are drawn as solid bands. *)
Theorem paint_unsampled_column_full_height w W H x :
  0 < W -> 0 <= viewOffset w < totalSampleCount w -> 0 <= x < W ->
  (forall i, 0 <= i < totalSampleCount w - viewOffset w ->
             aggIndex i (totalSampleCount w - viewOffset w) W <> x) ->
  exists cmds, paintEvent w W H = Some cmds /\ In (DrawColumn x (2 * Z.quot H 2) 0) cmds.
Proof.
  intros HW Ho Hx Hmiss. rewrite paintEvent_eq, aggregate_eq by exact Ho.
  set (window := totalSampleCount w - viewOffset w) in *.
  destruct (fold_aggStep_envelope window W (shown w window) (replicate (Z.to_nat W) (1%Q, (-1)%Q)) [])
    as (agg & E & _); [apply shown_indices|exact HW|split; [apply length_replicate|constructor]|].
  rewrite E. eexists; split; [reflexivity|].
  destruct (fold_aggStep_shape _ _ _ _ _ E) as (_ & _ & Hk).
  assert (agg !! Z.to_nat x = Some (1%Q, (-1)%Q)) as Hx'.
  { rewrite Hk; [apply lookup_replicate_2; lia|].
    apply List.Forall_forall. intros [i v] Hi E'. cbn [fst] in E'.
    pose proof (proj1 (List.Forall_forall _ _) (shown_indices w window) _ Hi) as Hb. cbn [fst] in Hb.
    pose proof (aggIndex_bounds i window W Hb HW). apply (Hmiss i Hb). lia. }
  apply in_or_app. right. apply in_or_app. left. apply in_map_iff.
  exists (Z.of_nat (Z.to_nat x), (1%Q, (-1)%Q)). split; [|now apply columns_In].
  unfold drawColumn. cbn [fst snd]. destruct (colY_sentinel H) as [-> ->]. f_equal. lia.
Qed.

(** C29: The geometry [paintEvent] draws stays in the widget when the
    samples lie in [[-1, 1]] (as libsndfile's normalised floats do): the
    columns and the points of the filled path have x in [[0, W)] and y in
    [[0, H]], and every marker dot has x in [[0, W)]. *)
Theorem paint_geometry_in_bounds w W H cmds :
  0 < W -> 0 <= H -> (forall v, In v (samples w) -> (-1 <= v <= 1)%Q) ->
  paintEvent w W H = Some cmds ->
  Forall (fun c => match c with
                   | DrawColumn x y1 y2 => 0 <= x < W /\ 0 <= y1 <= H /\ 0 <= y2 <= H
                   | DrawFill path => Forall (fun p => 0 <= fst p < W /\ 0 <= snd p <= H) path
                   | DrawMarker x _ => 0 <= x < W
                   | _ => True
                   end) cmds.
Proof.
  intros HW HH Hs. unfold paintEvent.
  destruct (totalSampleCount w =? 0) eqn:T0; [intros E; inv E; repeat constructor|].
  destruct (totalSampleCount w - viewOffset w <=? 0) eqn:T1; [intros E; inv E; repeat constructor|].
  destruct (aggregate w W) as [agg|] eqn:Ea; [|discriminate]. intros E. inv E.
  unfold aggregate in Ea. rewrite T0, T1 in Ea.
  destruct (fold_aggStep_shape _ _ _ _ _ Ea) as (Hl & Hr & _).
  rewrite length_replicate in Hl.
  assert (Forall (fun e : Q * Q => (-1 <= fst e <= 1)%Q /\ (-1 <= snd e <= 1)%Q)
            (replicate (Z.to_nat W) (1%Q, (-1)%Q))) as Hrep by (apply Forall_replicate; cbn; lra).
  specialize (Hr Hrep (shown_values w _ Hs)).
  assert (0 <= Z.quot H 2 <= H) by (split; [apply Z.quot_pos|pose proof (Z.mul_quot_le H 2)]; lia).
  apply List.Forall_forall. intros c Hc. cbn [In] in Hc. rewrite !in_app_iff in Hc.
  destruct Hc as [<-|[<-|[<-|[Hc|[Hc|Hc]]]]]; try exact I.
  - apply List.Forall_forall. intros p Hp.
    unfold fillPath in Hp. cbn [In] in Hp. rewrite in_app_iff in Hp. cbn [In] in Hp.
    rewrite !in_map_iff in Hp. setoid_rewrite <- in_rev in Hp.
    destruct Hp as [<-|[(c & <- & Hc)|[<-|(c & <- & Hc)]]]; cbn [fst snd]; try lia;
      destruct (column_ok agg W H c Hr Hl ltac:(lia) HH Hc) as (? & ? & ?); lia.
  - apply in_map_iff in Hc as (c' & <- & Hc).
    destruct (column_ok agg W H c' Hr Hl ltac:(lia) HH Hc) as (? & ? & ?). unfold drawColumn. lia.
  - apply in_flat_map in Hc as (vm & _ & Hc). unfold drawMarker in Hc.
    destruct (markerX w W vm) as [mx|] eqn:Em; [|destruct Hc].
    destruct Hc as [<-|Hc]; [exact (markerX_in_widget w W vm mx HW Em)|].
    destruct (String.eqb _ _); [destruct Hc|]. destruct Hc as [<-|[]]. exact I.
  - destruct (playheadX w W); [destruct Hc as [<-|[]]; exact I|destruct Hc].
Qed.

End Waveform.

Section WaveformWitnesses.
Import Waveform.

Lemma paint_agg_envelope_witness :
  let w := mkWidget [1#2; -1#4; 1#8]%Q 16000 0 (-1) [] AIUEON in
  exists agg, aggregate w 2 = Some agg /\ length agg = 2%nat.
Proof.
  intros w. destruct (paint_agg_envelope w 2) as (agg & E & L & _);
    [lia|unfold totalSampleCount; simpl; lia|].
  exists agg. split; [exact E|exact L].
Defined.

Lemma markerX_in_widget_witness :
  let w := mkWidget [1#2; -1#4; 1#8]%Q 16000 0 (-1) [] AIUEON in
  let vm := Markers.mkVowelMarker 0 4 2 1 (1#3) "A" 0 0 0 0 0 0 "A" in
  markerX w 300 vm = Some 100 /\ 0 <= 100 < 300.
Proof.
  intros w vm. assert (E : markerX w 300 vm = Some 100) by reflexivity.
  split; [exact E|]. exact (markerX_in_widget w 300 vm 100 ltac:(lia) E).
Defined.

Lemma paint_unsampled_column_full_height_witness :
  let w := mkWidget (repeat (1#2)%Q 10) 16000 0 (-1) [] AIUEON in
  exists cmds, paintEvent w 20 100 = Some cmds /\ In (DrawColumn 1 100 0) cmds.
Proof.
  intros w.
  assert (Hmiss : forall i, 0 <= i < totalSampleCount w - viewOffset w ->
                            aggIndex i (totalSampleCount w - viewOffset w) 20 <> 1).
  { intros i Hi. change (totalSampleCount w - viewOffset w) with 10 in *.
    assert (i = 0 \/ i = 1 \/ i = 2 \/ i = 3 \/ i = 4 \/ i = 5 \/ i = 6 \/ i = 7 \/ i = 8 \/ i = 9)
      as R by lia.
    repeat destruct R as [->|R]; [..|subst]; vm_compute; discriminate. }
  exact (paint_unsampled_column_full_height w 20 100 1 ltac:(lia) ltac:(unfold totalSampleCount; cbn; lia)
           ltac:(lia) Hmiss).
Defined.

Lemma paint_geometry_in_bounds_witness :
  let w := mkWidget (repeat (1#2)%Q 10 ++ repeat (-1#4)%Q 10) 16000 0 (-1) [] AIUEON in
  exists cmds, paintEvent w 8 60 = Some cmds /\
  Forall (fun c => match c with
                   | DrawColumn x y1 y2 => 0 <= x < 8 /\ 0 <= y1 <= 60 /\ 0 <= y2 <= 60
                   | DrawFill path => Forall (fun p => 0 <= fst p < 8 /\ 0 <= snd p <= 60) path
                   | DrawMarker x _ => 0 <= x < 8
                   | _ => True
                   end) cmds.
Proof.
  intros w. eexists. split; [reflexivity|].
  apply (paint_geometry_in_bounds w 8 60); [lia|lia| |reflexivity].
  intros v Hv. apply in_app_or in Hv as [Hv|Hv]; apply repeat_spec in Hv; subst; lra.
Defined.

End WaveformWitnesses.
