(* ===== verification/Window.v ===== *)
(** * The analysis window

    [JuliusAnalyzeWindow] (Private/JuliusAnalyzeWindow.cpp) ties the parts
    together.  Its state here is the record [Window]: the loaded WAV path,
    the waveform widget, the position slider, the alignment parser's
    members, [vowelMarkers_], the rows of the table model and the
    silence-correction switch.  Each slot is a function on that record:
    [onLoadWav] with [updateSliderRangeFromWave], [onExportADXLip],
    [onImportADXLip], [onRunJulius], the [readyReadStandardOutput] lambda
    that feeds [parseForcedAlignment] and, at the end of a block,
    [processForcedAlignmentResult], and the lambdas of [setupConnections]
    for the media position, the check box and the label-mode combo box,
    whose items are those [setupUi] adds ([labelModeItems]).
    What a slot does outside the state (message boxes, starting Julius,
    writing to its standard input, writing a file) is the list of
    [Effect]s it returns, in order.  [onRunJulius] returns [None] where it
    converts an infinite [double] to [int] (undefined behaviour).  The
    chunks here are [string]s of the parser's model; [LogDecode] relates
    them to the bytes Julius writes. *)

From Stdlib Require Import ZArith QArith Qround List String Ascii Bool Lia.
From S2P Require Import Prelude QtString Cmath UnitDecoder AlignmentParser Markers LipModel TrackCodec FrameTrack Waveform.
Import ListNotations.
Local Open Scope string_scope.
Local Open Scope Z_scope.
Local Open Scope julius_scope.

Module Window.
Import AlignmentParser Markers FrameTrack Waveform.

Record Window := mkWindow {
  loadedWavPath : string;
  widget : Widget;
  sliderMin : Z;
  sliderMax : Z;
  sliderValue : Z;
  parser : ParserState;
  vowelMarkers_ : list VowelMarker;
  frames : list LipModel.ADXLipFrame;
  isApplySilenceCorrection : bool
}.

(** After the constructor: a [QSlider] ranges over [0..99]; the check box
    starts unchecked. *)
Definition initWindow : Window :=
  mkWindow EmptyString initWidget 0 99 0 initParser [] [] false.

Inductive Effect :=
| EWarning (msg : string)
| ECritical (msg : string)
| EStart (program : string) (args : list string)
| EWrite (bytes : string)
| ECloseWrite
| EDeleteLater
| EWriteFile (path text : string).

(** ** Field updates *)

Definition setWidget (st : Window) (w : Widget) : Window :=
  mkWindow (loadedWavPath st) w (sliderMin st) (sliderMax st) (sliderValue st)
    (parser st) (vowelMarkers_ st) (frames st) (isApplySilenceCorrection st).

Definition setSlider (st : Window) (mn mx v : Z) : Window :=
  mkWindow (loadedWavPath st) (widget st) mn mx v
    (parser st) (vowelMarkers_ st) (frames st) (isApplySilenceCorrection st).

Definition setPath (st : Window) (p : string) : Window :=
  mkWindow p (widget st) (sliderMin st) (sliderMax st) (sliderValue st)
    (parser st) (vowelMarkers_ st) (frames st) (isApplySilenceCorrection st).

Definition setParser (st : Window) (ps : ParserState) : Window :=
  mkWindow (loadedWavPath st) (widget st) (sliderMin st) (sliderMax st) (sliderValue st)
    ps (vowelMarkers_ st) (frames st) (isApplySilenceCorrection st).

Definition setMarkers (st : Window) (vms : list VowelMarker) : Window :=
  mkWindow (loadedWavPath st) (widget st) (sliderMin st) (sliderMax st) (sliderValue st)
    (parser st) vms (frames st) (isApplySilenceCorrection st).

Definition setTrack (st : Window) (fs : list LipModel.ADXLipFrame) : Window :=
  mkWindow (loadedWavPath st) (widget st) (sliderMin st) (sliderMax st) (sliderValue st)
    (parser st) (vowelMarkers_ st) fs (isApplySilenceCorrection st).

Definition setSilence (st : Window) (on : bool) : Window :=
  mkWindow (loadedWavPath st) (widget st) (sliderMin st) (sliderMax st) (sliderValue st)
    (parser st) (vowelMarkers_ st) (frames st) on.

(** ** The position slider *)

(** [QAbstractSlider::setRange]: a maximum below the minimum becomes the
    minimum, and the value is bounded again. *)
Definition sliderSetRange (st : Window) (mn mx : Z) : Window :=
  let mx' := Z.max mn mx in setSlider st mn mx' (qBound mn (sliderValue st) mx').

(** [QAbstractSlider::setValue]: the value is bounded by the range. *)
Definition sliderSetValue (st : Window) (v : Z) : Window :=
  setSlider st (sliderMin st) (sliderMax st) (qBound (sliderMin st) v (sliderMax st)).

(** [updateSliderRangeFromWave]: [totalSamples * 1000 / rate] in [int]. *)
Definition totalMsOf (totalSamples rate : Z) : Z :=
  if 0 <? rate then Z.quot (totalSamples *i 1000) rate else 0.

Definition updateSliderRangeFromWave (st : Window) : Window :=
  let totalMs := totalMsOf (totalSampleCount (widget st)) (sampleRate (widget st)) in
  sliderSetValue (sliderSetRange st 0 totalMs) 0.

(** ** Slots *)

(** [onLoadWav]: an empty path is a canceled dialog.  The path is stored
    before the load; [waveformLoaded], emitted inside a successful
    [loadFromFile], updates the slider, and so does the slot after it. *)
Definition onLoadWav (path : string) (file : option SFInfo) (st : Window) : Window :=
  if String.eqb path EmptyString then st
  else
    let st1 := setPath st path in
    let (ok, w') := loadFromFile (widget st1) file in
    let st2 := setWidget st1 w' in
    if ok then updateSliderRangeFromWave (updateSliderRangeFromWave st2) else st2.

(** [onExportADXLip]: the file written, or the warning. *)
Definition onExportADXLip (outPath : string) (canOpen : bool) (st : Window) : list Effect :=
  if String.eqb outPath EmptyString then []
  else match TrackCodec.exportToFile canOpen (frames st) (loadedWavPath st) with
       | None => [EWarning "Failed Export ADXLip"]
       | Some text => [EWriteFile outPath text]
       end.

(** The [onImportADXLip] slot on the window's state. *)
Definition importIntoWindow (src : TrackCodec.ImportSource) (st : Window) : Window :=
  setTrack st (TrackCodec.onImportADXLip src (frames st)).

Section Analysis.
Context {M : CMath}.

(** [processForcedAlignmentResult], given the pending vowels. *)
Definition processForcedAlignmentResult (st : Window) (pvs : list UnitDecoder.PendingVowel) : Window :=
  let w := widget st in
  match buildVowelMarkers (samples w) pvs with
  | None => setMarkers st []
  | Some (vms, _, _) =>
      let st1 := setWidget (setMarkers st vms) (setVowelMarkers w vms) in
      setTrack st1 (buildAdxFrames vms (totalSampleCount w) (sampleRate w) (isApplySilenceCorrection st))
  end.

(** One line of Julius's standard output through [parseForcedAlignment];
    at the end of a block with a phoneme section the result is
    processed. *)
Definition onStdoutLine (st : Window) (line : string) : Window :=
  let (ps, out) := parseForcedAlignment (parser st) line in
  let st1 := setParser st ps in
  match out with
  | Some pvs => processForcedAlignmentResult st1 pvs
  | None => st1
  end.

(** The [readyReadStandardOutput] lambda on one chunk: its pieces between
    line feeds, empty ones skipped. *)
Definition onReadyReadStandardOutput (st : Window) (chunk : string) : Window :=
  fold_left onStdoutLine (QtString.skipEmpty (QtString.split (fun c => Ascii.eqb c "010"%char) chunk)) st.

End Analysis.

(** The files [onRunJulius] looks for, under the directory two levels
    above the executable's. *)
Definition juliusExe (base : string) : string := base ++ "/thirdparty/julius-4.6-win32/bin/julius.exe".
Definition mainJconf (base : string) : string := base ++ "/thirdparty/dictation-kit/main.jconf".
Definition amDnnJconf (base : string) : string := base ++ "/thirdparty/dictation-kit/am-dnn.jconf".
Definition dnnConf (base : string) : string := base ++ "/thirdparty/dictation-kit/julius.dnnconf".

(** [int(rate * 0.01)]: the frame shift passed to Julius. *)
Definition juliusShift (rate : Z) : Z := Qtrunc (inject_Z rate * (1 # 100)).

(** [int(10000000.0 / rate)]; a zero rate divides to infinity, whose
    conversion to [int] is undefined. *)
Definition juliusPeriod (rate : Z) : option Z :=
  if rate =? 0 then None else Some (Qtrunc (10000000 / inject_Z rate)).

Definition juliusArgs (base : string) (rate period shift : Z) : list string :=
  ["-C"; mainJconf base; "-C"; amDnnJconf base; "-dnnconf"; dnnConf base;
   "-smpFreq"; QtString.intToString rate; "-smpPeriod"; QtString.intToString period;
   "-fshift"; QtString.intToString shift; "-input"; "file"].

(** What [onRunJulius] finds outside: the base directory, which files
    exist, and whether [waitForStarted] succeeds. *)
Record Env := mkEnv {
  appBaseDir : string;
  fileExists : string -> bool;
  processStarts : bool
}.

(** [onRunJulius]. *)
Definition onRunJulius (env : Env) (st : Window) : option (Window * list Effect) :=
  if String.eqb (loadedWavPath st) EmptyString then Some (st, [EWarning "WAV must be loaded first"])
  else
    let st1 := setMarkers st [] in
    let base := appBaseDir env in
    match find (fun p => negb (fileExists env p))
               [juliusExe base; mainJconf base; amDnnJconf base; dnnConf base] with
    | Some p => Some (st1, [ECritical ("File not found:" ++ String "010"%char p)])
    | None =>
        let rate := sampleRate (widget st) in
        period <- juliusPeriod rate ;;
        let shift := juliusShift rate in
        let failed := if processStarts env then [] else [ECritical "Julius failed to start"; EDeleteLater] in
        Some (st1, ([EStart (juliusExe base) (juliusArgs base rate period shift)] ++ failed ++
                    [EWrite (loadedWavPath st ++ String "010"%char EmptyString); ECloseWrite])%list)
    end.

(** The [positionChanged] signal of the widget, connected to
    [QSlider::setValue] (the [qint64] narrowed to [int]). *)
Definition onMediaPositionChanged (ms : Z) (st : Window) : Window :=
  sliderSetValue (setWidget st (onPositionChanged (widget st) ms)) (wrap32 ms).

(** End of media: the playhead returns to 0 and [positionChanged(0)]. *)
Definition onMediaEnd (st : Window) : Window :=
  sliderSetValue (setWidget st (Waveform.onEndOfMedia (widget st))) 0.

(** The [toggled] lambda of the silence-correction check box. *)
Definition onSilenceToggled (on : bool) (st : Window) : Window := setSilence st on.

(** [int(MarkerLabelMode::...)]: the enumerators' values, from 0 in
    declaration order. *)
Definition labelModeToInt (m : MarkerLabelMode) : Z :=
  match m with
  | AIUEON => 0 | CV => 1 | dBFS => 2 | RelSum => 3 | RelMax => 4
  | RelVowelSum => 5 | NormPos => 6 | LabelNone => 7
  end.

(** [static_cast<MarkerLabelMode>(v.toInt())] for the combo box's data. *)
Definition labelModeOfInt (z : Z) : MarkerLabelMode :=
  match z with
  | 0 => AIUEON | 1 => CV | 2 => dBFS | 3 => RelSum | 4 => RelMax
  | 5 => RelVowelSum | 6 => NormPos | _ => LabelNone
  end.

(** The enumerators' names. *)
Definition modeName (m : MarkerLabelMode) : string :=
  match m with
  | AIUEON => "AIUEON" | CV => "CV" | dBFS => "dBFS" | RelSum => "RelSum" | RelMax => "RelMax"
  | RelVowelSum => "RelVowelSum" | NormPos => "NormPos" | LabelNone => "None"
  end.

(** The items [setupUi] adds to [labelModeCombo_], text and data, in order. *)
Definition labelModeItems : list (string * Z) :=
  [("AIUEON", labelModeToInt AIUEON); ("CV", labelModeToInt CV); ("dBFS", labelModeToInt dBFS);
   ("RelSum", labelModeToInt RelSum); ("RelMax", labelModeToInt RelMax);
   ("RelVowelSum", labelModeToInt RelVowelSum); ("NormPos", labelModeToInt NormPos);
   ("None", labelModeToInt LabelNone)].

(** [labelModeCombo_->itemData(row)]: an invalid [QVariant] ([None]) for a
    row that is not an item's. *)
Definition itemData (row : Z) : option Z :=
  if row <? 0 then None else option_map snd (nth_error labelModeItems (Z.to_nat row)).

(** The [currentIndexChanged] lambda: an invalid item datum is ignored. *)
Definition onLabelModeChanged (row : Z) (st : Window) : Window :=
  match itemData row with
  | None => st
  | Some z => setWidget st (setMarkerLabelMode (widget st) (labelModeOfInt z))
  end.

(** ** Lemmas *)

Lemma qBound_zero_id mx : 0 <= mx -> qBound 0 0 mx = 0.
Proof. unfold qBound. lia. Qed.

Lemma updateSliderRangeFromWave_eq st :
  let totalMs := totalMsOf (totalSampleCount (widget st)) (sampleRate (widget st)) in
  sliderMin (updateSliderRangeFromWave st) = 0 /\
  sliderMax (updateSliderRangeFromWave st) = Z.max 0 totalMs /\
  sliderValue (updateSliderRangeFromWave st) = 0.
Proof.
  intros totalMs. unfold updateSliderRangeFromWave, sliderSetValue, sliderSetRange. simpl.
  fold totalMs. repeat split. apply qBound_zero_id. lia.
Qed.

Lemma totalSampleCount_nonneg w : 0 <= totalSampleCount w.
Proof. unfold totalSampleCount. lia. Qed.

Lemma find_all_exist env base :
  (forall p, fileExists env p = true) ->
  find (fun p => negb (fileExists env p)) [juliusExe base; mainJconf base; amDnnJconf base; dnnConf base]
  = None.
Proof. intros H. simpl. now rewrite !H. Qed.

Lemma juliusShift_nonneg rate : 0 <= rate -> juliusShift rate = rate / 100.
Proof.
  intros H. unfold juliusShift. rewrite Qtrunc_nonneg.
  - unfold Qfloor. simpl. now rewrite Z.mul_1_r.
  - unfold Qle. simpl. lia.
Qed.

(** C28: [processForcedAlignmentResult] on a widget without samples
    returns after clearing [vowelMarkers_]: the widget keeps drawing the
    previous markers and the table keeps the previous track. *)
Theorem processForcedAlignmentResult_empty_wave {M : CMath} st pvs :
  samples (widget st) = [] ->
  vowelMarkers_ (processForcedAlignmentResult st pvs) = [] /\
  markers (widget (processForcedAlignmentResult st pvs)) = markers (widget st) /\
  frames (processForcedAlignmentResult st pvs) = frames st.
Proof.
  intros H. unfold processForcedAlignmentResult, buildVowelMarkers. rewrite H. simpl. auto.
Qed.

(** With samples loaded, [processForcedAlignmentResult] sets
    [vowelMarkers_] and the widget's markers to the same marker list, the
    one built from the pending vowels, and the table to the 60 fps track
    synthesized from it. *)
Theorem processForcedAlignmentResult_sets_track {M : CMath} st pvs :
  samples (widget st) <> [] ->
  let st' := processForcedAlignmentResult st pvs in
  vowelMarkers_ st' = vowelMarkers (samples (widget st)) pvs /\
  markers (widget st') = vowelMarkers_ st' /\
  frames st' = buildAdxFrames (vowelMarkers_ st') (totalSampleCount (widget st))
                 (sampleRate (widget st)) (isApplySilenceCorrection st).
Proof.
  intros H st'. unfold st', processForcedAlignmentResult, vowelMarkers.
  destruct (buildVowelMarkers (samples (widget st)) pvs) as [[[vms s] m]|] eqn:E.
  - simpl. auto.
  - exfalso. unfold buildVowelMarkers in E. destruct (samples (widget st)) as [|x l]; [congruence|].
    simpl in E. destruct (firstPass _ _ _ _ _) as [[? ?] ?]. discriminate.
Qed.

(** *** The stdout handler over a sequence of lines *)

Lemma buildVowelMarkers_None {M : CMath} smp pvs : buildVowelMarkers smp pvs = None -> smp = [].
Proof.
  unfold buildVowelMarkers. destruct smp as [|x l]; [reflexivity|].
  cbn. destruct (firstPass _ _ _ _ _) as [[? ?] ?]. discriminate.
Qed.

(** What [processForcedAlignmentResult] leaves depends only on the wave,
    the silence switch and, for an empty wave, the track. *)
Lemma process_congr {M : CMath} st1 st2 pvs :
  samples (widget st1) = samples (widget st2) -> sampleRate (widget st1) = sampleRate (widget st2) ->
  isApplySilenceCorrection st1 = isApplySilenceCorrection st2 ->
  (samples (widget st1) = [] -> frames st1 = frames st2) ->
  frames (processForcedAlignmentResult st1 pvs) = frames (processForcedAlignmentResult st2 pvs) /\
  vowelMarkers_ (processForcedAlignmentResult st1 pvs) = vowelMarkers_ (processForcedAlignmentResult st2 pvs).
Proof.
  intros Hs Hr Hc Hf. unfold processForcedAlignmentResult, totalSampleCount. rewrite Hs, Hr, Hc.
  destruct (buildVowelMarkers (samples (widget st2)) pvs) as [[[vms x] m]|] eqn:E; [auto|].
  apply buildVowelMarkers_None in E. cbn. rewrite Hf by congruence. auto.
Qed.

Lemma process_keeps {M : CMath} st pvs :
  let st' := processForcedAlignmentResult st pvs in
  samples (widget st') = samples (widget st) /\ sampleRate (widget st') = sampleRate (widget st) /\
  isApplySilenceCorrection st' = isApplySilenceCorrection st /\ parser st' = parser st /\
  (samples (widget st) = [] -> frames st' = frames st).
Proof.
  unfold processForcedAlignmentResult.
  destruct (buildVowelMarkers (samples (widget st)) pvs) as [[[vms x] m]|] eqn:E; cbn; [|auto].
  repeat split; auto. intros H. rewrite H in E. discriminate.
Qed.

Lemma fold_onStdoutLine {M : CMath} lines st :
  let st' := fold_left onStdoutLine lines st in
  samples (widget st') = samples (widget st) /\ sampleRate (widget st') = sampleRate (widget st) /\
  isApplySilenceCorrection st' = isApplySilenceCorrection st /\
  (samples (widget st) = [] -> frames st' = frames st) /\
  parser st' = fst (runParser (parser st) lines) /\
  match rev (snd (runParser (parser st) lines)) with
  | [] => frames st' = frames st /\ vowelMarkers_ st' = vowelMarkers_ st
  | pvs :: _ => frames st' = frames (processForcedAlignmentResult st pvs) /\
                vowelMarkers_ st' = vowelMarkers_ (processForcedAlignmentResult st pvs)
  end.
Proof.
  revert st. induction lines as [|l ls IH]; intros st; [cbn; intuition|].
  cbn [fold_left runParser]. unfold onStdoutLine at 2.
  destruct (parseForcedAlignment (parser st) l) as [ps out] eqn:Ep.
  set (st1 := match out with Some pvs => processForcedAlignmentResult (setParser st ps) pvs
                             | None => setParser st ps end).
  assert (K : samples (widget st1) = samples (widget st) /\ sampleRate (widget st1) = sampleRate (widget st) /\
              isApplySilenceCorrection st1 = isApplySilenceCorrection st /\ parser st1 = ps /\
              (samples (widget st) = [] -> frames st1 = frames st))
    by (unfold st1; destruct out as [b|]; [apply (process_keeps (setParser st ps) b)|cbn; auto]).
  destruct K as (Ks & Kr & Kc & Kp & Kf).
  replace (fold_left onStdoutLine ls (onStdoutLine st l)) with (fold_left onStdoutLine ls st1)
    by (unfold onStdoutLine, st1; now rewrite Ep).
  destruct (IH st1) as (Is & Ir & Ic & If & Ip & Im). rewrite Kp in Ip, Im.
  destruct (runParser ps ls) as [ps2 outs]. cbn [fst snd] in *.
  repeat split; try congruence; [intros E; rewrite If, Kf by congruence; reflexivity|].
  assert (C : forall pvs, frames (processForcedAlignmentResult st1 pvs) = frames (processForcedAlignmentResult st pvs) /\
     vowelMarkers_ (processForcedAlignmentResult st1 pvs) = vowelMarkers_ (processForcedAlignmentResult st pvs))
    by (intros pvs; apply process_congr; auto; intros E; apply Kf; congruence).
  destruct out as [b|]; [cbn [rev]|]; destruct (rev outs) as [|p r]; cbn [app];
    destruct Im as [-> ->]; try apply C; unfold st1; [apply process_congr; cbn; auto|cbn; auto].
Qed.

Lemma feedChunks_runParser st chunks :
  feedChunks st chunks =
  runParser st (flat_map (fun c => QtString.skipEmpty (QtString.split (fun x => Ascii.eqb x "010"%char) c)) chunks).
Proof.
  revert st. induction chunks as [|c cs IH]; intros st; [reflexivity|].
  cbn [feedChunks flat_map]. rewrite runParser_app. unfold feedChunk.
  destruct (runParser st _) as [st1 o1]. now rewrite IH.
Qed.

Lemma fold_onReadyRead {M : CMath} chunks st :
  fold_left onReadyReadStandardOutput chunks st =
  fold_left onStdoutLine
    (flat_map (fun c => QtString.skipEmpty (QtString.split (fun x => Ascii.eqb x "010"%char) c)) chunks) st.
Proof.
  revert st. induction chunks as [|c cs IH]; intros st; [reflexivity|].
  cbn [fold_left flat_map]. rewrite fold_left_app. apply IH.
Qed.

(** C25: When [waitForStarted] fails, [onRunJulius] reports the error and
    schedules the process for deletion, and then still writes the WAV
    path to its standard input and closes the channel: there is no
    [return] after the failure. *)
Theorem onRunJulius_start_failure_still_writes env st :
  loadedWavPath st <> EmptyString -> (forall p, fileExists env p = true) ->
  sampleRate (widget st) <> 0 -> processStarts env = false ->
  let rate := sampleRate (widget st) in
  let base := appBaseDir env in
  onRunJulius env st =
    Some (setMarkers st [],
          [EStart (juliusExe base)
             (juliusArgs base rate (Qtrunc (10000000 / inject_Z rate)) (juliusShift rate));
           ECritical "Julius failed to start"; EDeleteLater;
           EWrite (loadedWavPath st ++ String "010"%char EmptyString); ECloseWrite]).
Proof.
  intros Hp Hf Hr Hs rate base. unfold onRunJulius.
  destruct (String.eqb_spec (loadedWavPath st) EmptyString); [congruence|].
  rewrite find_all_exist by exact Hf. unfold juliusPeriod.
  destruct (Z.eqb_spec (sampleRate (widget st)) 0); [congruence|]. simpl. now rewrite Hs.
Qed.

(** C31: [onLoadWav] stores the path before loading; when [sf_open] fails
    the widget is left with rate 0, and a following [onRunJulius] (the
    path is not empty, the Julius files exist) computes
    [int(10000000.0 / 0)]: undefined behaviour. *)
Theorem failed_open_then_run_undefined env path st :
  path <> EmptyString -> (forall p, fileExists env p = true) ->
  onRunJulius env (onLoadWav path None st) = None.
Proof.
  intros Hp Hf. unfold onLoadWav.
  destruct (String.eqb_spec path EmptyString); [congruence|].
  cbn [loadFromFile widget setPath setWidget]. unfold onRunJulius.
  cbn [loadedWavPath setWidget setPath widget].
  destruct (String.eqb_spec path EmptyString); [congruence|].
  rewrite find_all_exist by exact Hf. reflexivity.
Qed.

(** C26: The frame shift passed to Julius, [int(rate * 0.01)], equals the
    fixed [FRAME_SHIFT_SAMPLES = 160] the marker windows use exactly for
    sample rates from 16000 to 16099 Hz. *)
Theorem juliusShift_matches_frame_shift_iff rate :
  0 <= rate -> juliusShift rate = FRAME_SHIFT_SAMPLES <-> 16000 <= rate < 16100.
Proof.
  intros H. rewrite juliusShift_nonneg by exact H. unfold FRAME_SHIFT_SAMPLES.
  split; intros E.
  - pose proof (Z.div_mod rate 100 ltac:(discriminate)). pose proof (Z.mod_pos_bound rate 100 ltac:(lia)).
    lia.
  - symmetry. apply Z.div_unique with (rate - 16000); lia.
Qed.

(** The slider covers the WAV file's duration in milliseconds as
    long as [totalSamples * 1000] fits in an [int] (files of up to
    2147483 samples). *)
Theorem updateSliderRange_ms st :
  0 < sampleRate (widget st) -> totalSampleCount (widget st) * 1000 <= INT_MAX ->
  sliderMax (updateSliderRangeFromWave st) = totalSampleCount (widget st) * 1000 / sampleRate (widget st) /\
  sliderValue (updateSliderRangeFromWave st) = 0.
Proof.
  intros Hr Ht. destruct (updateSliderRangeFromWave_eq st) as (_ & -> & ->). split; [|reflexivity].
  pose proof (totalSampleCount_nonneg (widget st)).
  unfold totalMsOf. destruct (Z.ltb_spec 0 (sampleRate (widget st))); [|lia].
  unfold imul. rewrite wrap32_id by (unfold in_int32, INT_MIN, INT_MAX in *; lia).
  rewrite Z.quot_div_nonneg by lia. pose proof (Z.div_pos (totalSampleCount (widget st) * 1000)
    (sampleRate (widget st)) ltac:(lia) Hr). lia.
Qed.

(** The slider's maximum when the product wraps: strictly below the
    duration in milliseconds, and 0 when the wrapped product is negative. *)
Lemma sliderMax_wrapped ts rate :
  0 < rate <= INT_MAX -> INT_MAX < ts * 1000 ->
  0 <= Z.max 0 (Z.quot (wrap32 (ts * 1000)) rate) < ts * 1000 / rate.
Proof.
  intros Hr Hx. pose proof (wrap32_above _ Hx) as Hw. unfold INT_MAX in *.
  set (x := ts * 1000) in *. set (w := wrap32 x) in *.
  pose proof (Z.div_mod x rate ltac:(lia)). pose proof (Z.mod_pos_bound x rate ltac:(lia)).
  destruct (Z.le_gt_cases 0 w) as [Hw0|Hw0].
  - rewrite Z.quot_div_nonneg by lia.
    pose proof (Z.div_mod w rate ltac:(lia)). pose proof (Z.mod_pos_bound w rate ltac:(lia)).
    pose proof (Z.div_pos w rate Hw0 ltac:(lia)). nia.
  - replace w with (- (- w)) by lia. rewrite Z.quot_opp_l, Z.quot_div_nonneg by lia.
    pose proof (Z.div_pos (- w) rate ltac:(lia) ltac:(lia)). nia.
Qed.

(** C27: The slider covers the WAV file's duration in milliseconds
    exactly as long as [totalSamples * 1000] fits in an [int] (files of up
    to 2147483 samples); for every longer file the product wraps and the
    slider's maximum falls strictly short of the duration (a 60 s file at
    44.1 kHz gets the range [0..0]), whatever the sample rate. *)
Theorem updateSliderRange_overflow st :
  0 < sampleRate (widget st) <= INT_MAX ->
  (totalSampleCount (widget st) <= 2147483 ->
   sliderMax (updateSliderRangeFromWave st) = totalSampleCount (widget st) * 1000 / sampleRate (widget st)) /\
  (2147483 < totalSampleCount (widget st) ->
   0 <= sliderMax (updateSliderRangeFromWave st) < totalSampleCount (widget st) * 1000 / sampleRate (widget st)).
Proof.
  intros Hr. split.
  - intros Ht. apply updateSliderRange_ms; unfold INT_MAX; lia.
  - intros Ht. destruct (updateSliderRangeFromWave_eq st) as (_ & -> & _).
    unfold totalMsOf, imul. destruct (Z.ltb_spec 0 (sampleRate (widget st))); [|lia].
    apply sliderMax_wrapped; [exact Hr|unfold INT_MAX; lia].
Qed.

(** End to end: one chunk of Julius output holding a forced-alignment
    block whose phoneme section aligns "a" to frames 0-4 and "i" to frames
    5-9, over a 0.1 s wave at 16 kHz twice as loud in the first half,
    leaves a six-row track: rows 0-2 (recognizer frames 0, 1, 3) carry
    A = 1, rows 3-5 (frames 5, 6, 8) carry I = 1/2. *)
Example julius_block_to_track :
  let wave := mkWidget (repeat (1#2)%Q 800 ++ repeat (1#4)%Q 800) 16000 0 (-1) [] AIUEON in
  let lf := String "010"%char EmptyString in
  let chunk := beginMark ++ lf ++ phonemeHeader ++ lf ++ "[   0   4]  -1.0  a" ++ lf ++
               "[   5   9]  -1.0  i" ++ lf ++ endMark ++ lf in
  let st' := onReadyReadStandardOutput (M := FixedCMath.fixedCMath) (setWidget initWindow wave) chunk in
  map (fun f => (LipModel.frameIndex f, Qred (LipModel.A f), Qred (LipModel.I f))) (frames st')
  = [(0, 1%Q, 0%Q); (1, 1%Q, 0%Q); (2, 1%Q, 0%Q); (3, 0%Q, 1#2); (4, 0%Q, 1#2); (5, 0%Q, 1#2)] /\
  map vowel (vowelMarkers_ st') = ["A"; "I"].
Proof. vm_compute. split; reflexivity. Qed.

(** C4: Every batch the parser hands on reaches the table, whatever the
    chunking of Julius's output: after any sequence of
    [readyReadStandardOutput] chunks the parser's members are those of
    [feedChunks], and the track and [vowelMarkers_] are what
    [processForcedAlignmentResult] makes of the last batch handed on (or
    unchanged when no block ended). *)
Theorem stdout_chunks_reach_table {M : CMath} st chunks :
  let st' := fold_left onReadyReadStandardOutput chunks st in
  parser st' = fst (feedChunks (parser st) chunks) /\
  match rev (snd (feedChunks (parser st) chunks)) with
  | [] => frames st' = frames st /\ vowelMarkers_ st' = vowelMarkers_ st
  | pvs :: _ => frames st' = frames (processForcedAlignmentResult st pvs) /\
                vowelMarkers_ st' = vowelMarkers_ (processForcedAlignmentResult st pvs)
  end.
Proof.
  cbv zeta. rewrite fold_onReadyRead, feedChunks_runParser.
  destruct (fold_onStdoutLine
    (flat_map (fun c => QtString.skipEmpty (QtString.split (fun x => Ascii.eqb x "010"%char) c)) chunks) st)
    as (_ & _ & _ & _ & Hp & Hm). auto.
Qed.

(** Each item of the label-mode combo box selects the mode it names:
    row [r] of [setupUi]'s items shows the name of a mode and carries its
    [int] value, and choosing it sets the widget's label mode to that
    mode through [static_cast]; any other row's datum is invalid and the
    window is left as it was. *)
Theorem label_combo_selects_mode st row :
  (0 <= row < 8 -> exists m, nth_error labelModeItems (Z.to_nat row) = Some (modeName m, labelModeToInt m) /\
                             labelMode (widget (onLabelModeChanged row st)) = m) /\
  (row < 0 \/ 8 <= row -> onLabelModeChanged row st = st).
Proof.
  split.
  - intros H. assert (row = 0 \/ row = 1 \/ row = 2 \/ row = 3 \/ row = 4 \/ row = 5 \/ row = 6 \/ row = 7)
      as R by lia.
    repeat destruct R as [->|R];
      [exists AIUEON|exists CV|exists dBFS|exists RelSum|exists RelMax|exists RelVowelSum|exists NormPos
      |subst; exists LabelNone]; split; reflexivity.
  - intros H. unfold onLabelModeChanged, itemData. destruct (Z.ltb_spec row 0); [reflexivity|].
    replace (nth_error labelModeItems (Z.to_nat row)) with (@None (string * Z)); [reflexivity|].
    symmetry. apply nth_error_None. cbn. lia.
Qed.

End Window.

Section WindowWitnesses.
Import Window Waveform AlignmentParser.

Lemma processForcedAlignmentResult_empty_wave_witness :
  let st := setTrack initWindow [LipModel.defaultFrame] in
  frames (processForcedAlignmentResult (M := FixedCMath.fixedCMath) st []) = [LipModel.defaultFrame].
Proof.
  intros st. exact (proj2 (proj2 (processForcedAlignmentResult_empty_wave st [] eq_refl))).
Defined.

Lemma processForcedAlignmentResult_sets_track_witness :
  let st := setWidget initWindow (mkWidget [1#2; 1#2]%Q 16000 0 (-1) [] AIUEON) in
  markers (widget (processForcedAlignmentResult (M := FixedCMath.fixedCMath) st []))
  = vowelMarkers_ (processForcedAlignmentResult (M := FixedCMath.fixedCMath) st []).
Proof.
  intros st. assert (H : samples (widget st) <> []) by (intros E; vm_compute in E; discriminate).
  exact (proj1 (proj2 (processForcedAlignmentResult_sets_track (M := FixedCMath.fixedCMath) st [] H))).
Defined.

Lemma onRunJulius_start_failure_still_writes_witness :
  let env := mkEnv "C:/JuliusView" (fun _ => true) false in
  let st := setPath (setWidget initWindow (mkWidget [0%Q] 16000 0 (-1) [] AIUEON)) "take1.wav" in
  onRunJulius env st =
    Some (setMarkers st [],
          [EStart (juliusExe "C:/JuliusView")
             (juliusArgs "C:/JuliusView" 16000 (Qtrunc (10000000 / inject_Z 16000)) (juliusShift 16000));
           ECritical "Julius failed to start"; EDeleteLater;
           EWrite ("take1.wav" ++ String "010"%char EmptyString); ECloseWrite]).
Proof.
  intros env st.
  assert (H1 : loadedWavPath st <> EmptyString) by (intros E; vm_compute in E; discriminate).
  assert (H2 : sampleRate (widget st) <> 0) by (intros E; vm_compute in E; discriminate).
  exact (onRunJulius_start_failure_still_writes env st H1 (fun _ => eq_refl) H2 eq_refl).
Defined.

Lemma failed_open_then_run_undefined_witness :
  onRunJulius (mkEnv "C:/JuliusView" (fun _ => true) true) (onLoadWav "missing.wav" None initWindow) = None.
Proof.
  exact (failed_open_then_run_undefined (mkEnv "C:/JuliusView" (fun _ => true) true) "missing.wav"
           initWindow ltac:(discriminate) (fun _ => eq_refl)).
Defined.

Lemma juliusShift_matches_frame_shift_iff_witness :
  juliusShift 16000 = Markers.FRAME_SHIFT_SAMPLES /\ juliusShift 44100 <> Markers.FRAME_SHIFT_SAMPLES.
Proof.
  split.
  - apply (juliusShift_matches_frame_shift_iff 16000); lia.
  - rewrite (juliusShift_matches_frame_shift_iff 44100) by lia. lia.
Defined.

Lemma updateSliderRange_ms_witness :
  let st := setWidget initWindow (mkWidget (repeat 0%Q 32000) 16000 0 (-1) [] AIUEON) in
  sliderMax (updateSliderRangeFromWave st) = 2000.
Proof.
  intros st. rewrite (proj1 (updateSliderRange_ms st ltac:(reflexivity) ltac:(vm_compute; discriminate))).
  vm_compute. reflexivity.
Defined.

Lemma updateSliderRange_overflow_witness :
  let st := setWidget initWindow (mkWidget (repeat 0%Q 32000) 16000 0 (-1) [] AIUEON) in
  (0 < sampleRate (widget st) <= INT_MAX) /\ sliderMax (updateSliderRangeFromWave st) = 2000.
Proof.
  intros st. assert (H : 0 < sampleRate (widget st) <= INT_MAX) by (vm_compute; split; [reflexivity|discriminate]).
  split; [exact H|]. destruct (updateSliderRange_overflow st H) as [E _].
  rewrite E by (vm_compute; discriminate).
  vm_compute. reflexivity.
Defined.

Lemma label_combo_selects_mode_witness :
  0 <= 4 < 8 /\ exists m, nth_error labelModeItems 4 = Some (modeName m, labelModeToInt m) /\
                          labelMode (widget (onLabelModeChanged 4 initWindow)) = m.
Proof. split; [lia|]. exact (proj1 (label_combo_selects_mode initWindow 4) ltac:(lia)). Defined.

End WindowWitnesses.
