(* ===== verification/Delegate.v ===== *)
(** * The cell editor's key handling

    [NoCommitDelegate::eventFilter] (Public/NoCommitDelegate.h 48-86),
    installed on the editor of a table cell and on the [QLineEdit] inside
    it.  An event is a key press (with the Control modifier or not) or a
    focus loss; the filter's answer is whether it consumed the event
    ([None] when it hands the event to [QStyledItemDelegate::eventFilter],
    whose answer is not modelled) and the calls and signals it makes, in
    order.

    [createEditor] (lines 16-28) and [setEditorData] (lines 31-45) are
    modelled over the table model of [TableModel.v]: the editor's effects
    are [EditorEffect]s.  [QVariant::toString] of a [double] (its
    shortest round-trip text) is a parameter [doubleText].  What the view
    does between the delegate's calls is Qt's editing protocol:
    [setEditorData] fills the line edit, the filter sees Return, and the
    [commitData] signal makes [QStyledItemDelegate::setModelData] write
    the line edit's text with [setData(index, text, EditRole)]; the
    session [enterSession] strings these together. *)

From Stdlib Require Import ZArith QArith List String Bool Lia.
From stdpp Require Import base list.
From S2P Require Import Prelude QtString LipModel TableModel.
Import ListNotations.

Module Delegate.
Import QtString TableModel LipModel.
Local Open Scope Z_scope.
Local Open Scope julius_scope.

Inductive Key := Key_C | Key_V | Key_Escape | Key_Return | Key_Enter | Key_Tab | Key_Backtab | Key_Other.

Inductive Event :=
| KeyPress (ctrl : bool) (key : Key)
| FocusOut
| OtherEvent.

(** [QAbstractItemDelegate::EndEditHint] values used, by the delegate
    and by the base filter. *)
Inductive EndEditHint := NoHint | RevertModelCache | EditNextItem | EditPreviousItem.

Inductive DelegateEffect :=
| Copy                          (** [le->copy()] *)
| Paste                         (** [le->paste()] *)
| CommitData                    (** [emit commitData(editor)] *)
| CloseEditor (h : EndEditHint) (** [emit closeEditor(editor, h)] *)
| BaseEventFilter.              (** [QStyledItemDelegate::eventFilter(obj, ev)] *)

Definition isKey (k : Key) (key : Key) : bool :=
  match k, key with
  | Key_C, Key_C | Key_V, Key_V | Key_Escape, Key_Escape
  | Key_Return, Key_Return | Key_Enter, Key_Enter | Key_Tab, Key_Tab | Key_Backtab, Key_Backtab
  | Key_Other, Key_Other => true
  | _, _ => false
  end.

(** [eventFilter]; [objIsLineEdit] is whether [qobject_cast<QLineEdit*>(obj)]
    succeeds. *)
Definition eventFilter (objIsLineEdit : bool) (ev : Event) : option bool * list DelegateEffect :=
  match ev with
  | KeyPress ctrl key =>
      if ctrl && isKey Key_C key && objIsLineEdit then (Some true, [Copy])
      else if ctrl && isKey Key_V key && objIsLineEdit then (Some true, [Paste])
      else if isKey Key_Escape key then (Some true, [CloseEditor RevertModelCache])
      else if isKey Key_Return key || isKey Key_Enter key then
        (Some true, [CommitData; CloseEditor NoHint])
      else (None, [BaseEventFilter])
  | FocusOut => (None, [CloseEditor RevertModelCache; BaseEventFilter])
  | OtherEvent => (None, [BaseEventFilter])
  end.

(** ** The editor *)

(** What [createEditor] and [setEditorData] do to the editor. *)
Inductive EditorEffect :=
| BaseCreateEditor          (** [QStyledItemDelegate::createEditor(parent, option, index)] *)
| InstallFilterOnEditor     (** [editor->installEventFilter(this)] *)
| InstallFilterOnLineEdit   (** [le->installEventFilter(this)] on the inner [QLineEdit] *)
| SetText (s : string)      (** [le->setText(value.toString())] *)
| SelectAll                 (** [le->selectAll()] *)
| BaseSetEditorData.        (** [QStyledItemDelegate::setEditorData(editor, index)] *)

(** [createEditor]; [hasLineEdit] is whether [findChild<QLineEdit*>()]
    finds one. *)
Definition createEditor (hasLineEdit : bool) : list EditorEffect :=
  [BaseCreateEditor; InstallFilterOnEditor] ++ (if hasLineEdit then [InstallFilterOnLineEdit] else []).

Definition variantValid (v : QVariant) : bool :=
  match v with VInvalid => false | _ => true end.

(** [QVariant::toString()]: an [int] in decimal, a string as it is, an
    invalid variant empty, a [double] as [doubleText] prints it. *)
Definition variantToString (doubleText : Q -> string) (v : QVariant) : string :=
  match v with
  | VInvalid => EmptyString
  | VInt z => intToString z
  | VDouble q => doubleText q
  | VString s => s
  end.

(** [setEditorData]: the model's [EditRole] value, or its [DisplayRole]
    value when that is invalid or prints empty, written into a line edit
    ([editorIsLineEdit]) and selected.  [None]: the model read a row out
    of range. *)
Definition setEditorData (doubleText : Q -> string) (frames : list ADXLipFrame) (ix : QModelIndex)
  (editorIsLineEdit : bool) : option (list EditorEffect) :=
  v <- data frames ix EditRole ;;
  v' <- (if variantValid v && negb (String.eqb (variantToString doubleText v) EmptyString)
         then Some v else data frames ix DisplayRole) ;;
  Some (if editorIsLineEdit then [SetText (variantToString doubleText v'); SelectAll]
        else [BaseSetEditorData]).

(** [QStyledItemDelegate::setModelData] on a line edit: its text, through
    the editor's user property, to [setData] with [EditRole]. *)
Definition setModelData (frames : list ADXLipFrame) (ix : QModelIndex) (text : string)
  : option (bool * list ADXLipFrame) :=
  setData frames ix (VString text) EditRole.

Definition isCommitData (e : DelegateEffect) : bool :=
  match e with CommitData => true | _ => false end.

(** An edit of the cell at [ix] in a line edit: [setEditorData] fills it,
    the user replaces the text ([typed]) or not ([None]) and presses
    Return; the filter's [commitData] makes the view call
    [setModelData]. *)
Definition enterSession (doubleText : Q -> string) (frames : list ADXLipFrame) (ix : QModelIndex)
  (typed : option string) : option (bool * list ADXLipFrame) :=
  effs <- setEditorData doubleText frames ix true ;;
  match effs with
  | SetText t :: _ =>
      let text := match typed with Some t' => t' | None => t end in
      if existsb isCommitData (snd (eventFilter true (KeyPress false Key_Return)))
      then setModelData frames ix text else Some (false, frames)
  | _ => Some (false, frames)
  end.

(** ** Lemmas *)

(** The text a cell is shown with reads back as the cell: an [int] in
    range through [toInt], a [double] whose text parses back. *)
Lemma written_cell_text doubleText f c :
  0 <= c < fixedParamCount ->
  match cell f c with VInt z => in_int32 z | VDouble q => toDouble (doubleText q) = q | _ => False end ->
  written c (VString (variantToString doubleText (cell f c))) = cell f c.
Proof.
  intros Hc Hr. column_cases c; cbn in Hr |- *;
    unfold written; cbn; rewrite ?toInt_intToString, ?Hr by exact Hr; reflexivity.
Qed.

(** The filter itself commits the edited value only on Return or
    Enter, and then before it closes the editor; Escape and a focus loss
    close the editor reverting the model cache. *)
Theorem eventFilter_commit_only_on_enter objIsLineEdit ev :
  (In CommitData (snd (eventFilter objIsLineEdit ev)) <->
     exists ctrl, ev = KeyPress ctrl Key_Return \/ ev = KeyPress ctrl Key_Enter) /\
  (forall ctrl, ev = KeyPress ctrl Key_Return \/ ev = KeyPress ctrl Key_Enter ->
     snd (eventFilter objIsLineEdit ev) = [CommitData; CloseEditor NoHint]) /\
  (forall ctrl, ev = KeyPress ctrl Key_Escape \/ ev = FocusOut ->
     In (CloseEditor RevertModelCache) (snd (eventFilter objIsLineEdit ev))).
Proof.
  split; [|split].
  - destruct ev as [ctrl key| |]; simpl.
    + destruct ctrl, key, objIsLineEdit; simpl; split;
        try (intros [H|[H|H]]; discriminate H || contradiction);
        try (intros [H|H]; [discriminate H|contradiction]);
        try (intros [c [H|H]]; discriminate H);
        eauto.
    + split; [intros [H|[H|H]]; discriminate H || contradiction|intros [c [H|H]]; discriminate H].
    + split; [intros [H|H]; discriminate H || contradiction|intros [c [H|H]]; discriminate H].
  - intros ctrl [-> | ->]; destruct ctrl, objIsLineEdit; reflexivity.
  - intros ctrl [-> | ->]; [destruct ctrl, objIsLineEdit|]; simpl; auto.
Qed.

(** C33: Opening the line-edit editor on a cell and pressing Return
    without typing leaves the table as it was: [setEditorData] falls back
    to the [DisplayRole] value (the model gives nothing for [EditRole]),
    and the text it shows reads back as the cell, for an [int] in range
    and for a [double] whose text parses back; [setData] then writes the
    same row. *)
Theorem enterSession_keeps_cell doubleText frames r c :
  hasIndex frames r c = true ->
  (forall f, frames !! Z.to_nat r = Some f ->
     match cell f c with VInt z => in_int32 z | VDouble q => toDouble (doubleText q) = q | _ => False end) ->
  enterSession doubleText frames (index frames r c) None = Some (true, frames).
Proof.
  intros H Hround. pose proof (proj1 (hasIndex_spec _ _ _) H) as [Hr Hc].
  destruct (setData_cell frames r c (VString (variantToString doubleText
              (match frames !! Z.to_nat r with Some f => cell f c | None => VInvalid end))) H)
    as (f & f' & Hf & _ & E & C & O).
  rewrite Hf in E, C. destruct (index_valid _ _ _ H) as [Ei V].
  unfold enterSession, setEditorData, data. rewrite Ei in *. rewrite V. cbn -[setModelData].
  rewrite Hf. cbn -[setModelData]. unfold setModelData. rewrite E.
  replace f' with f; [now rewrite list_insert_id|].
  apply cell_ext. intros c' Hc'. destruct (decide (c' = c)) as [->|Ne]; [|now rewrite O].
  rewrite C. symmetry. apply written_cell_text; [exact Hc|]. exact (Hround f Hf).
Qed.

End Delegate.

Section DelegateWitnesses.
Import Delegate TableModel.

Lemma enterSession_keeps_cell_witness :
  let frames := [LipModel.mkADXLipFrame 3 50 0 0 0 (1#2) 0 0 0 0 0 (-6)] in
  hasIndex frames 0 1 = true /\
  enterSession QtString.fixed6 frames (index frames 0 1) None = Some (true, frames).
Proof.
  intros frames. assert (hasIndex frames 0 1 = true) as H by reflexivity. split; [exact H|].
  apply (enterSession_keeps_cell QtString.fixed6 frames 0 1 H).
  intros f Hf. injection Hf as <-. cbn. unfold in_int32, INT_MIN, INT_MAX. lia.
Defined.

End DelegateWitnesses.

