(* ===== verification/EditProtocol.v ===== *)
(** * The table view's editing protocol around [NoCommitDelegate]

    [NoCommitDelegate::eventFilter] (Public/NoCommitDelegate.h 48-86)
    hands every event it does not consume to
    [QStyledItemDelegate::eventFilter], which commits the editor's data
    and closes it when the editor loses the focus.  The view
    ([QAbstractItemView::commitData] and [closeEditor]) writes an
    editor's text into the model only while that editor is still
    registered for its index; [closeEditor] unregisters it.  So on a
    focus loss the delegate's own [closeEditor(RevertModelCache)], emitted
    before it calls the base filter, makes the view ignore the base
    filter's [commitData]: the edit is dropped, which is what the class
    is for.  Tab and Backtab, which the delegate hands on, are the
    base filter's own commit keys: they do write the edit.

    [baseEffects] is the base filter on the events the model
    distinguishes (Qt's [QAbstractItemDelegatePrivate::editorEventFilter]
    on a [QLineEdit] without a validator, so that [tryFixup] accepts):
    Tab commits and closes with [EditNextItem], Backtab with
    [EditPreviousItem], a focus loss to a widget outside the editor
    commits and closes with [NoHint]; every other key is the editor's.
    Return and Enter, which the base filter would commit through a queued
    call, never reach it: the delegate consumes them.  [EditView] is the
    view's state during an edit: the index the open editor is registered
    for, the model's rows, and the hint the editor was closed with (with
    [EditNextItem] or [EditPreviousItem] the view then opens a new editor
    on the neighbouring cell, a new edit that starts over from
    [setEditorData]). *)

From Stdlib Require Import ZArith QArith List String Bool Lia.
From stdpp Require Import base list.
From S2P Require Import Prelude QtString LipModel TableModel Delegate.
Import ListNotations.

Module EditProtocol.
Import TableModel Delegate LipModel.
Local Open Scope Z_scope.
Local Open Scope julius_scope.

(** [QStyledItemDelegate::eventFilter] on an event [NoCommitDelegate]
    passes on. *)
Definition baseEffects (ev : Event) : list DelegateEffect :=
  match ev with
  | KeyPress _ Key_Tab => [CommitData; CloseEditor EditNextItem]
  | KeyPress _ Key_Backtab => [CommitData; CloseEditor EditPreviousItem]
  | FocusOut => [CommitData; CloseEditor NoHint]
  | _ => []
  end.

(** Everything the filter does for [ev], the base filter's part in
    place of its call. *)
Definition filterEffects (objIsLineEdit : bool) (ev : Event) : list DelegateEffect :=
  flat_map (fun e => match e with BaseEventFilter => baseEffects ev | e => [e] end)
           (snd (eventFilter objIsLineEdit ev)).

Record EditView := mkEditView {
  editorIndex : option QModelIndex;
  rows : list ADXLipFrame;
  closedWith : option EndEditHint
}.

(** The view's slots for the delegate's signals: [commitData] writes the
    editor's text through [setModelData] while the editor is registered;
    [closeEditor] unregisters it (with [RevertModelCache] it calls the
    model's [revert()], which [ADXLipModel] does not override). *)
Definition viewHandle (text : string) (v : EditView) (e : DelegateEffect) : option EditView :=
  match e with
  | CommitData =>
      match editorIndex v with
      | Some ix => '(_, fs) <- setModelData (rows v) ix text ;; Some (mkEditView (editorIndex v) fs (closedWith v))
      | None => Some v
      end
  | CloseEditor h => Some (mkEditView None (rows v) (Some h))
  | Copy | Paste | BaseEventFilter => Some v
  end.

Fixpoint runEffects (text : string) (v : EditView) (es : list DelegateEffect) : option EditView :=
  match es with
  | [] => Some v
  | e :: es' => v' <- viewHandle text v e ;; runEffects text v' es'
  end.

(** An editor open on [ix], holding [text], receives [ev]. *)
Definition editorEvent (objIsLineEdit : bool) (frames : list ADXLipFrame) (ix : QModelIndex)
  (text : string) (ev : Event) : option EditView :=
  runEffects text (mkEditView (Some ix) frames None) (filterEffects objIsLineEdit ev).

(** The keys after which the edit is written: the delegate's Return and
    Enter, the base filter's Tab and Backtab. *)
Definition isCommitKey (ev : Event) : bool :=
  match ev with
  | KeyPress _ Key_Return | KeyPress _ Key_Enter | KeyPress _ Key_Tab | KeyPress _ Key_Backtab => true
  | _ => false
  end.

(** ** Lemmas *)

Lemma runEffects_commit_close text frames ix h b fs :
  setData frames ix (VString text) EditRole = Some (b, fs) ->
  runEffects text (mkEditView (Some ix) frames None) [CommitData; CloseEditor h] = Some (mkEditView None fs (Some h)).
Proof. intros E. cbn. unfold setModelData. rewrite E. reflexivity. Qed.

(** C18: Opened on an existing cell, the editor writes into the table
    only on Return, Enter, Tab or Backtab: then the view writes the
    editor's text with [setData(index, text, EditRole)] and closes the
    editor; on every other event (Escape, a focus loss, any other key, any
    other event) the rows stay as they were.  On a focus loss the base
    filter does emit [commitData], but after the delegate's
    [closeEditor]. *)
Theorem editor_writes_only_on_commit_keys objIsLineEdit frames r c text ev :
  hasIndex frames r c = true ->
  exists v, editorEvent objIsLineEdit frames (index frames r c) text ev = Some v /\
    if isCommitKey ev
    then setData frames (index frames r c) (VString text) EditRole = Some (true, rows v) /\
         editorIndex v = None
    else rows v = frames.
Proof.
  intros H. destruct (setData_cell frames r c (VString text) H) as (f & f' & _ & _ & E & _).
  unfold editorEvent, filterEffects.
  destruct ev as [ctrl key| |]; [destruct ctrl, key, objIsLineEdit|..]; cbn [eventFilter isKey andb orb snd];
    cbn [flat_map app baseEffects isCommitKey];
    first [ erewrite (runEffects_commit_close text frames _ _ true _ E); eexists; split; [reflexivity|];
            split; [exact E|reflexivity]
          | eexists; split; [reflexivity|]; reflexivity ].
Qed.

End EditProtocol.

Section EditProtocolWitnesses.
Import EditProtocol Delegate TableModel.

Lemma editor_writes_only_on_commit_keys_witness :
  let frames := [LipModel.mkADXLipFrame 3 50 0 0 0 (1#2) 0 0 0 0 0 (-6)] in
  hasIndex frames 0 1 = true /\
  exists v, editorEvent true frames (index frames 0 1) "99"%string FocusOut = Some v /\ rows v = frames.
Proof.
  intros frames. assert (H : hasIndex frames 0 1 = true) by reflexivity. split; [exact H|].
  exact (editor_writes_only_on_commit_keys true frames 0 1 "99"%string FocusOut H).
Defined.

End EditProtocolWitnesses.
