(* ===== verification/Session.v ===== *)
(** * The window's event loop

    [JuliusAnalyzeWindow::setupConnections] (Private/JuliusAnalyzeWindow.cpp
    180-217) wires the buttons, the slider, the combo box, the check box
    and the waveform widget's signals to the slots modelled in [Window.v];
    [onRunJulius] adds the lambdas of the Julius process's standard output
    and standard error.  This file puts them together as one step
    function [step] on the state [App]: the window of [Window.v] and the
    [QMediaPlayer] the waveform widget owns ([WaveformWidget.cpp] 10-36,
    75, 79-101).  A [UiEvent] is what the event loop delivers: a click
    with what its file dialog returned, a slider drag, a combo or check
    box change, a committed cell edit, a chunk of Julius's output, or a
    signal of the media player.  The slots' outside effects are
    [AppEffect]s: the window's [Effect]s and the status-bar messages.

    The media player is a Qt class, modelled from its documentation as
    far as the code relies on it: [setSource] stops and rewinds,
    [play]/[pause] act only with a source, [stop] rewinds, and
    [setPosition] clamps at 0 and does nothing without a source.  Which
    player signals can arrive in a state is [possible]: the position
    moves forward only with a source (while playing, or to report a seek),
    and the end of the media is reached only while playing.  [app_reachable]
    closes the initial state under the possible events. *)

From Stdlib Require Import ZArith QArith List String Ascii Bool Lia.
From S2P Require Import Prelude QtString LogDecode Cmath AlignmentParser Markers LipModel TableModel TrackCodec Waveform Window Delegate.
Import ListNotations.
Local Open Scope string_scope.
Local Open Scope Z_scope.
Local Open Scope julius_scope.

Module Session.
Import LogDecode AlignmentParser Markers TableModel TrackCodec Waveform Window Delegate.

(** ** The media player *)

Inductive PlaybackState := StoppedState | PlayingState | PausedState.

Record Player := mkPlayer {
  source : option string;
  playbackState : PlaybackState;
  position : Z
}.

(** [new QMediaPlayer(this)] in the widget's constructor: no source. *)
Definition initPlayer : Player := mkPlayer None StoppedState 0.

(** [QMediaPlayer::setSource]: a new source stops the playback. *)
Definition setSource (p : Player) (url : string) : Player := mkPlayer (Some url) StoppedState 0.

Definition play (p : Player) : Player :=
  match source p with None => p | Some _ => mkPlayer (source p) PlayingState (position p) end.

Definition pause (p : Player) : Player :=
  match source p with None => p | Some _ => mkPlayer (source p) PausedState (position p) end.

(** [QMediaPlayer::stop]: stops and resets the position to the beginning. *)
Definition stop (p : Player) : Player := mkPlayer (source p) StoppedState 0.

(** [QMediaPlayer::setPosition]: [qMax(position, 0)], ignored without a
    (seekable) source. *)
Definition setPosition (p : Player) (ms : Z) : Player :=
  match source p with None => p | Some _ => mkPlayer (source p) (playbackState p) (Z.max ms 0) end.

(** The player's own progress by [d] milliseconds. *)
Definition advance (p : Player) (d : Z) : Player :=
  mkPlayer (source p) (playbackState p) (position p + d).

(** [WaveformWidget::startPlayback], [stopPlayback], [pausePlayback] and
    [seek]: the member [mediaPlayer_] is never null, so the guard always
    passes. *)
Definition startPlayback (p : Player) : Player := play p.
Definition stopPlayback (p : Player) : Player := stop p.
Definition pausePlayback (p : Player) : Player := pause p.
Definition seek (p : Player) (positionMs : Z) : Player := setPosition p positionMs.

(** ** The application *)

Record App := mkApp {
  win : Window;
  player : Player
}.

Definition initApp : App := mkApp initWindow initPlayer.

Inductive AppEffect :=
| WinEffect (e : Effect)
| ShowMessage (text : QStr) (timeoutMs : Z).   (** [statusBar()->showMessage] *)

Definition status (text : string) (timeoutMs : Z) : AppEffect := ShowMessage (strUnits text) timeoutMs.

Inductive UiEvent :=
| LoadWavClicked (path : string) (file : option SFInfo)
| ExportClicked (outPath : string) (canOpen : bool)
| ImportClicked (path : string) (contents : option string)
| PlayClicked
| PauseClicked
| StopClicked
| RunJuliusClicked (env : Env)
| LabelModeChanged (row : Z)
| SilenceToggled (on : bool)
| SliderMoved (value : Z)
| CellEdited (r c : Z) (typed : option string)
| StdoutReady (raw : QByteArray)
| StderrReady (raw : QByteArray)
| PlayerAdvanced (d : Z)
| EndOfMedia.

(** ** The slots with their effects *)

(** [onLoadWav]: the window's part is [Window.onLoadWav]; a successful
    [loadFromFile] ends with [mediaPlayer_->setSource(path)]; a failed one
    warns, a successful one reports in the status bar for 5 s. *)
Definition onLoadWavApp (path : string) (file : option SFInfo) (a : App) : App * list AppEffect :=
  if String.eqb path EmptyString then (a, [])
  else if fst (loadFromFile (widget (win a)) file)
  then (mkApp (onLoadWav path file (win a)) (setSource (player a) path),
        [status ("Complete Import: " ++ path) 5000])
  else (mkApp (onLoadWav path file (win a)) (player a), [WinEffect (EWarning "Failed Import Wav")]).

(** [onExportADXLip]: the file written is followed by a status message. *)
Definition onExportApp (outPath : string) (canOpen : bool) (a : App) : App * list AppEffect :=
  let es := onExportADXLip outPath canOpen (win a) in
  (a, (map WinEffect es ++
         match es with
         | [EWriteFile _ _] => [status ("ADXLip Success: " ++ outPath) 5000]
         | _ => []
         end)%list).

(** The file dialog and [QFile::open] of [onImportADXLip]. *)
Definition importSource (path : string) (contents : option string) : ImportSource :=
  if String.eqb path EmptyString then Canceled
  else match contents with None => CannotOpen | Some text => Opened text end.

Definition onImportApp (path : string) (contents : option string) (a : App) : App * list AppEffect :=
  let src := importSource path contents in
  (mkApp (importIntoWindow src (win a)) (player a),
   match src with
   | CannotOpen => [WinEffect (EWarning ("Cannot open file:" ++ String "010"%char path))]
   | _ => []
   end).

(** [onPlay], [onPause], [onStop]: the widget's call and a 2 s message. *)
Definition onPlay (a : App) : App * list AppEffect :=
  (mkApp (win a) (startPlayback (player a)), [status "Play" 2000]).

Definition onPause (a : App) : App * list AppEffect :=
  (mkApp (win a) (pausePlayback (player a)), [status "Pause" 2000]).

Definition onStop (a : App) : App * list AppEffect :=
  (mkApp (win a) (stopPlayback (player a)), [status "Stop" 2000]).

Definition onRunJuliusApp (env : Env) (a : App) : option (App * list AppEffect) :=
  match onRunJulius env (win a) with
  | None => None
  | Some (st, es) => Some (mkApp st (player a), map WinEffect es)
  end.

(** [sliderMoved] carries the position the drag bounded to the range;
    with tracking on, the value follows it; [seek] sends it to the
    player. *)
Definition onSliderMoved (v : Z) (a : App) : App * list AppEffect :=
  let st := sliderSetValue (win a) v in
  (mkApp st (seek (player a) (sliderValue st)), []).

(** The media player's [positionChanged]: the widget's lambda and the
    slider's [setValue]. *)
Definition onPlayerAdvanced (d : Z) (a : App) : App * list AppEffect :=
  let p := advance (player a) d in
  (mkApp (onMediaPositionChanged (position p) (win a)) p, []).

(** The [EndOfMedia] branch of the [mediaStatusChanged] lambda:
    [stop()], [setPosition(0)], the playhead and [positionChanged(0)]. *)
Definition onEndOfMediaApp (a : App) : App * list AppEffect :=
  (mkApp (onMediaEnd (win a)) (setPosition (stop (player a)) 0), []).

(** The [readyReadStandardError] lambda: the decoded text in the status
    bar until the next message. *)
Definition onStderrApp `{CodePages} (raw : QByteArray) (a : App) : App * list AppEffect :=
  (a, [ShowMessage (decodeJuliusLog raw) 0]).

Section Dispatch.
Context {M : CMath} {CP : CodePages} (doubleText : Q -> string).

(** The [readyReadStandardOutput] lambda: the decoded text, when not
    empty, in the status bar; the chunk's lines to the parser, which
    reads the bytes as 8-bit characters ([readyReadStdout_ascii] relates
    the two readings). *)
Definition onStdoutApp (raw : QByteArray) (a : App) : App * list AppEffect :=
  (mkApp (onReadyReadStandardOutput (win a) (bytesString raw)) (player a),
   match fst (readyReadStdout raw) with Some disp => [ShowMessage disp 0] | None => [] end).

(** A double click on cell [(r, c)], the editor's session and Return:
    the table's rows after [setModelData]. *)
Definition onCellEdited (r c : Z) (typed : option string) (a : App) : option (App * list AppEffect) :=
  match enterSession doubleText (frames (win a)) (index (frames (win a)) r c) typed with
  | None => None
  | Some (_, fs) => Some (mkApp (setTrack (win a) fs) (player a), [])
  end.

(** [setupConnections] and the lambdas of [onRunJulius]: [None] is
    undefined behaviour of the slot. *)
Definition step (e : UiEvent) (a : App) : option (App * list AppEffect) :=
  match e with
  | LoadWavClicked path file => Some (onLoadWavApp path file a)
  | ExportClicked outPath canOpen => Some (onExportApp outPath canOpen a)
  | ImportClicked path contents => Some (onImportApp path contents a)
  | PlayClicked => Some (onPlay a)
  | PauseClicked => Some (onPause a)
  | StopClicked => Some (onStop a)
  | RunJuliusClicked env => onRunJuliusApp env a
  | LabelModeChanged row => Some (mkApp (onLabelModeChanged row (win a)) (player a), [])
  | SilenceToggled on => Some (mkApp (onSilenceToggled on (win a)) (player a), [])
  | SliderMoved v => Some (onSliderMoved v a)
  | CellEdited r c typed => onCellEdited r c typed a
  | StdoutReady raw => Some (onStdoutApp raw a)
  | StderrReady raw => Some (onStderrApp raw a)
  | PlayerAdvanced d => Some (onPlayerAdvanced d a)
  | EndOfMedia => Some (onEndOfMediaApp a)
  end.

End Dispatch.

(** Which events can arrive: the user's always; the player's as its
    state allows. *)
Definition isPlaying (p : Player) : bool :=
  match playbackState p with PlayingState => true | _ => false end.

Definition possible (e : UiEvent) (a : App) : bool :=
  match e with
  | PlayerAdvanced d =>
      match source (player a) with
      | None => false
      | Some _ => (0 <=? d) && (Z.eqb d 0 || isPlaying (player a))
      end
  | EndOfMedia => isPlaying (player a)
  | _ => true
  end.

Inductive app_reachable {M : CMath} {CP : CodePages} (doubleText : Q -> string) : App -> Prop :=
| app_reach_init : app_reachable doubleText initApp
| app_reach_step a e a' effs :
    app_reachable doubleText a -> possible e a = true -> step doubleText e a = Some (a', effs) ->
    app_reachable doubleText a'.

(** ** The invariant *)

(** The slider's range starts at 0, holds its value and, computed in
    [int], ends within [int]. *)
Definition slider_ok (st : Window) : Prop :=
  sliderMin st = 0 /\ 0 <= sliderValue st <= sliderMax st /\ sliderMax st <= INT_MAX.

(** Without a source the player is stopped at 0. *)
Definition player_ok (p : Player) : Prop :=
  0 <= position p /\ (source p = None -> playbackState p = StoppedState /\ position p = 0).

(** The parser's invariant, and a wave on screen has a path. *)
Definition win_ok (st : Window) : Prop :=
  slider_ok st /\ parser_inv (parser st) /\
  (samples (widget st) <> [] -> loadedWavPath st <> EmptyString).

Definition app_inv (a : App) : Prop := win_ok (win a) /\ player_ok (player a).

(** What a handler that does not touch them leaves: the slider, the path
    and the samples. *)
Definition keeps (st st' : Window) : Prop :=
  sliderMin st' = sliderMin st /\ sliderMax st' = sliderMax st /\ sliderValue st' = sliderValue st /\
  loadedWavPath st' = loadedWavPath st /\ samples (widget st') = samples (widget st).

(** ** Lemmas *)

Ltac keeps_tac := unfold keeps; cbn; repeat split.

Lemma keeps_refl st : keeps st st.
Proof. keeps_tac. Qed.

Lemma keeps_trans st1 st2 st3 : keeps st1 st2 -> keeps st2 st3 -> keeps st1 st3.
Proof. unfold keeps. intros (?&?&?&?&?) (?&?&?&?&?). repeat split; congruence. Qed.

Lemma keeps_ok st st' : keeps st st' -> parser_inv (parser st') -> win_ok st -> win_ok st'.
Proof.
  intros (E1&E2&E3&E4&E5) Hp ((S1&S2&S3)&_&Hs). unfold win_ok, slider_ok.
  rewrite E1, E2, E3, E4, E5. auto.
Qed.

Lemma process_frame {M : CMath} st pvs :
  keeps st (processForcedAlignmentResult st pvs) /\ parser (processForcedAlignmentResult st pvs) = parser st.
Proof.
  unfold processForcedAlignmentResult.
  destruct (buildVowelMarkers _ _) as [[[vms x] m]|]; split; (keeps_tac || reflexivity).
Qed.

Lemma onStdoutLine_frame {M : CMath} st l :
  keeps st (onStdoutLine st l) /\ (parser_inv (parser st) -> parser_inv (parser (onStdoutLine st l))).
Proof.
  unfold onStdoutLine. pose proof (parser_inv_step (parser st) l) as Hs.
  destruct (parseForcedAlignment (parser st) l) as [ps [pvs|]]; cbn in Hs.
  - destruct (process_frame (setParser st ps) pvs) as [K E]. rewrite E. split; [|exact Hs].
    eapply keeps_trans; [|exact K]. keeps_tac.
  - split; [keeps_tac|exact Hs].
Qed.

Lemma fold_onStdoutLine_frame {M : CMath} ls st :
  keeps st (fold_left onStdoutLine ls st) /\
  (parser_inv (parser st) -> parser_inv (parser (fold_left onStdoutLine ls st))).
Proof.
  induction ls as [|l ls IH] in st |- *; cbn; [split; [apply keeps_refl|auto]|].
  destruct (onStdoutLine_frame st l) as [K P]. destruct (IH (onStdoutLine st l)) as [K' P'].
  split; [eapply keeps_trans; eauto|auto].
Qed.

Lemma onRunJulius_frame env st st' es :
  onRunJulius env st = Some (st', es) -> keeps st st' /\ parser st' = parser st.
Proof.
  unfold onRunJulius. destruct (String.eqb _ _); [intros [= <- _]; split; [apply keeps_refl|reflexivity]|].
  destruct (find _ _); [intros [= <- _]; split; [keeps_tac|reflexivity]|].
  destruct (juliusPeriod _); cbn; [intros [= <- _]; split; [keeps_tac|reflexivity]|discriminate].
Qed.

Lemma totalMsOf_le t r : totalMsOf t r <= INT_MAX.
Proof.
  unfold totalMsOf. destruct (Z.ltb_spec 0 r); [|unfold INT_MAX; lia].
  pose proof (wrap32_range (t * 1000)) as W. unfold imul. unfold in_int32, INT_MIN, INT_MAX in *.
  Z.to_euclidean_division_equations; nia.
Qed.

Lemma updateSliderRangeFromWave_ok st : slider_ok (updateSliderRangeFromWave st).
Proof.
  unfold slider_ok. destruct (updateSliderRangeFromWave_eq st) as (-> & -> & ->).
  pose proof (totalMsOf_le (totalSampleCount (widget st)) (sampleRate (widget st))).
  unfold INT_MAX in *. lia.
Qed.

Lemma updateSliderRangeFromWave_fields st :
  parser (updateSliderRangeFromWave st) = parser st /\
  loadedWavPath (updateSliderRangeFromWave st) = loadedWavPath st /\
  widget (updateSliderRangeFromWave st) = widget st.
Proof. repeat split. Qed.

Lemma sliderSetValue_ok st v : slider_ok st -> slider_ok (sliderSetValue st v).
Proof.
  intros (H0 & H1 & H2). unfold slider_ok, sliderSetValue, setSlider. cbn. rewrite H0.
  pose proof (qBound_range 0 v (sliderMax st)). lia.
Qed.

Lemma sliderSetValue_fields st v :
  parser (sliderSetValue st v) = parser st /\ loadedWavPath (sliderSetValue st v) = loadedWavPath st /\
  widget (sliderSetValue st v) = widget st /\ sliderMax (sliderSetValue st v) = sliderMax st.
Proof. repeat split. Qed.

Lemma onLoadWav_ok path file st : win_ok st -> win_ok (onLoadWav path file st).
Proof.
  intros H. unfold onLoadWav. destruct (String.eqb_spec path EmptyString) as [_|Hp]; [exact H|].
  destruct H as (S & P & _). destruct (loadFromFile _ file) as [[|] w'].
  - split; [apply updateSliderRangeFromWave_ok|split; [exact P|intros _; exact Hp]].
  - split; [exact S|split; [exact P|intros _; exact Hp]].
Qed.

(** The media player's operations keep [player_ok]. *)
Ltac player_tac :=
  unfold player_ok, setSource, play, pause, stop, setPosition, advance,
    startPlayback, pausePlayback, stopPlayback, seek in *;
  repeat match goal with p : Player |- _ => destruct p as [[?|] [] ?] end; cbn in *;
  intuition (discriminate || lia).

Lemma player_ok_setSource p u : player_ok (setSource p u).
Proof. player_tac. Qed.

Lemma player_ok_play p : player_ok p -> player_ok (play p).
Proof. player_tac. Qed.

Lemma player_ok_pause p : player_ok p -> player_ok (pause p).
Proof. player_tac. Qed.

Lemma player_ok_stop p : player_ok p -> player_ok (stop p).
Proof. player_tac. Qed.

Lemma player_ok_setPosition p ms : player_ok p -> player_ok (setPosition p ms).
Proof. player_tac. Qed.

Lemma player_ok_advance p d : player_ok p -> source p <> None -> 0 <= d -> player_ok (advance p d).
Proof. player_tac. Qed.

#[local] Hint Resolve player_ok_setSource player_ok_play player_ok_pause player_ok_stop
  player_ok_setPosition sliderSetValue_ok updateSliderRangeFromWave_ok keeps_refl : julius.

Lemma win_ok_keeps st st' : keeps st st' -> parser st' = parser st -> win_ok st -> win_ok st'.
Proof. intros K E W. apply (keeps_ok st st' K); [rewrite E; exact (proj1 (proj2 W))|exact W]. Qed.

Lemma win_ok_sliderSetValue st v : win_ok st -> win_ok (sliderSetValue st v).
Proof. intros (S & P & H). split; [apply sliderSetValue_ok, S|split; [exact P|exact H]]. Qed.

Lemma win_ok_onReadyRead {M : CMath} st chunk : win_ok st -> win_ok (onReadyReadStandardOutput st chunk).
Proof.
  intros W. unfold onReadyReadStandardOutput.
  destruct (fold_onStdoutLine_frame
              (QtString.skipEmpty (QtString.split (fun c => Ascii.eqb c "010"%char) chunk)) st) as [K P].
  apply (keeps_ok _ _ K); [exact (P (proj1 (proj2 W)))|exact W].
Qed.

Lemma win_ok_onLabelModeChanged row st : win_ok st -> win_ok (onLabelModeChanged row st).
Proof.
  unfold onLabelModeChanged. destruct (itemData row); [|auto].
  apply win_ok_keeps; [keeps_tac|reflexivity].
Qed.

Lemma onLoadWavApp_inv path file a : app_inv a -> app_inv (fst (onLoadWavApp path file a)).
Proof.
  intros [W P]. unfold onLoadWavApp.
  destruct (String.eqb path EmptyString); [split; assumption|].
  destruct (fst (loadFromFile _ _)); split; cbn; auto using onLoadWav_ok with julius.
Qed.

Lemma app_inv_init : app_inv initApp.
Proof.
  unfold app_inv, win_ok, slider_ok, player_ok, parser_inv. cbn. unfold INT_MAX.
  repeat split; try lia; try congruence; constructor.
Qed.

(** The state a handler of [step] leaves, as the first component of its
    result. *)
Ltac step_state Hs :=
  match type of Hs with
  | Some ?x = Some (?a', _) =>
      replace a' with (fst x)
        by (injection Hs; first [intros E; rewrite E; reflexivity | intros; subst; reflexivity]);
      clear Hs
  end.

Section Preservation.
Context {M : CMath} {CP : CodePages} (doubleText : Q -> string).

(** Every event the window can receive keeps [app_inv]. *)
Lemma step_inv e a a' effs :
  app_inv a -> possible e a = true -> step doubleText e a = Some (a', effs) -> app_inv a'.
Proof.
  intros [W P] Hpos Hs. unfold step in Hs. destruct e.
  - step_state Hs. apply onLoadWavApp_inv. split; assumption.
  - step_state Hs. split; assumption.
  - step_state Hs. split; [|exact P]. apply (win_ok_keeps (win a)); [keeps_tac|reflexivity|exact W].
  - step_state Hs. split; cbn; auto with julius.
  - step_state Hs. split; cbn; auto with julius.
  - step_state Hs. split; cbn; auto with julius.
  - unfold onRunJuliusApp in Hs. destruct (onRunJulius env (win a)) as [[st es]|] eqn:E; [|discriminate].
    injection Hs as <- _. destruct (onRunJulius_frame _ _ _ _ E) as [K Ep].
    split; [apply (win_ok_keeps _ _ K Ep W)|exact P].
  - step_state Hs. split; [apply win_ok_onLabelModeChanged, W|exact P].
  - step_state Hs. split; [|exact P]. apply (win_ok_keeps (win a)); [keeps_tac|reflexivity|exact W].
  - step_state Hs. split; cbn; [apply win_ok_sliderSetValue, W|auto with julius].
  - unfold onCellEdited in Hs. destruct (enterSession _ _ _ _) as [[? fs]|]; [|discriminate].
    injection Hs as <- _. split; [|exact P]. apply (win_ok_keeps (win a)); [keeps_tac|reflexivity|exact W].
  - step_state Hs. split; [apply win_ok_onReadyRead, W|exact P].
  - step_state Hs. split; assumption.
  - step_state Hs. cbn in Hpos. destruct (source (player a)) eqn:Es; [|discriminate].
    apply andb_true_iff in Hpos as [Hd _]. apply Z.leb_le in Hd.
    split; cbn; [|apply player_ok_advance; congruence].
    apply win_ok_sliderSetValue, (win_ok_keeps (win a)); [keeps_tac|reflexivity|exact W].
  - step_state Hs. split; cbn; [|auto with julius].
    apply win_ok_sliderSetValue, (win_ok_keeps (win a)); [keeps_tac|reflexivity|exact W].
Qed.

End Preservation.

Section Claims.
Context {M : CMath} {CP : CodePages} (doubleText : Q -> string).

(** C7: Every state the window reaches from its construction, through any
    sequence of clicks, dialog results, slider drags, edits, Julius output
    and media-player signals, satisfies [app_inv]: the slider's range
    starts at 0, holds its value and ends within [int]; the alignment
    parser's state is well formed; without a source the media player is
    stopped at 0; and a wave on screen has a non-empty path. *)
Theorem session_reachable_inv a : app_reachable doubleText a -> app_inv a.
Proof.
  induction 1 as [|a e a' effs _ IH Hp Hs]; [exact app_inv_init|].
  exact (step_inv doubleText e a a' effs IH Hp Hs).
Qed.

(** C9: At the end of the media, in any state of the invariant, the
    [mediaStatusChanged] lambda leaves the player stopped at 0 with its
    source, the playhead at sample 0 and the slider at 0, and nothing else
    of the window changes. *)
Theorem end_of_media_rewinds a :
  app_inv a ->
  exists a', step doubleText EndOfMedia a = Some (a', []) /\
    source (player a') = source (player a) /\ playbackState (player a') = StoppedState /\
    position (player a') = 0 /\ playheadSample (widget (win a')) = 0 /\ sliderValue (win a') = 0 /\
    sliderMax (win a') = sliderMax (win a) /\ frames (win a') = frames (win a) /\
    markers (widget (win a')) = markers (widget (win a)).
Proof.
  intros [((S0 & S1 & _) & _) _]. exists (fst (onEndOfMediaApp a)). split; [reflexivity|].
  destruct a as [st [[u|] ps pos]]; cbn in *; rewrite S0; unfold qBound;
    repeat split; lia.
Qed.

(** C10: A WAV load that fails ([sf_open] or [sf_readf_float]) empties the
    waveform and stores the new path, but leaves the media player's
    source and the slider's range as the previous load set them: Play
    then plays the previously loaded file while no wave is shown. *)
Theorem failed_load_keeps_old_media path file a :
  path <> EmptyString -> fst (loadFromFile (widget (win a)) file) = false ->
  exists a', step doubleText (LoadWavClicked path file) a = Some (a', [WinEffect (EWarning "Failed Import Wav")]) /\
    samples (widget (win a')) = [] /\ loadedWavPath (win a') = path /\
    player a' = player a /\ sliderMax (win a') = sliderMax (win a) /\
    forall u, source (player a) = Some u ->
      exists a'', step doubleText PlayClicked a' = Some (a'', [status "Play" 2000]) /\
        source (player a'') = Some u /\ playbackState (player a'') = PlayingState /\
        samples (widget (win a'')) = [].
Proof.
  intros Hp Hf. exists (fst (onLoadWavApp path file a)).
  unfold step, onLoadWavApp. apply String.eqb_neq in Hp. rewrite Hp, Hf. cbn [fst].
  unfold onLoadWav. rewrite Hp. destruct (loadFromFile (widget (win a)) file) as [ok w'] eqn:E.
  cbn in Hf. subst ok. cbn. split; [reflexivity|]. rewrite E. cbn.
  assert (samples w' = []) as Hs.
  { unfold loadFromFile in E. destruct file as [sf|]; cbn in E; [destruct (sfReadcount sf <=? 0)|];
    inversion E; reflexivity. }
  split; [exact Hs|]. split; [reflexivity|]. split; [reflexivity|]. split; [reflexivity|].
  intros u Hu. eexists. split; [reflexivity|]. cbn. unfold startPlayback, play. rewrite Hu.
  repeat split; assumption.
Qed.

(** C8: Dragging the slider to [v], in any state of the invariant with a
    loaded source, seeks the player to [v] bounded by the slider's range;
    the player's report of that position leaves the slider where it was
    dragged (the value fits in [int]) and moves the playhead to the
    sample [int(ms * sampleRate / 1000)]. *)
Theorem slider_drag_seeks_player v a :
  app_inv a -> source (player a) <> None ->
  let ms := qBound 0 v (sliderMax (win a)) in
  exists a1 a2, step doubleText (SliderMoved v) a = Some (a1, []) /\
    possible (PlayerAdvanced 0) a1 = true /\ step doubleText (PlayerAdvanced 0) a1 = Some (a2, []) /\
    position (player a2) = ms /\ sliderValue (win a2) = ms /\
    playheadSample (widget (win a2)) = wrap32 (Z.quot (ms * sampleRate (widget (win a))) 1000).
Proof.
  intros [((S0 & S1 & S2) & _) _] Hs ms.
  exists (fst (onSliderMoved v a)), (fst (onPlayerAdvanced 0 (fst (onSliderMoved v a)))).
  pose proof (qBound_range 0 v (sliderMax (win a)) ltac:(lia)) as B. fold ms in B.
  destruct a as [st [[u|] ps pos]]; cbn in *; [|congruence].
  split; [reflexivity|]. split; [reflexivity|]. split; [reflexivity|].
  rewrite S0. fold ms. rewrite Z.max_l, Z.add_0_r by lia.
  assert (wrap32 ms = ms) as -> by (apply wrap32_id; unfold in_int32, INT_MIN, INT_MAX in *; lia).
  rewrite qBound_id by lia. repeat split.
Qed.

End Claims.

End Session.

Section SessionWitnesses.
Import Session Window Waveform LogDecode.

Lemma session_reachable_inv_witness :
  let sf := mkSFInfo 16000 1 2 [1#2; -1#2]%Q 2 in
  let a := fst (onPlay (fst (onLoadWavApp "take1.wav" (Some sf) initApp))) in
  app_reachable (M := FixedCMath.fixedCMath) (CP := singleByteCodePages) QtString.fixed6 a /\ app_inv a.
Proof.
  intros sf a.
  assert (R : app_reachable (M := FixedCMath.fixedCMath) (CP := singleByteCodePages) QtString.fixed6 a).
  { eapply (app_reach_step _ (fst (onLoadWavApp "take1.wav" (Some sf) initApp)) PlayClicked);
      [|reflexivity|reflexivity].
    eapply (app_reach_step _ initApp (LoadWavClicked "take1.wav" (Some sf)));
      [apply app_reach_init|reflexivity|reflexivity]. }
  split; [exact R|]. exact (session_reachable_inv QtString.fixed6 a R).
Defined.

Lemma end_of_media_rewinds_witness :
  let sf := mkSFInfo 16000 1 2 [1#2; -1#2]%Q 2 in
  let a := fst (onPlay (fst (onLoadWavApp "take1.wav" (Some sf) initApp))) in
  app_inv a /\
  exists a', step (M := FixedCMath.fixedCMath) (CP := singleByteCodePages) QtString.fixed6 EndOfMedia a = Some (a', []) /\
    source (player a') = source (player a) /\ playbackState (player a') = StoppedState /\
    position (player a') = 0 /\ playheadSample (widget (win a')) = 0 /\ sliderValue (win a') = 0 /\
    sliderMax (win a') = sliderMax (win a) /\ frames (win a') = frames (win a) /\
    markers (widget (win a')) = markers (widget (win a)).
Proof.
  intros sf a.
  assert (I : app_inv a).
  { eapply (step_inv (M := FixedCMath.fixedCMath) (CP := singleByteCodePages) QtString.fixed6 PlayClicked);
      [|reflexivity|reflexivity].
    eapply (step_inv (M := FixedCMath.fixedCMath) (CP := singleByteCodePages) QtString.fixed6
              (LoadWavClicked "take1.wav" (Some sf))); [exact app_inv_init|reflexivity|reflexivity]. }
  split; [exact I|]. exact (end_of_media_rewinds QtString.fixed6 a I).
Defined.

Lemma failed_load_keeps_old_media_witness :
  let sf := mkSFInfo 16000 1 2 [1#2; -1#2]%Q 2 in
  let a := fst (onLoadWavApp "take1.wav" (Some sf) initApp) in
  exists a', step (M := FixedCMath.fixedCMath) (CP := singleByteCodePages) QtString.fixed6
               (LoadWavClicked "missing.wav" None) a = Some (a', [WinEffect (EWarning "Failed Import Wav")]) /\
    samples (widget (win a')) = [] /\ loadedWavPath (win a') = "missing.wav" /\
    player a' = player a /\ sliderMax (win a') = sliderMax (win a) /\
    forall u, source (player a) = Some u ->
      exists a'', step (M := FixedCMath.fixedCMath) (CP := singleByteCodePages) QtString.fixed6
                    PlayClicked a' = Some (a'', [status "Play" 2000]) /\
        source (player a'') = Some u /\ playbackState (player a'') = PlayingState /\
        samples (widget (win a'')) = [].
Proof.
  intros sf a.
  exact (failed_load_keeps_old_media (M := FixedCMath.fixedCMath) (CP := singleByteCodePages) QtString.fixed6
           "missing.wav" None a ltac:(discriminate) eq_refl).
Defined.

Lemma slider_drag_seeks_player_witness :
  let sf := mkSFInfo 16000 1 2 [1#2; -1#2]%Q 2 in
  let a := fst (onLoadWavApp "take1.wav" (Some sf) initApp) in
  app_inv a /\
  exists a1 a2, step (M := FixedCMath.fixedCMath) (CP := singleByteCodePages) QtString.fixed6 (SliderMoved 500) a = Some (a1, []) /\
    possible (PlayerAdvanced 0) a1 = true /\
    step (M := FixedCMath.fixedCMath) (CP := singleByteCodePages) QtString.fixed6 (PlayerAdvanced 0) a1 = Some (a2, []) /\
    position (player a2) = qBound 0 500 (sliderMax (win a)) /\ sliderValue (win a2) = qBound 0 500 (sliderMax (win a)) /\
    playheadSample (widget (win a2)) =
      wrap32 (Z.quot (qBound 0 500 (sliderMax (win a)) * sampleRate (widget (win a))) 1000).
Proof.
  intros sf a.
  assert (I : app_inv a).
  { eapply (step_inv (M := FixedCMath.fixedCMath) (CP := singleByteCodePages) QtString.fixed6
              (LoadWavClicked "take1.wav" (Some sf))); [exact app_inv_init|reflexivity|reflexivity]. }
  split; [exact I|].
  assert (Hs : source (player a) <> None) by (subst a sf; vm_compute; discriminate).
  exact (slider_drag_seeks_player QtString.fixed6 500 a I Hs).
Defined.

End SessionWitnesses.
