(* ===== verification/Layout.v ===== *)
(** * Building the window: [setupUi], [setupConnections], the constructor

    [JuliusAnalyzeWindow::JuliusAnalyzeWindow] (Private/JuliusAnalyzeWindow.cpp
    86-91) runs [setupUi] (97-177), which creates the widgets, the table
    model and the delegate and stores them in the pointer members of the
    header (Public/JuliusAnalyzeWindow.h 39-70, 88-100), and then
    [setupConnections] (180-217), which wires their signals to the slots.

    The two methods are written here as the statements they execute
    ([Op]) over an explicit object store: the member table [vars] (a
    [gmap] from a member's or a local's name to a pointer), the heap of
    created objects, each with its kind and the calls made on it in
    order, and the established connections.  A member with the [{}]
    initialiser starts as [Null]; the threshold members, declared without
    an initialiser, start [Indeterminate].  Calling a method through a
    null or indeterminate pointer, or reading an indeterminate pointer, is
    undefined behaviour: [exec] returns [None].  [QObject::connect] with a
    null sender or receiver establishes nothing (Qt warns and returns an
    invalid connection).  The [for] loop over the table's columns is a
    [Fixpoint] with fuel ([forColumns]); the fuel [fixedParamCount] is
    enough for the loop to end by its own condition. *)

From Stdlib Require Import ZArith String List Bool Lia.
From stdpp Require Import base list gmap strings.
From S2P Require Import Prelude LipModel TableModel Waveform Window Session.
Import ListNotations.
Local Open Scope Z_scope.
Local Open Scope julius_scope.

Module Layout.
Import TableModel Waveform Window Session.

(** ** Objects and the calls made on them *)

Inductive Kind :=
| KMainWindow
| KWidget
| KPushButton (text : string)
| KCheckBox (text : string)
| KHBoxLayout
| KVBoxLayout
| KWaveform
| KSlider
| KModel
| KTableView
| KDelegate
| KComboBox.

Inductive SelectionBehavior := SelectItems | SelectRows | SelectColumns.
Inductive SelectionMode := NoSelection | SingleSelection | MultiSelection | ExtendedSelection.
Inductive ContextMenuPolicy := DefaultContextMenu | ActionsContextMenu.

(** [QAbstractItemView::DoubleClicked]. *)
Definition DoubleClicked : Z := 2.

(** A method call, its object arguments named by [R]: the names of the
    code ([string]) or the objects they resolve to ([nat]). *)
Inductive Call (R : Type) :=
| SetCentralWidget (w : R)
| SetLayout (l : R)
| SetChecked (b : bool)
| AddWidget (w : R) (stretch : Z)
| AddLayout (l : R) (stretch : Z)
| AddStretch
| SetModel (m : R)
| SetSelectionBehavior (b : SelectionBehavior)
| SetSelectionMode (m : SelectionMode)
| SetAlternatingRowColors (b : bool)
| SetItemDelegate (d : R)
| SetEditTriggers (t : Z)
| SetColumnWidth (c w : Z)
| SetContextMenuPolicy (p : ContextMenuPolicy)
| AddItem (text : string) (data : Z)
| Resize (w h : Z).
Arguments SetCentralWidget {R}. Arguments SetLayout {R}. Arguments SetChecked {R}.
Arguments AddWidget {R}. Arguments AddLayout {R}. Arguments AddStretch {R}. Arguments SetModel {R}.
Arguments SetSelectionBehavior {R}. Arguments SetSelectionMode {R}.
Arguments SetAlternatingRowColors {R}. Arguments SetItemDelegate {R}. Arguments SetEditTriggers {R}.
Arguments SetColumnWidth {R}. Arguments SetContextMenuPolicy {R}. Arguments AddItem {R}.
Arguments Resize {R}.

(** The object arguments of a call resolved one by one ([None] as soon
    as one does not resolve). *)
Definition resolveCall {A B} (f : A -> option B) (c : Call A) : option (Call B) :=
  match c with
  | SetCentralWidget w => SetCentralWidget <$> f w
  | SetLayout l => SetLayout <$> f l
  | SetChecked b => Some (SetChecked b)
  | AddWidget w s => (fun w' => AddWidget w' s) <$> f w
  | AddLayout l s => (fun l' => AddLayout l' s) <$> f l
  | AddStretch => Some AddStretch
  | SetModel m => SetModel <$> f m
  | SetSelectionBehavior b => Some (SetSelectionBehavior b)
  | SetSelectionMode m => Some (SetSelectionMode m)
  | SetAlternatingRowColors b => Some (SetAlternatingRowColors b)
  | SetItemDelegate d => SetItemDelegate <$> f d
  | SetEditTriggers t => Some (SetEditTriggers t)
  | SetColumnWidth c w => Some (SetColumnWidth c w)
  | SetContextMenuPolicy p => Some (SetContextMenuPolicy p)
  | AddItem t d => Some (AddItem t d)
  | Resize w h => Some (Resize w h)
  end.

(** ** The statements of the constructor *)

Inductive Op :=
| New (x : string) (k : Kind)                   (** [x = new K(...)] *)
| NewOn (x : string) (k : Kind) (owner : string)  (** [x = new QVBoxLayout(owner)] *)
| Invoke (target : string) (c : Call string)     (** [target->method(...)] *)
| Connect (sender signal receiver slot : string) (** [connect(sender, &signal, receiver, slot)] *)
| AssignBool (x : string) (b : bool).

Inductive Ptr := Null | Indeterminate | Obj (id : nat).

Record Ui := mkUi {
  vars : gmap string Ptr;
  heap : gmap nat (Kind * list (Call nat));
  nextId : nat;
  conns : list (nat * string * nat * string);
  flags : gmap string bool
}.

(** The pointer members of the header: [{}] is [nullptr]; the threshold
    spin boxes and buttons have no initialiser.  [this] is object 0. *)
Definition nullMembers : list string :=
  ["loadWavButton_"; "exportAdxButton_"; "importAdxButton_"; "waveformWidget_"; "adxTableView_";
   "adxModel_"; "positionSlider_"; "playButton_"; "pauseButton_"; "stopButton_"; "runJuliusButton_";
   "labelModeCombo_"; "checkBoxSilenceCorrection_"].

Definition thresholdMembers : list string :=
  ["thresholdA_"; "thresholdI_"; "thresholdU_"; "thresholdE_"; "thresholdO_"; "thresholdN_";
   "btnApplyA_"; "btnApplyI_"; "btnApplyU_"; "btnApplyE_"; "btnApplyO_"; "btnApplyN_"].

Definition initUi : Ui :=
  mkUi (<["this" := Obj 0]> (list_to_map ((fun x => (x, Null)) <$> nullMembers) ∪
                             list_to_map ((fun x => (x, Indeterminate)) <$> thresholdMembers)))
       {[0%nat := (KMainWindow, [])]} 1 []
       (<["isPlaying_" := false]> {[ "isApplySilenceCorrection" := false ]}).

(** Reading a pointer: an indeterminate one (or an unknown name) is
    undefined behaviour. *)
Definition readPtr (st : Ui) (x : string) : option Ptr :=
  match vars st !! x with Some Indeterminate | None => None | Some p => Some p end.

(** Dereferencing: only a pointer to an object. *)
Definition deref (st : Ui) (x : string) : option nat :=
  match vars st !! x with Some (Obj n) => Some n | _ => None end.

Definition newObj (x : string) (k : Kind) (st : Ui) : Ui :=
  mkUi (<[x := Obj (nextId st)]> (vars st)) (<[nextId st := (k, [])]> (heap st)) (S (nextId st))
       (conns st) (flags st).

Definition invoke (t : string) (c : Call string) (st : Ui) : option Ui :=
  n <- deref st t ;;
  c' <- resolveCall (deref st) c ;;
  '(k, cs) <- heap st !! n ;;
  Some (mkUi (vars st) (<[n := (k, cs ++ [c'])]> (heap st)) (nextId st) (conns st) (flags st)).

Definition exec1 (o : Op) (st : Ui) : option Ui :=
  match o with
  | New x k => Some (newObj x k st)
  | NewOn x k owner => invoke owner (SetLayout x) (newObj x k st)
  | Invoke t c => invoke t c st
  | Connect s sig r sl =>
      ps <- readPtr st s ;;
      pr <- readPtr st r ;;
      match ps, pr with
      | Obj a, Obj b => Some (mkUi (vars st) (heap st) (nextId st) (conns st ++ [(a, sig, b, sl)]) (flags st))
      | _, _ => Some st
      end
  | AssignBool x b => Some (mkUi (vars st) (heap st) (nextId st) (conns st) (<[x := b]> (flags st)))
  end.

Fixpoint exec (ops : list Op) (st : Ui) : option Ui :=
  match ops with
  | [] => Some st
  | o :: os => st' <- exec1 o st ;; exec os st'
  end.

(** ** The code *)

(** [for (int i = 1; i < ADXLipModel::fixedParamCount(); ++i)
      adxTableView_->setColumnWidth(i, 60);] *)
Fixpoint forColumns (fuel : nat) (i : Z) : list Op :=
  match fuel with
  | O => []
  | S f => if i <? fixedParamCount then Invoke "adxTableView_" (SetColumnWidth i 60) :: forColumns f (i + 1)
           else []
  end.

Definition columnWidthLoop : list Op := forColumns (Z.to_nat fixedParamCount) 1.

Definition addItem (m : MarkerLabelMode) : Op :=
  Invoke "labelModeCombo_" (AddItem (modeName m) (labelModeToInt m)).

Definition setupUi : list Op :=
  [New "central" KWidget; Invoke "this" (SetCentralWidget "central");
   New "loadWavButton_" (KPushButton "Import Wav"); New "exportAdxButton_" (KPushButton "Export ADXLip");
   New "importAdxButton_" (KPushButton "Import ADXLip");
   New "checkBoxSilenceCorrection_" (KCheckBox "Silence Collect");
   Invoke "checkBoxSilenceCorrection_" (SetChecked false);
   New "topLayout" KHBoxLayout;
   Invoke "topLayout" (AddWidget "loadWavButton_" 0); Invoke "topLayout" (AddWidget "exportAdxButton_" 0);
   Invoke "topLayout" (AddWidget "importAdxButton_" 0);
   Invoke "topLayout" (AddWidget "checkBoxSilenceCorrection_" 0); Invoke "topLayout" AddStretch;
   New "waveformWidget_" KWaveform; New "positionSlider_" KSlider; New "waveformArea" KVBoxLayout;
   Invoke "waveformArea" (AddWidget "waveformWidget_" 0); Invoke "waveformArea" (AddWidget "positionSlider_" 0);
   New "adxModel_" KModel; New "adxTableView_" KTableView;
   Invoke "adxTableView_" (SetModel "adxModel_");
   Invoke "adxTableView_" (SetSelectionBehavior SelectItems);
   Invoke "adxTableView_" (SetSelectionMode SingleSelection);
   Invoke "adxTableView_" (SetAlternatingRowColors true);
   New "delegate" KDelegate; Invoke "adxTableView_" (SetItemDelegate "delegate");
   Invoke "adxTableView_" (SetEditTriggers DoubleClicked)] ++
  columnWidthLoop ++
  [Invoke "adxTableView_" (SetContextMenuPolicy ActionsContextMenu);
   New "middleLayout" KHBoxLayout;
   Invoke "middleLayout" (AddLayout "waveformArea" 2); Invoke "middleLayout" (AddWidget "adxTableView_" 3);
   New "playButton_" (KPushButton "Play"); New "pauseButton_" (KPushButton "Pause");
   New "stopButton_" (KPushButton "Stop"); New "runJuliusButton_" (KPushButton "Analize Julius");
   New "labelModeCombo_" KComboBox] ++
  map addItem [AIUEON; CV; dBFS; RelSum; RelMax; RelVowelSum; NormPos; LabelNone] ++
  [New "bottomLayout" KHBoxLayout;
   Invoke "bottomLayout" (AddWidget "playButton_" 0); Invoke "bottomLayout" (AddWidget "pauseButton_" 0);
   Invoke "bottomLayout" (AddWidget "stopButton_" 0); Invoke "bottomLayout" (AddWidget "runJuliusButton_" 0);
   Invoke "bottomLayout" (AddWidget "labelModeCombo_" 0); Invoke "bottomLayout" AddStretch;
   NewOn "mainLayout" KVBoxLayout "central";
   Invoke "mainLayout" (AddLayout "topLayout" 0); Invoke "mainLayout" (AddLayout "middleLayout" 0);
   Invoke "mainLayout" (AddLayout "bottomLayout" 0);
   Invoke "this" (Resize 1400 600)].

(** The connections, in order; the lambdas are named by what they do. *)
Definition setupConnections : list Op :=
  [Connect "loadWavButton_" "clicked" "this" "onLoadWav";
   Connect "exportAdxButton_" "clicked" "this" "onExportADXLip";
   Connect "importAdxButton_" "clicked" "this" "onImportADXLip";
   Connect "playButton_" "clicked" "this" "onPlay";
   Connect "pauseButton_" "clicked" "this" "onPause";
   Connect "stopButton_" "clicked" "this" "onStop";
   Connect "runJuliusButton_" "clicked" "this" "onRunJulius";
   Connect "labelModeCombo_" "currentIndexChanged" "this" "onLabelModeChanged";
   Connect "waveformWidget_" "waveformLoaded" "this" "updateSliderRangeFromWave";
   Connect "waveformWidget_" "positionChanged" "positionSlider_" "setValue";
   Connect "positionSlider_" "sliderMoved" "waveformWidget_" "seek";
   Connect "checkBoxSilenceCorrection_" "toggled" "this" "onSilenceToggled"].

(** The constructor: [isPlaying_ = false; setupUi(); setupConnections();]. *)
Definition construct : option Ui :=
  exec ([AssignBool "isPlaying_" false] ++ setupUi ++ setupConnections) initUi.

#[export] Instance Kind_eq_dec : EqDecision Kind. Proof. solve_decision. Defined.
#[export] Instance SelectionBehavior_eq_dec : EqDecision SelectionBehavior. Proof. solve_decision. Defined.
#[export] Instance SelectionMode_eq_dec : EqDecision SelectionMode. Proof. solve_decision. Defined.
#[export] Instance ContextMenuPolicy_eq_dec : EqDecision ContextMenuPolicy. Proof. solve_decision. Defined.
#[export] Instance Call_eq_dec {R} `{EqDecision R} : EqDecision (Call R). Proof. solve_decision. Defined.
#[export] Instance Ptr_eq_dec : EqDecision Ptr. Proof. solve_decision. Defined.

(** ** Reading the built window *)

(** The calls made on the object a name points to. *)
Definition callsOf (st : Ui) (x : string) : list (Call nat) :=
  match deref st x with
  | Some n => match heap st !! n with Some (_, cs) => cs | None => [] end
  | None => []
  end.

(** The items of a combo box, text and data, in the order added. *)
Definition comboItems (cs : list (Call nat)) : list (string * Z) :=
  omap (fun c => match c with AddItem t d => Some (t, d) | _ => None end) cs.

(** The connection [connect(s, signal, r, slot)] is established. *)
Definition connectedb (st : Ui) (s sig r sl : string) : bool :=
  match deref st s, deref st r with
  | Some a, Some b => bool_decide ((a, sig, b, sl) ∈ conns st)
  | _, _ => false
  end.

(** The connection through which the window receives an event of
    [Session.step]: Julius's output comes through the connections
    [onRunJulius] makes, a cell edit through the view and its delegate,
    the end of the media inside the widget. *)
Definition eventConnection (e : UiEvent) : option (string * string * string * string) :=
  match e with
  | LoadWavClicked _ _ => Some ("loadWavButton_", "clicked", "this", "onLoadWav")
  | ExportClicked _ _ => Some ("exportAdxButton_", "clicked", "this", "onExportADXLip")
  | ImportClicked _ _ => Some ("importAdxButton_", "clicked", "this", "onImportADXLip")
  | PlayClicked => Some ("playButton_", "clicked", "this", "onPlay")
  | PauseClicked => Some ("pauseButton_", "clicked", "this", "onPause")
  | StopClicked => Some ("stopButton_", "clicked", "this", "onStop")
  | RunJuliusClicked _ => Some ("runJuliusButton_", "clicked", "this", "onRunJulius")
  | LabelModeChanged _ => Some ("labelModeCombo_", "currentIndexChanged", "this", "onLabelModeChanged")
  | SilenceToggled _ => Some ("checkBoxSilenceCorrection_", "toggled", "this", "onSilenceToggled")
  | SliderMoved _ => Some ("positionSlider_", "sliderMoved", "waveformWidget_", "seek")
  | PlayerAdvanced _ => Some ("waveformWidget_", "positionChanged", "positionSlider_", "setValue")
  | CellEdited _ _ _ | StdoutReady _ | StderrReady _ | EndOfMedia => None
  end.

Definition zrange (lo hi : Z) : list Z := map (fun k => lo + Z.of_nat k) (seq 0 (Z.to_nat (hi - lo))).

(** ** Lemmas *)

Lemma exec_app l1 l2 st : exec (l1 ++ l2) st = (st' <- exec l1 st ;; exec l2 st').
Proof.
  induction l1 as [|o l1 IH] in st |- *; [reflexivity|]. cbn.
  destruct (exec1 o st); [apply IH|reflexivity].
Qed.

Lemma connectedb_spec st s sig r sl :
  connectedb st s sig r sl = true <->
  exists a b, vars st !! s = Some (Obj a) /\ vars st !! r = Some (Obj b) /\ In (a, sig, b, sl) (conns st).
Proof.
  unfold connectedb, deref. split.
  - destruct (vars st !! s) as [[| |a]|], (vars st !! r) as [[| |b]|]; try discriminate.
    intros H. apply bool_decide_eq_true, list_elem_of_In in H. eauto.
  - intros (a & b & -> & -> & H). apply bool_decide_eq_true, list_elem_of_In, H.
Qed.

Lemma zrange_S lo hi : lo < hi -> zrange lo hi = lo :: zrange (lo + 1) hi.
Proof.
  intros H. unfold zrange. replace (Z.to_nat (hi - lo)) with (S (Z.to_nat (hi - (lo + 1)))) by lia.
  cbn. f_equal; [lia|]. rewrite <- seq_shift, map_map. apply map_ext. intros k. lia.
Qed.

Lemma zrange_nil lo hi : hi <= lo -> zrange lo hi = [].
Proof. intros H. unfold zrange. replace (Z.to_nat (hi - lo)) with 0%nat by lia. reflexivity. Qed.

Lemma In_zrange lo hi c : In c (zrange lo hi) <-> lo <= c < hi.
Proof.
  unfold zrange. rewrite in_map_iff. split.
  - intros (k & <- & Hk). apply in_seq in Hk. lia.
  - intros H. exists (Z.to_nat (c - lo)). split; [lia|]. apply in_seq. lia.
Qed.

(** Enough fuel: the loop stops by its condition, one call per column
    from [i] on. *)
Lemma forColumns_enough n i :
  (Z.to_nat (fixedParamCount - i) <= n)%nat ->
  forColumns n i = map (fun c => Invoke "adxTableView_" (SetColumnWidth c 60)) (zrange i fixedParamCount).
Proof.
  induction n as [|n IH] in i |- *; intros H; cbn [forColumns].
  - rewrite zrange_nil by lia. reflexivity.
  - destruct (Z.ltb_spec i fixedParamCount) as [Hi|Hi].
    + rewrite (zrange_S i) by exact Hi. cbn. f_equal. apply IH. lia.
    + rewrite zrange_nil by exact Hi. reflexivity.
Qed.

(** C11: The constructor runs [setupUi] and [setupConnections] without a
    call through a null or indeterminate pointer, and every event the
    window's step function receives from one of its widgets arrives
    through a connection it establishes (the sender and receiver members
    point to objects, and the connection is recorded); the threshold
    members are never assigned and stay indeterminate. *)
Theorem constructor_wires_every_event :
  exists ui, construct = Some ui /\
    (forall e s sig r sl, eventConnection e = Some (s, sig, r, sl) ->
       exists a b, vars ui !! s = Some (Obj a) /\ vars ui !! r = Some (Obj b) /\ In (a, sig, b, sl) (conns ui)) /\
    Forall (fun x => vars ui !! x = Some Indeterminate) thresholdMembers.
Proof.
  eexists. split; [vm_compute; reflexivity|]. split.
  - intros e s sig r sl He. apply connectedb_spec.
    destruct e; cbn in He; try discriminate; injection He as <- <- <- <-; vm_compute; reflexivity.
  - apply (bool_decide_unpack _). vm_compute. reflexivity.
Qed.

(** [setupUi] builds what the window's model assumes: the label-mode
    combo box holds [labelModeItems] in order (what [itemData] reads),
    the silence check box starts as [isApplySilenceCorrection] does, and
    the table view shows the [ADXLipModel] through the [NoCommitDelegate]
    and starts editing on a double click (the [CellEdited] event). *)
Theorem setupUi_matches_window_model :
  exists ui, construct = Some ui /\
    comboItems (callsOf ui "labelModeCombo_") = labelModeItems /\
    SetChecked (isApplySilenceCorrection initWindow) ∈ callsOf ui "checkBoxSilenceCorrection_" /\
    exists m d, deref ui "adxModel_" = Some m /\ fst <$> heap ui !! m = Some KModel /\
      fst <$> heap ui !! d = Some KDelegate /\
      SetModel m ∈ callsOf ui "adxTableView_" /\ SetItemDelegate d ∈ callsOf ui "adxTableView_" /\
      SetEditTriggers DoubleClicked ∈ callsOf ui "adxTableView_".
Proof.
  eexists. split; [vm_compute; reflexivity|].
  split; [vm_compute; reflexivity|]. split; [apply (bool_decide_unpack _); vm_compute; reflexivity|].
  exists 10%nat, 12%nat. repeat split; try (apply (bool_decide_unpack _)); vm_compute; first [reflexivity | exact I].
Qed.

(** The column loop of [setupUi] ends by its condition whatever the
    fuel beyond the eleven iterations it needs, and sets the width 60 on
    exactly the columns [1 .. columnCount - 1]: the frame index column
    keeps its default width. *)
Theorem column_loop_widths fs n :
  (Z.to_nat (fixedParamCount - 1) <= n)%nat ->
  forall c w, In (Invoke "adxTableView_" (SetColumnWidth c w)) (forColumns n 1) <->
              1 <= c < columnCount fs /\ w = 60.
Proof.
  intros Hn c w. rewrite forColumns_enough by exact Hn. rewrite in_map_iff. unfold columnCount. split.
  - intros (c' & E & Hc). injection E as -> ->. apply In_zrange in Hc. lia.
  - intros [Hc ->]. exists c. split; [reflexivity|]. apply In_zrange. exact Hc.
Qed.

End Layout.

Section LayoutWitnesses.
Import Layout.

Lemma column_loop_widths_witness :
  Nat.le (Z.to_nat (TableModel.fixedParamCount - 1)) (Z.to_nat TableModel.fixedParamCount) /\
  In (Invoke "adxTableView_" (SetColumnWidth 11 60)) columnWidthLoop /\
  ~ In (Invoke "adxTableView_" (SetColumnWidth 0 60)) columnWidthLoop.
Proof.
  assert (H : Nat.le (Z.to_nat (TableModel.fixedParamCount - 1)) (Z.to_nat TableModel.fixedParamCount))
    by (vm_compute; lia).
  split; [exact H|]. split.
  - apply (proj2 (column_loop_widths [] _ H 11 60)). split; [unfold TableModel.columnCount, TableModel.fixedParamCount; lia|reflexivity].
  - intros Hin. apply (proj1 (column_loop_widths [] _ H 0 60)) in Hin. lia.
Defined.

End LayoutWitnesses.
